(** * Decarbon agent core: shared state store and agent scheduler

    A shallow embedding of [core/state.py] ([StateManager]) and
    [core/scheduler.py] ([AgentScheduler]).  Python objects that are
    mutated in place and may be reached through several references (the
    history lists of the state) live in an explicit heap; everything
    else is passed by value.  Operations are functions in a small
    state-and-exception monad, so that what a call leaves behind when it
    raises is part of its meaning.  The methods of the store run under
    its lock and the event loop runs one coroutine at a time, so calls
    are taken one after the other; the clock, the observers and the
    coroutines of the workers are inputs. *)

From stdpp Require Import gmap strings list.
From Stdlib Require Import ZArith Lia.
From Stdlib Require QArith.

Local Open Scope string_scope.
Local Open Scope list_scope.

(** ** Exceptions and the monad of operations *)

(** The exceptions that the two modules raise or meet.  [Fault] stands
    for any other subclass of [Exception] raised by foreign code (an
    observer, a worker coroutine).  [CancelledError] and [SystemExit]
    derive from [BaseException] only, so [except Exception] lets them
    through. *)
Inductive exn : Type :=
| ValueError (msg : string)
| AttributeError (msg : string)
| InvalidStateError
| Fault (msg : string)
| CancelledError
| SystemExit.

Definition is_Exception (e : exn) : bool :=
  match e with
  | CancelledError | SystemExit => false
  | _ => true
  end.

(** [str(e)] *)
Definition exn_str (e : exn) : string :=
  match e with
  | ValueError msg | AttributeError msg | Fault msg => msg
  | InvalidStateError => "Exception is not set."
  | CancelledError | SystemExit => ""
  end.

(** How a call ends: with a value, with an exception, or never (an
    [await] on something that does not complete). *)
Inductive result (A : Type) : Type :=
| Ok (a : A)
| Raise (e : exn)
| Blocked.
Arguments Ok {A} a.
Arguments Raise {A} e.
Arguments Blocked {A}.

(** A call transforms the world and the world it leaves is kept also
    when it raises: Python rolls nothing back. *)
Definition M (W A : Type) : Type := W -> result A * W.

Definition ret {W A} (a : A) : M W A := fun w => (Ok a, w).

Definition raise {W A} (e : exn) : M W A := fun w => (Raise e, w).

Definition bind {W A B} (m : M W A) (k : A -> M W B) : M W B :=
  fun w =>
    match m w with
    | (Ok a, w') => k a w'
    | (Raise e, w') => (Raise e, w')
    | (Blocked, w') => (Blocked, w')
    end.

Declare Scope py_scope.
Delimit Scope py_scope with py.
Notation "'let!' x := m 'in' k" := (bind m (fun x => k))
  (at level 10, x name, m at level 100, k at level 200, only parsing) : py_scope.
Notation "m ;; k" := (bind m (fun _ => k))
  (at level 100, k at level 200, only parsing, right associativity) : py_scope.

(** [for x in xs: body(x)] *)
Fixpoint for_each {W A} (xs : list A) (body : A -> M W unit) : M W unit :=
  match xs with
  | [] => ret tt
  | x :: rest => bind (body x) (fun _ => for_each rest body)
  end.

(** [xs[-n:]] *)
Definition last_n {A} (n : nat) (xs : list A) : list A :=
  drop (length xs - n) xs.

(** ** The data of [core/state.py] *)

Module Decision.
Record t : Type := mk
  { action : string;
    explanation : string;
    timestamp : Z;
    confidence : QArith_base.Q }.
End Decision.

Module Alert.
Record t : Type := mk
  { level : string;
    message : string;
    timestamp : Z;
    source : string }.
End Alert.

(** Addresses of list objects. *)
Definition loc : Type := nat.

(** The values a field of the state can hold.  Assignment to a pydantic
    model is not validated (no [validate_assignment] in [Config]), so
    any value can end up in any field.  A list is held by reference. *)
Inductive pyval : Type :=
| VNone
| VBool (b : bool)
| VFloat (x : QArith_base.Q)
| VStr (s : string)
| VDatetime (t : Z)
| VDecision (d : Decision.t)
| VAlert (a : Alert.t)
| VList (l : loc)
| VDict (kvs : list (string * string)).

(** The list objects, by address. *)
Abbreviation heap := (list (list pyval)).

(** A new list object. *)
Definition alloc (xs : list pyval) (h : heap) : loc * heap :=
  (length h, h ++ [xs]).

(** An instance of [SystemState]: its fields by name. *)
Abbreviation SystemState := (gmap string pyval).

(** The fields declared in [class SystemState], in the order of the
    source. *)
Definition field_names : list string :=
  [ "solar_kwh"; "load_kwh"; "battery_soc"; "grid_price"; "co2_intensity";
    "solar_forecast_kwh"; "load_forecast_kwh";
    "timestamp"; "system_status";
    "hvac_status"; "lighting_status"; "machine_status";
    "total_cost_eur"; "total_co2_kg"; "energy_savings_eur";
    "current_decision"; "decision_history";
    "active_alerts"; "alert_history";
    "infrastructure_advice";
    "simulation_speed"; "auto_control_enabled" ].

Definition is_field (k : string) : bool := bool_decide (k ∈ field_names).

Definition float_of_Z (n : Z) : QArith_base.Q := QArith_base.inject_Z n.

(** [SystemState()]: every field at its default; each
    [default_factory=list] makes a list object of its own. *)
Definition SystemState_new (now : Z) (h : heap) : SystemState * heap :=
  let l_dec := length h in
  let l_act := S l_dec in
  let l_hist := S l_act in
  (list_to_map
     [ ("solar_kwh", VFloat (float_of_Z 0));
       ("load_kwh", VFloat (float_of_Z 0));
       ("battery_soc", VFloat (float_of_Z 50));
       ("grid_price", VFloat (QArith_base.Qmake 15 100));
       ("co2_intensity", VFloat (float_of_Z 400));
       ("solar_forecast_kwh", VFloat (float_of_Z 0));
       ("load_forecast_kwh", VFloat (float_of_Z 0));
       ("timestamp", VDatetime now);
       ("system_status", VStr "running");
       ("hvac_status", VStr "auto");
       ("lighting_status", VStr "auto");
       ("machine_status", VStr "auto");
       ("total_cost_eur", VFloat (float_of_Z 0));
       ("total_co2_kg", VFloat (float_of_Z 0));
       ("energy_savings_eur", VFloat (float_of_Z 0));
       ("current_decision", VNone);
       ("decision_history", VList l_dec);
       ("active_alerts", VList l_act);
       ("alert_history", VList l_hist);
       ("infrastructure_advice", VDict []);
       ("simulation_speed", VFloat (float_of_Z 1));
       ("auto_control_enabled", VBool true) ],
   h ++ [[]; []; []]).

(** [state.model_copy()] with the default [deep=False]: a new instance
    with the same field bindings.  Field values are not copied, so a
    list field of the copy is the list object of the original. *)
Definition model_copy (st : SystemState) : SystemState := st.

(** ** [StateManager] *)

(** How the call of an observer ends. *)
Inductive outcome : Type :=
| Returned
| Raised (e : exn).

(** An observer: called with a snapshot, it may change the list objects
    it can reach. *)
Definition callback : Type := SystemState -> heap -> outcome * heap.

(** What a run leaves to be seen from outside: the calls of the
    observers (by position in the subscriber list) and the lines
    printed. *)
Inductive event : Type :=
| Notified (i : nat) (snap : SystemState)
| Printed (line : string).

Module StateManager.

Record t : Type := mk
  { _state : SystemState;
    _subscribers : list callback }.

Record world : Type := World
  { self : t;
    mem : heap;
    out : list event }.

Abbreviation Op := (M world).

(** [StateManager()] in a process whose heap is [h]. *)
Definition new (now : Z) (h : heap) : world :=
  let '(st, h') := SystemState_new now h in
  {| self := {| _state := st; _subscribers := [] |};
     mem := h';
     out := [] |}.

Definition set_state (st : SystemState) (w : world) : world :=
  {| self := {| _state := st; _subscribers := _subscribers (self w) |};
     mem := mem w;
     out := out w |}.

Definition set_mem (h : heap) (w : world) : world :=
  {| self := self w; mem := h; out := out w |}.

Definition emit (e : event) (w : world) : world :=
  {| self := self w; mem := mem w; out := out w ++ [e] |}.

Section Operations.

(** The names that [hasattr] finds on an instance besides its
    fields: what the class itself carries (the nested [Config], the
    methods of pydantic's [BaseModel] such as [model_copy]).  The
    list belongs to the library, so it is left open here. *)
Variable class_attr : string -> bool.

(** [hasattr(self._state, key)] *)
Definition hasattr (st : SystemState) (key : string) : bool :=
  bool_decide (is_Some (st !! key)) || class_attr key.

(** [object.__setattr__(self._state, key, value)]: the value goes
    into the instance dictionary under the name; assigning a
    dictionary to [__dict__] replaces the instance dictionary, that
    is, every field of the instance, and assigning anything else to
    [__dict__] is a [TypeError]. *)
Definition object_setattr (key : string) (value : pyval) : Op unit :=
  fun w =>
    if String.eqb key "__dict__"
    then match value with
         | VDict kvs =>
             (Ok tt,
              set_state (list_to_map ((fun kv => (kv.1, VStr kv.2)) <$> kvs)) w)
         | _ => (Raise (Fault "__dict__ must be set to a dictionary"), w)
         end
    else (Ok tt, set_state (<[key := value]> (_state (self w))) w).

(** [setattr(self._state, key, value)], that is [__setattr__] of
    pydantic's [BaseModel] for a model without
    [validate_assignment]: a declared field is stored as it is,
    without validation; a name that starts with an underscore is
    not a field name for pydantic and goes to
    [object.__setattr__]; every other name is refused. *)
Definition setattr (key : string) (value : pyval) : Op unit :=
  fun w =>
    if is_field key
    then (Ok tt, set_state (<[key := value]> (_state (self w))) w)
    else if String.prefix "_" key
    then object_setattr key value w
    else (Raise (ValueError ("SystemState object has no field " +:+ key)), w).

(** [self._state.<key>] *)
Definition getattr (key : string) : Op pyval :=
  fun w =>
    match _state (self w) !! key with
    | Some v => (Ok v, w)
    | None => (Raise (AttributeError key), w)
    end.

(** [v.append(x)]: only a list has it. *)
Definition append (v : pyval) (x : pyval) : Op unit :=
  fun w =>
    match v with
    | VList l =>
        match mem w !! l with
        | Some xs => (Ok tt, set_mem (<[l := xs ++ [x]]> (mem w)) w)
        | None => (Raise (AttributeError "append"), w)
        end
    | _ => (Raise (AttributeError "append"), w)
    end.

(** The elements of the list [v], read now. *)
Definition elements_of (v : pyval) : Op (list pyval) :=
  fun w =>
    match v with
    | VList l =>
        match mem w !! l with
        | Some xs => (Ok xs, w)
        | None => (Raise (AttributeError "list"), w)
        end
    | _ => (Raise (AttributeError "list"), w)
    end.

(** A list display or a slice makes a new list object. *)
Definition new_list (xs : list pyval) : Op pyval :=
  fun w =>
    let '(l, h) := alloc xs (mem w) in (Ok (VList l), set_mem h w).

(** [print(line)] *)
Definition print (line : string) : Op unit :=
  fun w => (Ok tt, emit (Printed line) w).

(** [get_state] *)
Definition get_state : Op SystemState :=
  fun w => (Ok (model_copy (_state (self w))), w).

(** The loop of [_notify_subscribers], from position [i] on. *)
Fixpoint notify_from (i : nat) (cbs : list callback) : Op unit :=
  match cbs with
  | [] => ret tt
  | cb :: rest =>
      fun w =>
        let snap := model_copy (_state (self w)) in
        let '(o, h) := cb snap (mem w) in
        let w1 := emit (Notified i snap) (set_mem h w) in
        match o with
        | Returned => notify_from (S i) rest w1
        | Raised e =>
            if is_Exception e
            then bind (print ("Error notifying subscriber: " +:+ exn_str e))
                      (fun _ => notify_from (S i) rest) w1
            else (Raise e, w1)
        end
  end.

(** [_notify_subscribers] *)
Definition _notify_subscribers : Op unit :=
  fun w => notify_from 0 (_subscribers (self w)) w.

(** [update_state] at clock reading [now]; the keyword arguments
    [kwargs] in the order of the call. *)
Definition update_state (now : Z) (kwargs : list (string * pyval)) : Op unit :=
  (for_each kwargs (fun kv =>
     fun w =>
       if hasattr (_state (self w)) kv.1
       then setattr kv.1 kv.2 w
       else (Ok tt, w)) ;;
   setattr "timestamp" (VDatetime now) ;;
   _notify_subscribers)%py.

(** [add_decision(decision)] *)
Definition add_decision (decision : Decision.t) : Op unit :=
  (setattr "current_decision" (VDecision decision) ;;
   let! history := getattr "decision_history" in
   append history (VDecision decision) ;;
   let! history := getattr "decision_history" in
   let! xs := elements_of history in
   if bool_decide (100 < length xs)
   then (let! kept := new_list (last_n 100 xs) in
         setattr "decision_history" kept)
   else ret tt)%py.

(** [add_alert(alert)] *)
Definition add_alert (alert : Alert.t) : Op unit :=
  (let! active := getattr "active_alerts" in
   append active (VAlert alert) ;;
   let! history := getattr "alert_history" in
   append history (VAlert alert) ;;
   let! history := getattr "alert_history" in
   let! xs := elements_of history in
   if bool_decide (50 < length xs)
   then (let! kept := new_list (last_n 50 xs) in
         setattr "alert_history" kept)
   else ret tt)%py.

(** [clear_resolved_alerts]: [pass] *)
Definition clear_resolved_alerts : Op unit := ret tt.

(** [subscribe(callback)] *)
Definition subscribe (cb : callback) : Op unit :=
  fun w =>
    (Ok tt,
     {| self := {| _state := _state (self w);
                   _subscribers := _subscribers (self w) ++ [cb] |};
        mem := mem w;
        out := out w |}).

(** What can happen to a store: calls of its methods. *)
Inductive call : Type :=
| GetState
| UpdateState (now : Z) (kwargs : list (string * pyval))
| AddDecision (decision : Decision.t)
| AddAlert (alert : Alert.t)
| ClearResolvedAlerts
| Subscribe (cb : callback).

Definition perform (c : call) (w : world) : world :=
  match c with
  | GetState => (get_state w).2
  | UpdateState now kwargs => (update_state now kwargs w).2
  | AddDecision decision => (add_decision decision w).2
  | AddAlert alert => (add_alert alert w).2
  | ClearResolvedAlerts => (clear_resolved_alerts w).2
  | Subscribe cb => (subscribe cb w).2
  end.

(** The store created at time [now] after a history of calls,
    oldest first. *)
Definition after (now : Z) (cs : list call) : world :=
  foldl (fun w c => perform c w) (new now []) cs.

End Operations.

End StateManager.

(** ** The data of [core/scheduler.py] *)

(** A Python [dict] with string keys: it keeps the order in which keys
    were first bound, and iteration follows that order. *)
Section Dict.

Context {V : Type}.

(** [d.get(k)] *)
Fixpoint dict_get (k : string) (d : list (string * V)) : option V :=
  match d with
  | [] => None
  | (k', v) :: rest => if String.eqb k k' then Some v else dict_get k rest
  end.

(** [d[k] = v]: a bound key keeps its place, a new one goes last. *)
Fixpoint dict_set (k : string) (v : V) (d : list (string * V)) : list (string * V) :=
  match d with
  | [] => [(k, v)]
  | (k', v') :: rest =>
      if String.eqb k k' then (k', v) :: rest else (k', v') :: dict_set k v rest
  end.

(** [del d[k]] for a bound key. *)
Fixpoint dict_del (k : string) (d : list (string * V)) : list (string * V) :=
  match d with
  | [] => []
  | (k', v') :: rest =>
      if String.eqb k k' then rest else (k', v') :: dict_del k rest
  end.

(** [list(d.keys())] *)
Definition dict_keys (d : list (string * V)) : list string := d.*1.

End Dict.

(** The state of an [asyncio.Task]. *)
Inductive task_state : Type :=
| Pending
| Finished
| Cancelled
| Failed (e : exn).

(** What the coroutine of a worker does when [CancelledError] is thrown
    into it at its suspension point. *)
Inductive cancel_reaction : Type :=
| Propagates            (* not caught: the task ends cancelled *)
| Swallows              (* caught, the coroutine returns *)
| Crashes (msg : string) (* another exception escapes *)
| Ignores.              (* caught, the coroutine goes on *)

(** A registered object, as far as the scheduler can tell one from
    another: which instance it is, whether it has a [start] attribute,
    and how its [start] coroutine takes cancellation. *)
Record Agent : Type := mkAgent
  { ident : nat;
    has_start : bool;
    on_cancel : cancel_reaction }.

(** A task of the event loop: the name it was started under, the agent
    whose [start()] it runs, its state. *)
Record Task : Type := mkTask
  { spawned_for : string;
    coro : Agent;
    state : task_state }.

Module Status.
(** An entry of the mapping that [get_agent_status] builds. *)
Record t : Type := mk
  { running : bool;
    cancelled : bool;
    exception : option string }.
End Status.

(** What the scheduler leaves to be seen: the records passed to the
    logger, the lines printed, the pauses taken. *)
Inductive trace : Type :=
| Logged (event_type : string) (data : list (string * string)) (agent : string)
| Print (line : string)
| Slept (seconds : nat).

Module AgentScheduler.

Record t : Type := mk
  { agents : list (string * Agent);
    tasks : list (string * nat);
    running : bool;
    _shutdown_event : bool }.

(** The scheduler, the tasks of the event loop (a task is named by
    its position), the trace, and how many of the tasks have begun.
    [create_task] only makes a task ready to run: it runs its first
    step when the coroutine that created it is next suspended, after
    the tasks created before it.  So the tasks that have begun are
    the first [begun] ones. *)
Record world : Type := World
  { self : t;
    loop : list Task;
    log : list trace;
    begun : nat }.

Abbreviation Op := (M world).

(** [AgentScheduler()] *)
Definition new : world :=
  {| self := {| agents := []; tasks := []; running := false;
                _shutdown_event := false |};
     loop := [];
     log := [];
     begun := 0 |}.

Definition set_agents (a : list (string * Agent)) : Op unit :=
  fun w =>
    (Ok tt,
     {| self := {| agents := a; tasks := tasks (self w);
                   running := running (self w);
                   _shutdown_event := _shutdown_event (self w) |};
        loop := loop w; log := log w; begun := begun w |}).

Definition set_tasks (ts : list (string * nat)) : Op unit :=
  fun w =>
    (Ok tt,
     {| self := {| agents := agents (self w); tasks := ts;
                   running := running (self w);
                   _shutdown_event := _shutdown_event (self w) |};
        loop := loop w; log := log w; begun := begun w |}).

Definition set_flags (r s : bool) : Op unit :=
  fun w =>
    (Ok tt,
     {| self := {| agents := agents (self w); tasks := tasks (self w);
                   running := r; _shutdown_event := s |};
        loop := loop w; log := log w; begun := begun w |}).

Definition set_loop (l : list Task) : Op unit :=
  fun w =>
    (Ok tt, {| self := self w; loop := l; log := log w; begun := begun w |}).

Definition record (e : trace) : Op unit :=
  fun w =>
    (Ok tt,
     {| self := self w; loop := loop w; log := log w ++ [e]; begun := begun w |}).

Definition get {A} (f : world -> A) : Op A := fun w => (Ok (f w), w).

(** [print(line)] *)
Definition print (line : string) : Op unit := record (Print line).

(** The running coroutine is suspended and the event loop takes its
    turn: every task created so far has run its first step when the
    coroutine goes on. *)
Definition suspend : Op unit :=
  fun w =>
    (Ok tt,
     {| self := self w; loop := loop w; log := log w;
        begun := length (loop w) |}).

(** [await asyncio.sleep(seconds)] *)
Definition sleep (seconds : nat) : Op unit :=
  (record (Slept seconds) ;; suspend)%py.

(** [await logger.log_event(event_type, data, agent)] *)
Definition log_event (event_type : string) (data : list (string * string))
    (agent : string) : Op unit :=
  record (Logged event_type data agent).

(** [await logger.log_error(error, agent, exception)] *)
Definition log_error (error agent : string) (exception : exn) : Op unit :=
  log_event "error" [("error", error); ("exception", exn_str exception)] agent.

(** [try: body except E: handler], where [catches] tells the
    exceptions that [E] covers. *)
Definition try_except {A} (body : Op A) (catches : exn -> bool)
    (handler : exn -> Op A) : Op A :=
  fun w =>
    match body w with
    | (Raise e, w') => if catches e then handler e w' else (Raise e, w')
    | r => r
    end.

(** [asyncio.create_task(agent.start())] for the worker [name]. *)
Definition create_task (name : string) (agent : Agent) : Op nat :=
  fun w =>
    (Ok (length (loop w)),
     {| self := self w;
        loop := loop w ++ [ {| spawned_for := name; coro := agent; state := Pending |} ];
        log := log w;
        begun := begun w |}).

Definition task_state_of (task : nat) : Op task_state :=
  fun w =>
    match loop w !! task with
    | Some t => (Ok (state t), w)
    | None => (Raise (AttributeError "task"), w)
    end.

(** [task.done()] *)
Definition task_done (task : nat) : Op bool :=
  (let! s := task_state_of task in
   ret (match s with Pending => false | _ => true end))%py.

(** [task.cancelled()] *)
Definition task_cancelled (task : nat) : Op bool :=
  (let! s := task_state_of task in
   ret (match s with Cancelled => true | _ => false end))%py.

(** [task.exception()] *)
Definition task_exception (task : nat) : Op (option exn) :=
  (let! s := task_state_of task in
   match s with
   | Pending => raise InvalidStateError
   | Cancelled => raise CancelledError
   | Finished => ret None
   | Failed e => ret (Some e)
   end)%py.

Definition set_task_state (task : nat) (s : task_state) : Op unit :=
  fun w =>
    match loop w !! task with
    | Some t =>
        set_loop (<[task := {| spawned_for := spawned_for t; coro := coro t;
                              state := s |}]> (loop w)) w
    | None => (Raise (AttributeError "task"), w)
    end.

(** [task.cancel()] on a pending task, followed by [await task].  A
    task that has begun is suspended in its coroutine, which meets
    the cancellation there.  A task that has not begun is cancelled
    at its first step, before any of its coroutine runs: it ends
    cancelled whatever the coroutine would do.  The caller is
    suspended by the [await] and gets what the task ends with. *)
Definition cancel_and_await (task : nat) : Op unit :=
  fun w =>
    match loop w !! task with
    | Some t =>
        let reaction :=
          if (task <? begun w)%nat then on_cancel (coro t) else Propagates in
        (suspend ;;
         match reaction with
         | Propagates => set_task_state task Cancelled ;; raise CancelledError
         | Swallows => set_task_state task Finished
         | Crashes msg =>
             set_task_state task (Failed (Fault msg)) ;; raise (Fault msg)
         | Ignores => fun w' => (Blocked, w')
         end)%py w
    | None => (Raise (AttributeError "task"), w)
    end.

(** [register_agent(name, agent_instance)] *)
Definition register_agent (name : string) (agent_instance : Agent) : Op unit :=
  (let! a := get (fun w => agents (self w)) in
   set_agents (dict_set name agent_instance a) ;;
   print ("Registered agent: " +:+ name))%py.

(** [start_agent(name)] *)
Definition start_agent (name : string) : Op unit :=
  (let! a := get (fun w => agents (self w)) in
   match dict_get name a with
   | None => raise (ValueError ("Agent " +:+ name +:+ " not registered"))
   | Some agent =>
       if has_start agent
       then
         (let! task := create_task name agent in
          let! ts := get (fun w => tasks (self w)) in
          set_tasks (dict_set name task ts) ;;
          log_event "agent_started" [("agent", name)] "scheduler" ;;
          print ("Started agent: " +:+ name))
       else print ("Agent " +:+ name +:+ " has no start method")
   end)%py.

(** [stop_agent(name)] *)
Definition stop_agent (name : string) : Op unit :=
  (let! ts := get (fun w => tasks (self w)) in
   match dict_get name ts with
   | Some task =>
       let! done := task_done task in
       (if negb done
        then try_except (cancel_and_await task)
               (fun e => match e with CancelledError => true | _ => false end)
               (fun _ => ret tt)
        else ret tt) ;;
       let! ts := get (fun w => tasks (self w)) in
       set_tasks (dict_del name ts) ;;
       log_event "agent_stopped" [("agent", name)] "scheduler" ;;
       print ("Stopped agent: " +:+ name)
   | None => ret tt
   end)%py.

(** The coroutines [calls] run to their end one after the other;
    what one raises is collected and not raised. *)
Fixpoint run_all (calls : list (Op unit)) : Op unit :=
  match calls with
  | [] => ret tt
  | c :: rest =>
      fun w =>
        match c w with
        | (Blocked, w') => (Blocked, snd (run_all rest w'))
        | (_, w') => run_all rest w'
        end
  end.

(** [await asyncio.gather] of [calls] with [return_exceptions=True]:
    every call is run, what one raises is collected and not raised; the
    gather completes when all of them have.  With no call there is
    nothing to wait for; otherwise the caller is suspended until the
    last call has ended. *)
Definition gather (calls : list (Op unit)) : Op unit :=
  match calls with
  | [] => ret tt
  | _ :: _ =>
      fun w =>
        let r := run_all calls (snd (suspend w)) in
        (fst r, snd (suspend (snd r)))
  end.

(** [start_all_agents] *)
Definition start_all_agents : Op unit :=
  (let! s := get (fun w => _shutdown_event (self w)) in
   set_flags true s ;;
   let! a := get (fun w => agents (self w)) in
   log_event "scheduler_started" [("agents", String.concat ", " (dict_keys a))]
     "scheduler" ;;
   gather (map start_agent (dict_keys a)) ;;
   print "All agents started")%py.

(** [stop_all_agents] *)
Definition stop_all_agents : Op unit :=
  (set_flags false true ;;
   let! ts := get (fun w => tasks (self w)) in
   gather (map stop_agent (dict_keys ts)) ;;
   log_event "scheduler_stopped" [] "scheduler" ;;
   print "All agents stopped")%py.

(** The [for] loop of [get_agent_status] over [self.tasks.items()],
    filling [status]. *)
Fixpoint status_items (its : list (string * nat))
    (status : list (string * Status.t)) : Op (list (string * Status.t)) :=
  match its with
  | [] => ret status
  | (name, task) :: rest =>
      (let! done := task_done task in
       let! cancelled := task_cancelled task in
       let! exception := task_exception task in
       status_items rest
         (dict_set name
            {| Status.running := negb done;
               Status.cancelled := cancelled;
               Status.exception := exn_str <$> exception |}
            status))%py
  end.

(** [get_agent_status] *)
Definition get_agent_status : Op (list (string * Status.t)) :=
  (let! ts := get (fun w => tasks (self w)) in
   status_items ts [])%py.

(** [restart_agent(name)] *)
Definition restart_agent (name : string) : Op unit :=
  (stop_agent name ;;
   sleep 1 ;;
   start_agent name ;;
   log_event "agent_restarted" [("agent", name)] "scheduler")%py.

(** The body of the [for] loop of [monitor_agents], for one item
    [(name, task)]. *)
Definition monitor_check (name : string) (task : nat) : Op unit :=
  (let! done := task_done task in
   let! cancelled := task_cancelled task in
   if done && negb cancelled
   then
     let! exception := task_exception task in
     match exception with
     | Some e =>
         log_error ("Agent " +:+ name +:+ " failed: " +:+ exn_str e)
           "scheduler" e ;;
         print ("Agent " +:+ name +:+ " failed, restarting...") ;;
         restart_agent name
     | None => ret tt
     end
   else ret tt)%py.

(** The [for] loop of [monitor_agents] over [list(self.tasks.items())]. *)
Definition monitor_scan : Op unit :=
  (let! ts := get (fun w => tasks (self w)) in
   for_each ts (fun item => monitor_check item.1 item.2))%py.

(** One turn of the [while] loop of [monitor_agents]. *)
Definition monitor_wake : Op unit :=
  try_except (monitor_scan ;; sleep 30)%py is_Exception
    (fun e =>
       log_error ("Error in agent monitoring: " +:+ exn_str e) "scheduler" e ;;
       sleep 60)%py.

(** [monitor_agents], followed for at most [wakes] turns of its loop;
    [Blocked] when the loop has not ended by then. *)
Fixpoint monitor_agents (wakes : nat) : Op unit :=
  fun w =>
    if running (self w) && negb (_shutdown_event (self w))
    then
      match wakes with
      | 0 => (Blocked, w)
      | S n => (monitor_wake ;; monitor_agents n)%py w
      end
    else (Ok tt, w).

(** [shutdown] *)
Definition shutdown : Op unit :=
  (print "Shutting down scheduler..." ;;
   stop_all_agents ;;
   log_event "system_shutdown" [] "scheduler" ;;
   print "Shutdown complete")%py.

(** The coroutine of a pending task ends by itself in state [s],
    which it can only do while the caller is suspended.  With [s]
    pending nothing ends: the caller was suspended and goes on. *)
Definition task_ends (task : nat) (s : task_state) : Op unit :=
  (suspend ;;
   let! s0 := task_state_of task in
   match s0, s with
   | Pending, Pending => ret tt
   | Pending, _ => set_task_state task s
   | _, _ => ret tt
   end)%py.

(** What can happen to a scheduler: calls of its methods, and tasks
    that end. *)
Inductive call : Type :=
| Register (name : string) (agent : Agent)
| Start (name : string)
| Stop (name : string)
| Restart (name : string)
| StartAll
| StopAll
| GetStatus
| MonitorWake
| Shutdown
| TaskEnds (task : nat) (s : task_state).

Definition perform (c : call) (w : world) : world :=
  match c with
  | Register name agent => snd (register_agent name agent w)
  | Start name => snd (start_agent name w)
  | Stop name => snd (stop_agent name w)
  | Restart name => snd (restart_agent name w)
  | StartAll => snd (start_all_agents w)
  | StopAll => snd (stop_all_agents w)
  | GetStatus => snd (get_agent_status w)
  | MonitorWake => snd (monitor_wake w)
  | Shutdown => snd (shutdown w)
  | TaskEnds task s => snd (task_ends task s w)
  end.

(** The world after a history of calls, oldest first. *)
Definition after (cs : list call) : world := foldl (fun w c => perform c w) new cs.

(** The tasks of the event loop that were started under [name] and
    have not ended. *)
Definition live_tasks (name : string) (w : world) : list nat :=
  List.filter (fun i => match loop w !! i with
                   | Some t => String.eqb (spawned_for t) name
                               && match state t with Pending => true | _ => false end
                   | None => false
                   end) (seq 0 (length (loop w))).

End AgentScheduler.

(** ** Notions used to state the properties of the store *)

Import StateManager.

(** Of the names the class carries, the two that [core/state.py] itself
    shows: the nested [Config] and the method [model_copy]. *)
Definition shown_class_attr (key : string) : bool :=
  String.eqb key "Config" || String.eqb key "model_copy".

(** An instance has exactly the declared fields. *)
Definition wf_state (st : SystemState) : Prop :=
  forall key, is_Some (st !! key) <-> key ∈ field_names.

(** What the list field [field] of [st] holds when the heap is [h]. *)
Definition list_field (field : string) (st : SystemState) (h : heap)
    : option (list pyval) :=
  match st !! field with
  | Some (VList l) => h !! l
  | _ => None
  end.

(** A keyword that [update_state] stores as a declared field or,
    on an instance with exactly the declared fields, skips: it is not
    one of the other names that the class carries. *)
Definition assignable (class_attr : string -> bool) (key : string) : Prop :=
  class_attr key = true -> key ∈ field_names.

(** A call of the store whose keywords, if it is an update, are
    assignable. *)
Definition assignable_call (class_attr : string -> bool) (c : StateManager.call)
    : Prop :=
  match c with
  | UpdateState _ kwargs => Forall (fun kv => assignable class_attr kv.1) kwargs
  | _ => True
  end.

(** What a successful [update_state] commits: the supplied fields
    merged, then the time stamp. *)
Definition commit (now : Z) (kwargs : list (string * pyval)) (st : SystemState)
    : SystemState :=
  <["timestamp" := VDatetime now]>
    (foldl (fun s kv => if is_field kv.1 then <[kv.1 := kv.2]> s else s) st kwargs).


(** The snapshots handed to the observer at position [i], in order. *)
Fixpoint deliveries (i : nat) (tr : list event) : list SystemState :=
  match tr with
  | [] => []
  | Notified j snap :: rest =>
      if Nat.eqb i j then snap :: deliveries i rest else deliveries i rest
  | Printed _ :: rest => deliveries i rest
  end.

(** An observer that returns or raises an [Exception]. *)
Definition faults_only (cb : callback) : Prop :=
  forall snap h e, (cb snap h).1 = Raised e -> is_Exception e = true.

(** Two observers for the examples: one that raises on every call, one
    that returns. *)
Definition always_raises : callback := fun _ h => (Raised (Fault "observer failed"), h).
Definition well_behaved : callback := fun _ h => (Returned, h).

Definition sample_decision (n : Z) : Decision.t :=
  Decision.mk "reduce_load" "peak price" n (QArith_base.Qmake 9 10).

Definition sample_alert (n : Z) : Alert.t :=
  Alert.mk "warning" "battery low" n "ingestion_agent".

(** A store with two observers: the first raises on every call, the
    second returns. *)
Definition observed_store : world :=
  (subscribe well_behaved (subscribe always_raises (StateManager.new 0 [])).2).2.

(** [m] keeps [P], however it ends. *)
Definition keeps {W A} (P : W -> Prop) (m : M W A) : Prop :=
  forall w, P w -> P (m w).2.

(** What [add_decision] and [add_alert] leave alone: the time stamp and
    the record of observer calls. *)
Definition quiet (ts : option pyval) (o : list event) (w : world) : Prop :=
  _state (self w) !! "timestamp" = ts /\ out w = o.

(** ** Notions used to state the properties of the scheduler *)

(** What holds of the task table in every state the scheduler can
    reach: a name has at most one entry, an entry names a task of the
    event loop that was started under that name, and only registered
    names have an entry. *)
Definition table_ok (agents : list (string * Agent)) (tasks : list (string * nat))
    (loop : list Task) : Prop :=
  NoDup (dict_keys tasks) /\
  (forall name task, dict_get name tasks = Some task ->
     exists t, loop !! task = Some t /\ spawned_for t = name) /\
  (forall name task, dict_get name tasks = Some task ->
     is_Some (dict_get name agents)).

Definition sched_inv (w : AgentScheduler.world) : Prop :=
  table_ok (AgentScheduler.agents (AgentScheduler.self w))
    (AgentScheduler.tasks (AgentScheduler.self w))
    (AgentScheduler.loop w).

(** A worker as the agents of the repository are: it has [start], and
    its coroutine returns when cancelled. *)
Definition worker (i : nat) : Agent :=
  {| ident := i; has_start := true; on_cancel := Swallows |}.

(** ** More of the repository: logger, chat memory, rolling window,
    controller rules *)

(** [xs[start:]] for a Python list and any integer [start]: a negative
    [start] counts from the end and is clipped at the front. *)
Definition slice_from {A} (start : Z) (xs : list A) : list A :=
  if (start <? 0)%Z
  then drop (Z.to_nat (Z.of_nat (length xs) + start)) xs
  else drop (Z.to_nat start) xs.

Module DecarbonLogger.

(** The logger, as far as its callers see it: the records logged. *)
Abbreviation Op := (M (list trace)).

(** [await log_event(event_type, data, agent)] *)
Definition log_event (event_type : string) (data : list (string * string))
  (agent : string) : Op unit :=
fun l => (Ok tt, l ++ [Logged event_type data agent]).

(** [await log_llm_call(prompt, response, agent)] *)
Definition log_llm_call (prompt response agent : string) : Op unit :=
let truncated_prompt :=
  if bool_decide (500 < String.length prompt)
  then String.substring 0 500 prompt +:+ "..." else prompt in
let truncated_response :=
  if bool_decide (500 < String.length response)
  then String.substring 0 500 response +:+ "..." else response in
log_event "llm_call"
  [("prompt", truncated_prompt); ("response", truncated_response)] agent.

(** [get_recent_logs(lines)], the log file holding [file] ([None] when
  it does not exist). *)
Definition get_recent_logs (file : option (list string)) (lines : Z) : list string :=
match file with
| Some content => slice_from (- lines) content
| None => []
end.

End DecarbonLogger.

Module ChatMessage.
Record t : Type := mk
{ timestamp : Z;
  sender : string;
  message : string;
  context : option (list (string * string)) }.
End ChatMessage.

Module ChatMemory.

Record t : Type := mk
{ max_messages : Z;
  messages : list ChatMessage.t }.

(** [ChatMemory(max_messages)] *)
Definition new (max_messages : Z) : t :=
{| max_messages := max_messages; messages := [] |}.

(** [add_message(sender, message, context)] at clock reading [now]. *)
Definition add_message (now : Z) (sender message : string)
  (context : option (list (string * string))) (self : t) : t :=
let chat_message :=
  {| ChatMessage.timestamp := now; ChatMessage.sender := sender;
     ChatMessage.message := message; ChatMessage.context := context |} in
let appended := messages self ++ [chat_message] in
if (max_messages self <? Z.of_nat (length appended))%Z
then {| max_messages := max_messages self;
        messages := slice_from (- max_messages self) appended |}
else {| max_messages := max_messages self; messages := appended |}.

(** [get_recent_messages(count)] *)
Definition get_recent_messages (count : Z) (self : t) : list ChatMessage.t :=
match messages self with
| [] => []
| _ => slice_from (- count) (messages self)
end.

(** [get_context_for_llm(max_context_messages)] *)
Definition get_context_for_llm (max_context_messages : Z) (self : t) : string :=
let recent_messages :=
  match messages self with
  | [] => []
  | _ => slice_from (- max_context_messages) (messages self)
  end in
match recent_messages with
| [] => ""
| _ =>
    foldl (fun context msg =>
             let role := if String.eqb (ChatMessage.sender msg) "user"
                         then "User" else "Assistant" in
             context +:+ role +:+ ": " +:+ ChatMessage.message msg
               +:+ String (Ascii.ascii_of_nat 10) "")
      ("Recent conversation:" +:+ String (Ascii.ascii_of_nat 10) "")
      recent_messages
end.

(** [clear_memory] *)
Definition clear_memory (self : t) : t :=
{| max_messages := max_messages self; messages := [] |}.

(** The memory after one [add_message] for each of [msgs], oldest
  first, each message with its time stamp. *)
Definition add_messages (msgs : list ChatMessage.t) (self : t) : t :=
foldl (fun m c =>
         add_message (ChatMessage.timestamp c) (ChatMessage.sender c)
           (ChatMessage.message c) (ChatMessage.context c) m)
  self msgs.

End ChatMemory.

Module RollingWindow.

Section Values.

(** The values are only stored here. *)
Context {V : Type}.

Record t : Type := mk
  { window_size : Z;
data : list V }.

(** [RollingWindow(window_size)] *)
Definition new (window_size : Z) : t :=
  {| window_size := window_size; data := [] |}.

(** [add_value(value)]; [pop(0)] removes the first element. *)
Definition add_value (value : V) (self : t) : t :=
  let appended := data self ++ [value] in
  if (window_size self <? Z.of_nat (length appended))%Z
  then {| window_size := window_size self; data := drop 1 appended |}
  else {| window_size := window_size self; data := appended |}.

(** [is_full] *)
Definition is_full (self : t) : bool :=
  (window_size self <=? Z.of_nat (length (data self)))%Z.

(** The window after one [add_value] for each of [values], oldest
first. *)
Definition add_values (values : list V) (self : t) : t :=
  foldl (fun s v => add_value v s) self values.

End Values.

Arguments t : clear implicits.

End RollingWindow.

Module ControllerAgent.

(** The store and the logger, both used by the agent. *)
Definition world : Type := StateManager.world * list trace.

Definition on_store {A} (m : M StateManager.world A) : M world A :=
fun w =>
  let '(r, s) := m w.1 in (r, (s, w.2)).

Definition on_logger {A} (m : M (list trace) A) : M world A :=
fun w =>
  let '(r, l) := m w.2 in (r, (w.1, l)).

(** [_control_logic], the clock showing [hour] and [weekday] when the
  rules are evaluated and [now] when the state is updated. *)
Definition _control_logic (class_attr : string -> bool)
  (hour weekday : Z) (now : Z) : M world unit :=
(let! state := on_store get_state in
 let business_hours := (8 <=? hour)%Z && (hour <=? 18)%Z && (weekday <? 5)%Z in
 let occupancy := business_hours in
 let hvac_status := if occupancy then "on" else "eco" in
 let lighting_status := if occupancy then "on" else "off" in
 let machine_status := if business_hours then "on" else "standby" in
 on_store (update_state class_attr now
             [ ("hvac_status", VStr hvac_status);
               ("lighting_status", VStr lighting_status);
               ("machine_status", VStr machine_status) ]) ;;
 on_logger (DecarbonLogger.log_event "controller_update"
              [ ("hvac_status", hvac_status);
                ("lighting_status", lighting_status);
                ("machine_status", machine_status) ]
              "controller_agent"))%py.

End ControllerAgent.

(** ** Further notions for the store *)

(** An observer that ends the process. *)
Definition exits : callback := fun _ h => (Raised SystemExit, h).

(** A store with three observers: one that ends the process, between
    two that return. *)
Definition store_with_exit : world :=
  (subscribe well_behaved
     (subscribe exits (subscribe well_behaved (StateManager.new 0 [])).2).2).2.

(** A list of [n] decisions, numbered from 1. *)
Definition decisions_upto (n : nat) : list Decision.t :=
  sample_decision <$> (Z.of_nat <$> seq 1 n).

(** ** Further notions for the scheduler *)

(** The world after more calls, oldest first, from [w] on. *)
Definition continue (w : AgentScheduler.world) (cs : list AgentScheduler.call)
    : AgentScheduler.world :=
  foldl (fun w c => AgentScheduler.perform c w) w cs.

(** The flags that guard the loop of [monitor_agents]. *)
Definition flags (w : AgentScheduler.world) : bool * bool :=
  (AgentScheduler.running (AgentScheduler.self w),
   AgentScheduler._shutdown_event (AgentScheduler.self w)).

(** What the pending task [task], running [t], does in [w] when it is
    cancelled: a task that has begun reacts as its coroutine does; a
    task that has not begun ends cancelled without running. *)
Definition reaction (w : AgentScheduler.world) (task : nat) (t : Task)
    : cancel_reaction :=
  if (task <? AgentScheduler.begun w)%nat then on_cancel (coro t) else Propagates.

(** A coroutine that ends when cancelled. *)
Definition ends_on_cancel (a : Agent) : Prop :=
  on_cancel a = Swallows \/ on_cancel a = Propagates.

(** ** Properties of the store *)

Section Monad.

Context {W : Type}.

Lemma for_each_app {A} (xs ys : list A) (body : A -> M W unit) (w : W) :
  for_each (xs ++ ys) body w = bind (for_each xs body) (fun _ => for_each ys body) w.
Proof.
  revert w; induction xs as [|x xs IH]; intros w; simpl.
  - reflexivity.
  - unfold bind in *. destruct (body x w) as [[[]|e|] w1]; try reflexivity.
    apply IH.
Qed.

(** A loop whose body keeps [P] keeps [P], however it ends. *)
Lemma for_each_keeps {A} (P : W -> Prop) (xs : list A) (body : A -> M W unit) :
  (forall x w, P w -> P (body x w).2) ->
  forall w, P w -> P (for_each xs body w).2.
Proof.
  intros Hbody. induction xs as [|x xs IH]; intros w Hw; simpl; [exact Hw|].
  unfold bind. specialize (Hbody x w Hw).
  destruct (body x w) as [[[]|e|] w1]; simpl in *; auto.
Qed.

(** The same for a body that keeps [P] on the elements of the list. *)
Lemma for_each_keeps_on {A} (P : W -> Prop) (Q : A -> Prop) (xs : list A)
    (body : A -> M W unit) :
  (forall x w, Q x -> P w -> P (body x w).2) ->
  Forall Q xs ->
  forall w, P w -> P (for_each xs body w).2.
Proof.
  intros Hbody. induction 1 as [|x xs Hx _ IH]; intros w Hw; simpl; [exact Hw|].
  unfold bind. specialize (Hbody x w Hx Hw).
  destruct (body x w) as [[[]|e|] w1]; simpl in *; auto.
Qed.

End Monad.

Lemma last_n_short {A} (n : nat) (xs : list A) :
  length xs <= n -> last_n n xs = xs.
Proof.
  intros H. unfold last_n. replace (length xs - n) with 0 by lia. reflexivity.
Qed.

Lemma length_last_n {A} (n : nat) (xs : list A) :
  length (last_n n xs) = Nat.min n (length xs).
Proof. unfold last_n. rewrite length_drop. lia. Qed.

(** Trimming before an append does not change the last [n] of the
    whole. *)
Lemma last_n_app_l {A} (n : nat) (xs ys : list A) :
  last_n n (last_n n xs ++ ys) = last_n n (xs ++ ys).
Proof.
  destruct (decide (length xs <= n)) as [Hle|Hgt].
  - rewrite (last_n_short n xs Hle). reflexivity.
  - unfold last_n at 1 3. rewrite !length_app, length_last_n.
    replace (Nat.min n (length xs) + length ys - n) with (length ys) by lia.
    unfold last_n.
    replace (length xs + length ys - n) with (length xs - n + length ys) by lia.
    rewrite <- drop_drop. f_equal.
    rewrite drop_app_le by lia. reflexivity.
Qed.

Lemma last_n_all {A} (n : nat) (xs : list A) :
  last_n n (last_n n xs) = last_n n xs.
Proof. apply last_n_short. rewrite length_last_n. lia. Qed.

Lemma is_field_true (key : string) : is_field key = true <-> key ∈ field_names.
Proof. unfold is_field. apply bool_decide_eq_true. Qed.

Lemma is_field_false (key : string) : is_field key = false <-> key ∉ field_names.
Proof. unfold is_field. apply bool_decide_eq_false. Qed.

(** [SystemState()] has exactly the declared fields. *)
Lemma SystemState_new_wf (now : Z) (h : heap) : wf_state (SystemState_new now h).1.
Proof.
  intros key. unfold SystemState_new. cbn [fst].
  rewrite <- elem_of_dom, dom_list_to_map_L, elem_of_list_to_set.
  reflexivity.
Qed.

Lemma wf_state_insert (st : SystemState) (key : string) (v : pyval) :
  wf_state st -> key ∈ field_names -> wf_state (<[key := v]> st).
Proof.
  intros Hwf Hk k. rewrite lookup_insert_is_Some. specialize (Hwf k).
  split.
  - intros [->|[_ H]]; [exact Hk | apply Hwf, H].
  - intros H. destruct (decide (key = k)) as [->|Hne]; [left; reflexivity|].
    right. split; [exact Hne | apply Hwf, H].
Qed.

(** *** Stepping through a call *)

Lemma bind_Ok {W A B} (m : M W A) (k : A -> M W B) (w w' : W) (a : A) :
  m w = (Ok a, w') -> bind m k w = k a w'.
Proof. intros H. unfold bind. rewrite H. reflexivity. Qed.

Lemma self_set_mem h w : self (set_mem h w) = self w.
Proof. reflexivity. Qed.
Lemma mem_set_mem h w : mem (set_mem h w) = h.
Proof. reflexivity. Qed.
Lemma out_set_mem h w : out (set_mem h w) = out w.
Proof. reflexivity. Qed.
Lemma state_set_state st w : _state (self (set_state st w)) = st.
Proof. reflexivity. Qed.
Lemma subscribers_set_state st w :
  _subscribers (self (set_state st w)) = _subscribers (self w).
Proof. reflexivity. Qed.
Lemma mem_set_state st w : mem (set_state st w) = mem w.
Proof. reflexivity. Qed.
Lemma out_set_state st w : out (set_state st w) = out w.
Proof. reflexivity. Qed.
Lemma self_emit e w : self (emit e w) = self w.
Proof. reflexivity. Qed.
Lemma mem_emit e w : mem (emit e w) = mem w.
Proof. reflexivity. Qed.
Lemma out_emit e w : out (emit e w) = out w ++ [e].
Proof. reflexivity. Qed.

Create Rewrite HintDb world.
#[local] Hint Rewrite self_set_mem mem_set_mem out_set_mem state_set_state
  subscribers_set_state mem_set_state out_set_state self_emit mem_emit out_emit
  : world.

Lemma setattr_field (key : string) (v : pyval) (w : world) :
  key ∈ field_names ->
  setattr key v w = (Ok tt, set_state (<[key := v]> (_state (self w))) w).
Proof. intros H. unfold setattr. apply is_field_true in H. rewrite H. reflexivity. Qed.

Lemma getattr_bound (key : string) (v : pyval) (w : world) :
  _state (self w) !! key = Some v -> getattr key w = (Ok v, w).
Proof. intros H. unfold getattr. rewrite H. reflexivity. Qed.

Lemma append_list (l : loc) (xs : list pyval) (x : pyval) (w : world) :
  mem w !! l = Some xs ->
  append (VList l) x w = (Ok tt, set_mem (<[l := xs ++ [x]]> (mem w)) w).
Proof. intros H. unfold append. rewrite H. reflexivity. Qed.

Lemma elements_of_list (l : loc) (xs : list pyval) (w : world) :
  mem w !! l = Some xs -> elements_of (VList l) w = (Ok xs, w).
Proof. intros H. unfold elements_of. rewrite H. reflexivity. Qed.

Lemma new_list_fresh (xs : list pyval) (w : world) :
  new_list xs w = (Ok (VList (length (mem w))), set_mem (mem w ++ [xs]) w).
Proof. reflexivity. Qed.

Lemma field_current_decision : "current_decision" ∈ field_names.
Proof. apply is_field_true. reflexivity. Qed.
Lemma field_decision_history : "decision_history" ∈ field_names.
Proof. apply is_field_true. reflexivity. Qed.
Lemma field_alert_history : "alert_history" ∈ field_names.
Proof. apply is_field_true. reflexivity. Qed.
Lemma field_active_alerts : "active_alerts" ∈ field_names.
Proof. apply is_field_true. reflexivity. Qed.
Lemma field_timestamp : "timestamp" ∈ field_names.
Proof. apply is_field_true. reflexivity. Qed.

(** Runs the next call of a sequence by the equation [H] for it. *)
Ltac step H := rewrite (bind_Ok _ _ _ _ _ H); autorewrite with world.

(** *** Unknown names in [update_state] *)

(** On an instance with exactly the declared fields, [hasattr] finds
    the declared fields and what the class carries. *)
Lemma hasattr_wf (class_attr : string -> bool) (st : SystemState) (key : string) :
  wf_state st -> hasattr class_attr st key = is_field key || class_attr key.
Proof.
  intros Hwf. unfold hasattr, is_field. f_equal.
  apply bool_decide_ext. apply Hwf.
Qed.

(** One entry of the merge loop of [update_state], for an assignable
    name: the instance keeps exactly the declared fields. *)
Lemma merge_entry_keeps_wf (class_attr : string -> bool) (k : string) (v : pyval)
    (w : world) :
  assignable class_attr k ->
  wf_state (_state (self w)) ->
  wf_state (_state (self (if hasattr class_attr (_state (self w)) k
                          then setattr k v w else (Ok tt, w)).2)).
Proof.
  intros Hk Hwf. rewrite hasattr_wf by exact Hwf.
  destruct (is_field k) eqn:Hfield; cbn [orb].
  - apply is_field_true in Hfield. rewrite setattr_field by exact Hfield.
    cbn [snd]. autorewrite with world. apply wf_state_insert; assumption.
  - destruct (class_attr k) eqn:Hcls; [|exact Hwf].
    apply is_field_false in Hfield. exfalso. apply Hfield, Hk. exact Hcls.
Qed.

(** C1, as the code has it: a keyword argument whose name the state
    object does not have ([hasattr] is false: not a declared field, not
    a name the class carries) is skipped without any error.  On an
    instance with exactly the declared fields, when the other
    arguments are assignable, the call behaves exactly as the same
    call without that argument: the other arguments are merged, the
    time stamp is refreshed and the observers are notified. *)
Theorem update_state_ignores_unknown
    (class_attr : string -> bool) (now : Z)
    (before after : list (string * pyval)) (key : string) (value : pyval)
    (w : world) :
  key ∉ field_names ->
  class_attr key = false ->
  wf_state (_state (self w)) ->
  Forall (fun kv => assignable class_attr kv.1) (before ++ after) ->
  update_state class_attr now (before ++ (key, value) :: after) w
  = update_state class_attr now (before ++ after) w.
Proof.
  intros Hkey Hcls Hwf Hothers. apply Forall_app in Hothers as [Hbefore _].
  unfold update_state.
  set (body := fun kv : string * pyval => _).
  assert (Hloop : for_each (before ++ (key, value) :: after) body w
                  = for_each (before ++ after) body w).
  { rewrite !for_each_app. unfold bind.
    pose proof (for_each_keeps_on (fun w : world => wf_state (_state (self w)))
                  (fun kv : string * pyval => assignable class_attr kv.1)
                  before body) as Hkeep.
    specialize (Hkeep ltac:(
      intros [k v] w0 Hk H0; subst body; cbn beta; cbn [fst snd] in *;
      apply merge_entry_keeps_wf; assumption) Hbefore w Hwf).
    destruct (for_each before body w) as [[[]|e|] w1]; try reflexivity.
    cbn [snd] in Hkeep. cbn [for_each]. unfold bind.
    assert (Hskip : body (key, value) w1 = (Ok tt, w1)).
    { subst body. cbn beta. cbn [fst snd].
      rewrite hasattr_wf by exact Hkeep. rewrite Hcls.
      apply is_field_false in Hkey. rewrite Hkey. reflexivity. }
    rewrite Hskip. reflexivity. }
  unfold bind at 1 3. rewrite Hloop. reflexivity.
Qed.

(** The amended C1 at a fresh store: [bogus] next to a real field. *)
Lemma update_state_ignores_unknown_witness :
  ("bogus" ∉ field_names) /\
  shown_class_attr "bogus" = false /\
  wf_state (_state (self (StateManager.new 0 []))) /\
  Forall (fun kv : string * pyval => assignable shown_class_attr kv.1)
    ([("solar_kwh", VFloat (float_of_Z 3))] ++ []) /\
  update_state shown_class_attr 5
    ([("solar_kwh", VFloat (float_of_Z 3))] ++ ("bogus", VNone) :: [])
    (StateManager.new 0 [])
  = update_state shown_class_attr 5
      ([("solar_kwh", VFloat (float_of_Z 3))] ++ [])
      (StateManager.new 0 []).
Proof.
  assert (H1 : "bogus" ∉ field_names) by (apply is_field_false; reflexivity).
  assert (H2 : shown_class_attr "bogus" = false) by reflexivity.
  assert (H3 : wf_state (_state (self (StateManager.new 0 []))))
    by exact (SystemState_new_wf 0 []).
  assert (H4 : Forall (fun kv : string * pyval => assignable shown_class_attr kv.1)
                 ([("solar_kwh", VFloat (float_of_Z 3))] ++ [])).
  { apply Forall_cons_2; [|apply Forall_nil_2].
    intros _. apply is_field_true. reflexivity. }
  split; [exact H1|]. split; [exact H2|]. split; [exact H3|]. split; [exact H4|].
  exact (update_state_ignores_unknown shown_class_attr 5
           [("solar_kwh", VFloat (float_of_Z 3))] [] "bogus" VNone
           (StateManager.new 0 []) H1 H2 H3 H4).
Defined.

(** C1 as stated fails: a call of [update_state] whose only argument is
    the unknown name [bogus] returns normally, and the state is not
    left as it was (its time stamp moves from 0 to 5). *)
Lemma update_state_unknown_not_rejected :
  let w := StateManager.new 0 [] in
  let r := update_state shown_class_attr 5 [("bogus", VNone)] w in
  ("bogus" ∉ field_names) /\
  r.1 = Ok tt /\
  _state (self w) !! "timestamp" = Some (VDatetime 0) /\
  _state (self r.2) !! "timestamp" = Some (VDatetime 5) /\
  _state (self r.2) !! "bogus" = None.
Proof.
  split; [apply is_field_false; reflexivity|].
  vm_compute. repeat split; reflexivity.
Qed.

(** *** Snapshots *)

(** A snapshot shows what is appended to the live history afterwards:
    for a store whose decision history is a list object holding [xs],
    the snapshot taken before [add_decision d] shows [xs] before the
    call and, as long as the bound is not reached, [xs] and [d] after
    it. *)
Lemma snapshot_sees_later_decision (d : Decision.t) (w : world) (l : loc)
    (xs : list pyval) :
  _state (self w) !! "decision_history" = Some (VList l) ->
  mem w !! l = Some xs ->
  forall snap, (get_state w).1 = Ok snap ->
    list_field "decision_history" snap (mem w) = Some xs /\
    list_field "decision_history" snap (mem (add_decision d w).2)
    = Some (xs ++ [VDecision d]).
Proof.
  intros Hf Hm snap Hsnap. unfold get_state, model_copy in Hsnap.
  cbn [fst] in Hsnap. injection Hsnap as <-.
  unfold list_field. rewrite Hf. split; [exact Hm|].
  assert (Hlt : l < length (mem w)) by (eapply lookup_lt_Some; exact Hm).
  unfold add_decision.
  step (setattr_field "current_decision" (VDecision d) w field_current_decision).
  set (w1 := set_state _ w).
  assert (Hf1 : _state (self w1) !! "decision_history" = Some (VList l)).
  { subst w1. autorewrite with world. rewrite lookup_insert_ne by discriminate. exact Hf. }
  step (getattr_bound _ _ w1 Hf1).
  step (append_list l xs (VDecision d) w1 Hm).
  set (w2 := set_mem _ w1).
  assert (Hm2 : mem w2 !! l = Some (xs ++ [VDecision d])).
  { subst w2. autorewrite with world. apply list_lookup_insert_eq. exact Hlt. }
  step (getattr_bound _ _ w2 Hf1).
  step (elements_of_list l _ w2 Hm2).
  case_bool_decide as Hlen.
  - step (new_list_fresh (last_n 100 (xs ++ [VDecision d])) w2).
    rewrite setattr_field by exact field_decision_history.
    cbn [snd]. autorewrite with world.
    rewrite lookup_app_l by (eapply lookup_lt_Some; exact Hm2). exact Hm2.
  - exact Hm2.
Qed.

(** C2 fails on the code.  A snapshot taken from a fresh store shows an
    empty decision history and empty alert lists; after [add_decision]
    and [add_alert] on the store, the same snapshot shows the new
    entries: its list fields are the list objects of the live state. *)
Theorem snapshot_shares_history_lists (d : Decision.t) (a : Alert.t) :
  let w0 := StateManager.new 0 [] in
  let snap := (get_state w0).1 in
  let w1 := (add_decision d w0).2 in
  let w2 := (add_alert a w1).2 in
  snap = Ok (_state (self w0)) /\
  (list_field "decision_history" (_state (self w0)) (mem w0) = Some [] /\
   list_field "active_alerts" (_state (self w0)) (mem w0) = Some [] /\
   list_field "alert_history" (_state (self w0)) (mem w0) = Some []) /\
  (list_field "decision_history" (_state (self w0)) (mem w2) = Some [VDecision d] /\
   list_field "active_alerts" (_state (self w0)) (mem w2) = Some [VAlert a] /\
   list_field "alert_history" (_state (self w0)) (mem w2) = Some [VAlert a]).
Proof.
  cbv zeta. split; [reflexivity|]. split; vm_compute; repeat split; reflexivity.
Qed.

(** *** The bounded histories *)

(** One [add_decision]: the history becomes the last 100 of the old
    entries followed by the new one. *)
Lemma add_decision_spec (d : Decision.t) (w : world) (l : loc) (xs : list pyval) :
  _state (self w) !! "decision_history" = Some (VList l) ->
  mem w !! l = Some xs ->
  exists w',
    add_decision d w = (Ok tt, w') /\
    list_field "decision_history" (_state (self w')) (mem w')
      = Some (last_n 100 (xs ++ [VDecision d])) /\
    (exists l', _state (self w') !! "decision_history" = Some (VList l')) /\
    _state (self w') !! "current_decision" = Some (VDecision d) /\
    _state (self w') !! "timestamp" = _state (self w) !! "timestamp" /\
    _subscribers (self w') = _subscribers (self w) /\
    out w' = out w.
Proof.
  intros Hf Hm.
  assert (Hlt : l < length (mem w)) by (eapply lookup_lt_Some; exact Hm).
  unfold add_decision.
  step (setattr_field "current_decision" (VDecision d) w field_current_decision).
  set (w1 := set_state _ w).
  assert (Hf1 : _state (self w1) !! "decision_history" = Some (VList l)).
  { subst w1. autorewrite with world. rewrite lookup_insert_ne by discriminate. exact Hf. }
  step (getattr_bound _ _ w1 Hf1).
  step (append_list l xs (VDecision d) w1 Hm).
  set (w2 := set_mem _ w1).
  assert (Hf2 : _state (self w2) !! "decision_history" = Some (VList l)) by exact Hf1.
  assert (Hm2 : mem w2 !! l = Some (xs ++ [VDecision d])).
  { subst w2. autorewrite with world. apply list_lookup_insert_eq. exact Hlt. }
  step (getattr_bound _ _ w2 Hf2).
  step (elements_of_list l _ w2 Hm2).
  case_bool_decide as Hlen.
  - step (new_list_fresh (last_n 100 (xs ++ [VDecision d])) w2).
    rewrite setattr_field by exact field_decision_history.
    eexists. split; [reflexivity|]. autorewrite with world.
    unfold list_field. rewrite lookup_insert_eq.
    rewrite lookup_app_r by lia. rewrite Nat.sub_diag.
    split; [reflexivity|]. split; [eexists; reflexivity|].
    subst w2 w1. autorewrite with world.
    split; [rewrite lookup_insert_ne by discriminate; apply lookup_insert_eq|].
    split; [rewrite !lookup_insert_ne by discriminate; reflexivity|].
    split; reflexivity.
  - unfold ret. eexists. split; [reflexivity|].
    unfold list_field. rewrite Hf2, Hm2, last_n_short by lia.
    split; [reflexivity|]. split; [eexists; reflexivity|].
    subst w2 w1. autorewrite with world.
    split; [apply lookup_insert_eq|].
    split; [rewrite !lookup_insert_ne by discriminate; reflexivity|].
    split; reflexivity.
Qed.

(** A run of [add_decision] calls on a history within the bound: the
    history is the last 100 of the old entries followed by the new
    ones. *)
Lemma add_decisions_spec (ds : list Decision.t) :
  forall (w : world) (l : loc) (xs : list pyval),
    _state (self w) !! "decision_history" = Some (VList l) ->
    mem w !! l = Some xs ->
    length xs <= 100 ->
    exists w',
      for_each ds add_decision w = (Ok tt, w') /\
      list_field "decision_history" (_state (self w')) (mem w')
        = Some (last_n 100 (xs ++ (VDecision <$> ds))).
Proof.
  induction ds as [|d ds IH]; intros w l xs Hf Hm Hlen.
  - exists w. split; [reflexivity|]. unfold list_field. rewrite Hf, Hm.
    rewrite app_nil_r, last_n_short by exact Hlen. reflexivity.
  - destruct (add_decision_spec d w l xs Hf Hm)
      as (w1 & Hrun & Hhist & [l1 Hf1] & _).
    unfold list_field in Hhist. rewrite Hf1 in Hhist.
    destruct (IH w1 l1 _ Hf1 Hhist) as (w' & Hrun' & Hhist').
    { rewrite length_last_n. lia. }
    exists w'. split.
    + cbn [for_each]. unfold bind. rewrite Hrun. exact Hrun'.
    + rewrite Hhist', last_n_app_l, <- app_assoc. reflexivity.
Qed.

(** C6: from an empty decision history, 101 calls of [add_decision]
    all return, and leave exactly the 100 decisions of calls 2 to 101,
    in the order of the calls; after any number of these calls the
    history holds at most 100 entries. *)
Theorem decision_history_keeps_last_100
    (w : world) (l : loc) (ds : list Decision.t) :
  _state (self w) !! "decision_history" = Some (VList l) ->
  mem w !! l = Some [] ->
  length ds = 101 ->
  let r := for_each ds add_decision w in
  r.1 = Ok tt /\
  list_field "decision_history" (_state (self r.2)) (mem r.2)
    = Some (VDecision <$> drop 1 ds) /\
  length (VDecision <$> drop 1 ds) = 100 /\
  forall n, exists xs,
    let rn := for_each (take n ds) add_decision w in
    rn.1 = Ok tt /\
    list_field "decision_history" (_state (self rn.2)) (mem rn.2) = Some xs /\
    length xs <= 100.
Proof.
  intros Hf Hm Hlen r. subst r.
  destruct (add_decisions_spec ds w l [] Hf Hm) as (w' & Hrun & Hhist);
    [simpl; lia|].
  rewrite Hrun. cbn [fst snd]. split; [reflexivity|].
  split.
  { rewrite Hhist. cbn [app]. unfold last_n.
    rewrite length_fmap, Hlen, fmap_drop. reflexivity. }
  split.
  { rewrite length_fmap, length_drop. lia. }
  intros n.
  destruct (add_decisions_spec (take n ds) w l [] Hf Hm) as (wn & Hrunn & Hhistn);
    [simpl; lia|].
  eexists. cbv zeta. rewrite Hrunn. cbn [fst snd].
  split; [reflexivity|]. split; [exact Hhistn|].
  rewrite length_last_n. lia.
Qed.

(** C6 on a fresh store, with decisions numbered 1 to 101. *)
Lemma decision_history_keeps_last_100_witness :
  let w := StateManager.new 0 [] in
  let ds := sample_decision <$> (Z.of_nat <$> seq 1 101) in
  _state (self w) !! "decision_history" = Some (VList 0) /\
  mem w !! 0 = Some [] /\
  length ds = 101 /\
  list_field "decision_history"
    (_state (self (for_each ds add_decision w).2))
    (mem (for_each ds add_decision w).2)
  = Some (VDecision <$> drop 1 ds).
Proof.
  cbv zeta.
  assert (H1 : _state (self (StateManager.new 0 [])) !! "decision_history"
               = Some (VList 0)) by (vm_compute; reflexivity).
  assert (H2 : mem (StateManager.new 0 []) !! 0 = Some []) by reflexivity.
  assert (H3 : length (sample_decision <$> (Z.of_nat <$> seq 1 101)) = 101)
    by reflexivity.
  split; [exact H1|]. split; [exact H2|]. split; [exact H3|].
  exact (proj1 (proj2 (decision_history_keeps_last_100
                         (StateManager.new 0 []) 0
                         (sample_decision <$> (Z.of_nat <$> seq 1 101))
                         H1 H2 H3))).
Defined.

(** One [add_alert], when the two alert lists are different objects:
    the active list grows by the alert, the history becomes the last 50
    of the old entries followed by the alert. *)
Lemma add_alert_spec (a : Alert.t) (w : world) (la lh : loc) (xa xh : list pyval) :
  _state (self w) !! "active_alerts" = Some (VList la) ->
  _state (self w) !! "alert_history" = Some (VList lh) ->
  la <> lh ->
  mem w !! la = Some xa ->
  mem w !! lh = Some xh ->
  exists w' lh',
    add_alert a w = (Ok tt, w') /\
    _state (self w') !! "active_alerts" = Some (VList la) /\
    mem w' !! la = Some (xa ++ [VAlert a]) /\
    _state (self w') !! "alert_history" = Some (VList lh') /\
    la <> lh' /\
    mem w' !! lh' = Some (last_n 50 (xh ++ [VAlert a])) /\
    _state (self w') !! "timestamp" = _state (self w) !! "timestamp" /\
    _subscribers (self w') = _subscribers (self w) /\
    out w' = out w.
Proof.
  intros Hfa Hfh Hne Hma Hmh.
  assert (Hlta : la < length (mem w)) by (eapply lookup_lt_Some; exact Hma).
  assert (Hlth : lh < length (mem w)) by (eapply lookup_lt_Some; exact Hmh).
  unfold add_alert.
  step (getattr_bound _ _ w Hfa).
  step (append_list la xa (VAlert a) w Hma).
  set (w1 := set_mem _ w).
  assert (Hfh1 : _state (self w1) !! "alert_history" = Some (VList lh)) by exact Hfh.
  assert (Hmh1 : mem w1 !! lh = Some xh).
  { subst w1. autorewrite with world.
    rewrite list_lookup_insert_ne by exact Hne. exact Hmh. }
  step (getattr_bound _ _ w1 Hfh1).
  step (append_list lh xh (VAlert a) w1 Hmh1).
  set (w2 := set_mem _ w1).
  assert (Hfh2 : _state (self w2) !! "alert_history" = Some (VList lh)) by exact Hfh.
  assert (Hlen1 : length (mem w1) = length (mem w)).
  { subst w1. autorewrite with world. apply length_insert. }
  assert (Hmh2 : mem w2 !! lh = Some (xh ++ [VAlert a])).
  { subst w2. autorewrite with world. apply list_lookup_insert_eq. lia. }
  assert (Hma2 : mem w2 !! la = Some (xa ++ [VAlert a])).
  { subst w2. autorewrite with world.
    rewrite list_lookup_insert_ne by (intros ->; apply Hne; reflexivity).
    subst w1. autorewrite with world. apply list_lookup_insert_eq. exact Hlta. }
  assert (Hlen2 : length (mem w2) = length (mem w)).
  { subst w2. autorewrite with world. rewrite length_insert. exact Hlen1. }
  step (getattr_bound _ _ w2 Hfh2).
  step (elements_of_list lh _ w2 Hmh2).
  case_bool_decide as Hlen.
  - step (new_list_fresh (last_n 50 (xh ++ [VAlert a])) w2).
    rewrite setattr_field by exact field_alert_history.
    do 2 eexists. split; [reflexivity|]. autorewrite with world.
    split; [rewrite lookup_insert_ne by discriminate; exact Hfa|].
    split; [rewrite lookup_app_l by lia; exact Hma2|].
    split; [apply lookup_insert_eq|].
    split; [lia|].
    split; [rewrite lookup_app_r by lia; rewrite Nat.sub_diag; reflexivity|].
    split; [rewrite lookup_insert_ne by discriminate; reflexivity|].
    split; reflexivity.
  - unfold ret. do 2 eexists. split; [reflexivity|].
    split; [exact Hfa|].
    split; [exact Hma2|].
    split; [exact Hfh|].
    split; [exact Hne|].
    split; [rewrite Hmh2, last_n_short by lia; reflexivity|].
    repeat split; reflexivity.
Qed.

(** A run of [add_alert] calls on a history within the bound. *)
Lemma add_alerts_spec (alerts : list Alert.t) :
  forall (w : world) (la lh : loc) (xa xh : list pyval),
    _state (self w) !! "active_alerts" = Some (VList la) ->
    _state (self w) !! "alert_history" = Some (VList lh) ->
    la <> lh ->
    mem w !! la = Some xa ->
    mem w !! lh = Some xh ->
    length xh <= 50 ->
    exists w',
      for_each alerts add_alert w = (Ok tt, w') /\
      list_field "active_alerts" (_state (self w')) (mem w')
        = Some (xa ++ (VAlert <$> alerts)) /\
      list_field "alert_history" (_state (self w')) (mem w')
        = Some (last_n 50 (xh ++ (VAlert <$> alerts))).
Proof.
  induction alerts as [|a alerts IH]; intros w la lh xa xh Hfa Hfh Hne Hma Hmh Hlen.
  - exists w. split; [reflexivity|]. unfold list_field. rewrite Hfa, Hfh, Hma, Hmh.
    rewrite !app_nil_r, last_n_short by exact Hlen. split; reflexivity.
  - destruct (add_alert_spec a w la lh xa xh Hfa Hfh Hne Hma Hmh)
      as (w1 & lh1 & Hrun & Hfa1 & Hma1 & Hfh1 & Hne1 & Hmh1 & _).
    destruct (IH w1 la lh1 _ _ Hfa1 Hfh1 Hne1 Hma1 Hmh1) as (w' & Hrun' & Hact & Hhist).
    { rewrite length_last_n. lia. }
    exists w'. split.
    + cbn [for_each]. unfold bind. rewrite Hrun. exact Hrun'.
    + split.
      * rewrite Hact, <- app_assoc. reflexivity.
      * rewrite Hhist, last_n_app_l, <- app_assoc. reflexivity.
Qed.

(** C7: from empty alert lists, 51 calls of [add_alert] all return and
    leave a history of exactly 50 alerts, those of calls 2 to 51 in
    order, and an active list of all 51 alerts. *)
Theorem alert_history_bounded_active_unpruned
    (w : world) (la lh : loc) (alerts : list Alert.t) :
  _state (self w) !! "active_alerts" = Some (VList la) ->
  _state (self w) !! "alert_history" = Some (VList lh) ->
  la <> lh ->
  mem w !! la = Some [] ->
  mem w !! lh = Some [] ->
  length alerts = 51 ->
  let r := for_each alerts add_alert w in
  r.1 = Ok tt /\
  list_field "alert_history" (_state (self r.2)) (mem r.2)
    = Some (VAlert <$> drop 1 alerts) /\
  length (VAlert <$> drop 1 alerts) = 50 /\
  list_field "active_alerts" (_state (self r.2)) (mem r.2)
    = Some (VAlert <$> alerts) /\
  length (VAlert <$> alerts) = 51.
Proof.
  intros Hfa Hfh Hne Hma Hmh Hlen r. subst r.
  destruct (add_alerts_spec alerts w la lh [] [] Hfa Hfh Hne Hma Hmh)
    as (w' & Hrun & Hact & Hhist); [simpl; lia|].
  rewrite Hrun. cbn [fst snd]. split; [reflexivity|].
  split.
  { rewrite Hhist. cbn [app]. unfold last_n.
    rewrite length_fmap, Hlen, fmap_drop. reflexivity. }
  split; [rewrite length_fmap, length_drop; lia|].
  split; [exact Hact|].
  rewrite length_fmap. exact Hlen.
Qed.

(** C7 on a fresh store, with alerts numbered 1 to 51. *)
Lemma alert_history_bounded_active_unpruned_witness :
  let w := StateManager.new 0 [] in
  let alerts := sample_alert <$> (Z.of_nat <$> seq 1 51) in
  _state (self w) !! "active_alerts" = Some (VList 1) /\
  _state (self w) !! "alert_history" = Some (VList 2) /\
  1 <> 2 /\
  mem w !! 1 = Some [] /\
  mem w !! 2 = Some [] /\
  length alerts = 51 /\
  list_field "alert_history"
    (_state (self (for_each alerts add_alert w).2))
    (mem (for_each alerts add_alert w).2)
  = Some (VAlert <$> drop 1 alerts) /\
  list_field "active_alerts"
    (_state (self (for_each alerts add_alert w).2))
    (mem (for_each alerts add_alert w).2)
  = Some (VAlert <$> alerts).
Proof.
  cbv zeta.
  assert (H1 : _state (self (StateManager.new 0 [])) !! "active_alerts"
               = Some (VList 1)) by (vm_compute; reflexivity).
  assert (H2 : _state (self (StateManager.new 0 [])) !! "alert_history"
               = Some (VList 2)) by (vm_compute; reflexivity).
  assert (H3 : 1 <> 2) by lia.
  assert (H4 : mem (StateManager.new 0 []) !! 1 = Some []) by reflexivity.
  assert (H5 : mem (StateManager.new 0 []) !! 2 = Some []) by reflexivity.
  assert (H6 : length (sample_alert <$> (Z.of_nat <$> seq 1 51)) = 51)
    by reflexivity.
  pose proof (alert_history_bounded_active_unpruned
                (StateManager.new 0 []) 1 2
                (sample_alert <$> (Z.of_nat <$> seq 1 51))
                H1 H2 H3 H4 H5 H6) as (_ & Hh & _ & Ha & _).
  repeat (split; [assumption|]). exact Ha.
Defined.

(** *** Notification *)

Lemma deliveries_app (i : nat) (xs ys : list event) :
  deliveries i (xs ++ ys) = deliveries i xs ++ deliveries i ys.
Proof.
  induction xs as [|[j snap|line] xs IH]; simpl; [reflexivity| |exact IH].
  destruct (Nat.eqb i j); simpl; rewrite IH; reflexivity.
Qed.

(** The notification loop over observers that return or raise an
    [Exception]: it returns, changes neither state nor subscriber list,
    and calls each observer once with a copy of the state. *)
Lemma notify_from_spec (cbs : list callback) :
  Forall faults_only cbs ->
  forall (i0 : nat) (w : world),
  exists w' evs,
    notify_from i0 cbs w = (Ok tt, w') /\
    self w' = self w /\
    out w' = out w ++ evs /\
    forall i, deliveries i evs
              = if bool_decide (i0 <= i < i0 + length cbs)
                then [model_copy (_state (self w))] else [].
Proof.
  induction 1 as [|cb cbs Hcb _ IH]; intros i0 w.
  - exists w, []. split; [reflexivity|]. split; [reflexivity|].
    split; [rewrite app_nil_r; reflexivity|].
    intros i. rewrite bool_decide_eq_false_2 by (simpl; lia). reflexivity.
  - cbn [notify_from].
    pose proof (Hcb (model_copy (_state (self w))) (mem w)) as Hfault.
    destruct (cb (model_copy (_state (self w))) (mem w)) as [o h].
    set (w1 := emit (Notified i0 (model_copy (_state (self w)))) (set_mem h w)).
    assert (Hhead : forall i tail,
      (forall j, deliveries j tail
                 = if bool_decide (S i0 <= j < S i0 + length cbs)
                   then [model_copy (_state (self w))] else []) ->
      deliveries i (Notified i0 (model_copy (_state (self w))) :: tail)
      = if bool_decide (i0 <= i < i0 + length (cb :: cbs))
        then [model_copy (_state (self w))] else []).
    { intros i tail Htail. cbn [deliveries length]. rewrite Htail.
      destruct (Nat.eqb_spec i i0) as [->|Hne].
      - rewrite bool_decide_eq_false_2 by lia.
        rewrite bool_decide_eq_true_2 by lia. reflexivity.
      - repeat case_bool_decide; try reflexivity; lia. }
    destruct o as [|e].
    + destruct (IH (S i0) w1) as (w' & evs & Hrun & Hself & Hout & Hdel).
      exists w', (Notified i0 (model_copy (_state (self w))) :: evs).
      split; [exact Hrun|]. split; [rewrite Hself; reflexivity|].
      split.
      { rewrite Hout. subst w1. autorewrite with world.
        rewrite <- app_assoc. reflexivity. }
      intros i. apply Hhead. exact Hdel.
    + rewrite (Hfault e eq_refl). unfold bind, print.
      set (w2 := emit (Printed _) w1).
      destruct (IH (S i0) w2) as (w' & evs & Hrun & Hself & Hout & Hdel).
      exists w', (Notified i0 (model_copy (_state (self w)))
                    :: Printed ("Error notifying subscriber: " +:+ exn_str e) :: evs).
      split; [exact Hrun|]. split; [rewrite Hself; reflexivity|].
      split.
      { rewrite Hout. subst w2 w1. autorewrite with world.
        rewrite <- !app_assoc. reflexivity. }
      intros i. apply Hhead. intros j. cbn [deliveries]. apply Hdel.
Qed.

(** The merge loop of [update_state] on assignable names. *)
Lemma merge_spec (class_attr : string -> bool) (kwargs : list (string * pyval)) :
  Forall (fun kv => assignable class_attr kv.1) kwargs ->
  forall w : world,
    wf_state (_state (self w)) ->
    exists w',
      for_each kwargs (fun kv w =>
        if hasattr class_attr (_state (self w)) kv.1
        then setattr kv.1 kv.2 w else (Ok tt, w)) w = (Ok tt, w') /\
      _state (self w')
        = foldl (fun s kv => if is_field kv.1 then <[kv.1 := kv.2]> s else s)
            (_state (self w)) kwargs /\
      wf_state (_state (self w')) /\
      _subscribers (self w') = _subscribers (self w) /\
      mem w' = mem w /\
      out w' = out w.
Proof.
  induction 1 as [|[k v] kwargs Hk _ IH]; intros w Hwf.
  - exists w. repeat split; try reflexivity; apply Hwf.
  - cbn [for_each foldl fst snd]. unfold bind.
    rewrite hasattr_wf by exact Hwf.
    destruct (is_field k) eqn:Hfield; cbn [orb].
    + apply is_field_true in Hfield. rewrite setattr_field by exact Hfield.
      destruct (IH (set_state (<[k := v]> (_state (self w))) w)) as (w' & Hrun & Hst & Hwf' & Hsub & Hmem & Hout).
      { autorewrite with world. apply wf_state_insert; assumption. }
      exists w'. split; [exact Hrun|]. split; [exact Hst|].
      split; [exact Hwf'|]. split; [exact Hsub|]. split; [exact Hmem | exact Hout].
    + destruct (class_attr k) eqn:Hcls.
      { apply is_field_false in Hfield. exfalso. apply Hfield, Hk. exact Hcls. }
      destruct (IH w Hwf) as (w' & Hrun & Hst & Hwf' & Hsub & Hmem & Hout).
      exists w'. split; [exact Hrun|]. split; [exact Hst|].
      split; [exact Hwf'|]. split; [exact Hsub|]. split; [exact Hmem | exact Hout].
Qed.

(** A call of [update_state] on assignable names, with observers that
    return or raise an [Exception]: it returns, commits the merge and
    the time stamp, and hands the committed state once to every
    observer. *)
Lemma update_state_spec (class_attr : string -> bool) (now : Z)
    (kwargs : list (string * pyval)) (w : world) :
  wf_state (_state (self w)) ->
  Forall (fun kv => assignable class_attr kv.1) kwargs ->
  Forall faults_only (_subscribers (self w)) ->
  exists w' evs,
    update_state class_attr now kwargs w = (Ok tt, w') /\
    _state (self w') = commit now kwargs (_state (self w)) /\
    wf_state (_state (self w')) /\
    _subscribers (self w') = _subscribers (self w) /\
    out w' = out w ++ evs /\
    forall i, deliveries i evs
              = if bool_decide (i < length (_subscribers (self w)))
                then [model_copy (_state (self w'))] else [].
Proof.
  intros Hwf Hkw Hobs. unfold update_state.
  destruct (merge_spec class_attr kwargs Hkw w Hwf)
    as (w1 & Hrun1 & Hst1 & Hwf1 & Hsub1 & Hmem1 & Hout1).
  step Hrun1.
  step (setattr_field "timestamp" (VDatetime now) w1 field_timestamp).
  set (w2 := set_state _ w1).
  unfold _notify_subscribers.
  assert (Hsub2 : _subscribers (self w2) = _subscribers (self w)).
  { subst w2. autorewrite with world. exact Hsub1. }
  rewrite Hsub2.
  destruct (notify_from_spec _ Hobs 0 w2) as (w' & evs & Hrun & Hself & Hout & Hdel).
  exists w', evs. split; [exact Hrun|]. rewrite Hself.
  split; [subst w2; autorewrite with world; rewrite Hst1; reflexivity|].
  split.
  { subst w2. autorewrite with world.
    apply wf_state_insert; [exact Hwf1 | exact field_timestamp]. }
  split; [exact Hsub2|].
  split; [rewrite Hout; subst w2; autorewrite with world; rewrite Hout1; reflexivity|].
  intros i. rewrite Hdel.
  rewrite (bool_decide_ext (0 <= i < 0 + length (_subscribers (self w)))
             (i < length (_subscribers (self w)))) by lia.
  reflexivity.
Qed.

Lemma keeps_bind {W A B} (P : W -> Prop) (m : M W A) (k : A -> M W B) :
  keeps P m -> (forall a, keeps P (k a)) -> keeps P (bind m k).
Proof.
  intros Hm Hk w Hw. unfold bind. specialize (Hm w Hw).
  destruct (m w) as [[a|e|] w1]; cbn [snd] in *; [apply Hk; exact Hm | exact Hm ..].
Qed.

Lemma keeps_ret {W A} (P : W -> Prop) (a : A) : keeps P (ret a).
Proof. intros w Hw. exact Hw. Qed.

Lemma setattr_quiet ts o (key : string) (v : pyval) :
  key ∈ field_names -> key <> "timestamp" -> keeps (quiet ts o) (setattr key v).
Proof.
  intros Hfield Hne w [Hts Hout]. rewrite setattr_field by exact Hfield.
  cbn [snd]. split; autorewrite with world; [|exact Hout].
  rewrite lookup_insert_ne by exact Hne. exact Hts.
Qed.

Lemma getattr_quiet ts o (key : string) : keeps (quiet ts o) (getattr key).
Proof.
  intros w H. unfold getattr. destruct (_state (self w) !! key); exact H.
Qed.

Lemma append_quiet ts o (v x : pyval) : keeps (quiet ts o) (append v x).
Proof.
  intros w H. unfold append.
  destruct v; try exact H. destruct (mem w !! l); exact H.
Qed.

Lemma elements_of_quiet ts o (v : pyval) : keeps (quiet ts o) (elements_of v).
Proof.
  intros w H. unfold elements_of.
  destruct v; try exact H. destruct (mem w !! l); exact H.
Qed.

Lemma new_list_quiet ts o (xs : list pyval) : keeps (quiet ts o) (new_list xs).
Proof. intros w H. exact H. Qed.

Lemma add_decision_quiet ts o (d : Decision.t) : keeps (quiet ts o) (add_decision d).
Proof.
  unfold add_decision.
  apply keeps_bind; [apply setattr_quiet; [exact field_current_decision | discriminate]|intros _].
  apply keeps_bind; [apply getattr_quiet|intros v].
  apply keeps_bind; [apply append_quiet|intros _].
  apply keeps_bind; [apply getattr_quiet|intros v'].
  apply keeps_bind; [apply elements_of_quiet|intros xs].
  case_bool_decide; [|apply keeps_ret].
  apply keeps_bind; [apply new_list_quiet|intros kept].
  apply setattr_quiet; [exact field_decision_history | discriminate].
Qed.

Lemma add_alert_quiet ts o (a : Alert.t) : keeps (quiet ts o) (add_alert a).
Proof.
  unfold add_alert.
  apply keeps_bind; [apply getattr_quiet|intros v].
  apply keeps_bind; [apply append_quiet|intros _].
  apply keeps_bind; [apply getattr_quiet|intros v'].
  apply keeps_bind; [apply append_quiet|intros _].
  apply keeps_bind; [apply getattr_quiet|intros v''].
  apply keeps_bind; [apply elements_of_quiet|intros xs].
  case_bool_decide; [|apply keeps_ret].
  apply keeps_bind; [apply new_list_quiet|intros kept].
  apply setattr_quiet; [exact field_alert_history | discriminate].
Qed.



Lemma observed_store_wf : wf_state (_state (self observed_store)).
Proof. exact (SystemState_new_wf 0 []). Qed.

Lemma observed_store_faults_only :
  Forall faults_only (_subscribers (self observed_store)).
Proof.
  repeat constructor; intros snap h e H; simpl in H; inversion H; reflexivity.
Qed.


(** C10, as the code has it: on a well-formed store whose observers
    return or raise an [Exception], every call of [update_state] on
    assignable names, also one with no argument at all, returns, sets
    the time stamp to the time of the call and calls every subscriber
    once with a copy of the new state; [add_decision] and [add_alert],
    however they end, leave the time stamp as it was and call no
    subscriber. *)
Theorem only_update_state_refreshes_and_notifies
    (class_attr : string -> bool) (w : world) :
  wf_state (_state (self w)) ->
  Forall faults_only (_subscribers (self w)) ->
  (forall now kwargs,
     Forall (fun kv => assignable class_attr kv.1) kwargs ->
     let r := update_state class_attr now kwargs w in
     r.1 = Ok tt /\
     _state (self r.2) !! "timestamp" = Some (VDatetime now) /\
     exists evs,
       out r.2 = out w ++ evs /\
       forall i, i < length (_subscribers (self w)) ->
                 deliveries i evs = [model_copy (_state (self r.2))]) /\
  (forall now,
     let r := update_state class_attr now [] w in
     r.1 = Ok tt /\
     _state (self r.2) !! "timestamp" = Some (VDatetime now) /\
     exists evs,
       out r.2 = out w ++ evs /\
       forall i, i < length (_subscribers (self w)) ->
                 deliveries i evs = [model_copy (_state (self r.2))]) /\
  (forall d,
     let r := add_decision d w in
     _state (self r.2) !! "timestamp" = _state (self w) !! "timestamp" /\
     out r.2 = out w) /\
  (forall a,
     let r := add_alert a w in
     _state (self r.2) !! "timestamp" = _state (self w) !! "timestamp" /\
     out r.2 = out w).
Proof.
  intros Hwf Hobs.
  assert (Hupd : forall now kwargs,
     Forall (fun kv => assignable class_attr kv.1) kwargs ->
     let r := update_state class_attr now kwargs w in
     r.1 = Ok tt /\
     _state (self r.2) !! "timestamp" = Some (VDatetime now) /\
     exists evs,
       out r.2 = out w ++ evs /\
       forall i, i < length (_subscribers (self w)) ->
                 deliveries i evs = [model_copy (_state (self r.2))]).
  { intros now kwargs Hkw r. subst r.
    destruct (update_state_spec class_attr now kwargs w Hwf Hkw Hobs)
      as (w' & evs & Hrun & Hst & _ & _ & Hout & Hdel).
    rewrite Hrun. cbn [fst snd]. split; [reflexivity|].
    split; [rewrite Hst; apply lookup_insert_eq|].
    exists evs. split; [exact Hout|]. intros i Hi.
    rewrite Hdel, bool_decide_eq_true_2 by exact Hi. reflexivity. }
  split; [exact Hupd|].
  split; [intros now; apply Hupd; constructor|].
  split.
  - intros d. apply (add_decision_quiet _ _ d w). split; reflexivity.
  - intros a. apply (add_alert_quiet _ _ a w). split; reflexivity.
Qed.

(** C10 on the store with a raising and a returning observer. *)
Lemma only_update_state_refreshes_and_notifies_witness :
  wf_state (_state (self observed_store)) /\
  Forall faults_only (_subscribers (self observed_store)) /\
  (update_state shown_class_attr 7 [] observed_store).1 = Ok tt /\
  _state (self (update_state shown_class_attr 7 [] observed_store).2) !! "timestamp"
  = Some (VDatetime 7) /\
  out (add_decision (sample_decision 1) observed_store).2 = out observed_store.
Proof.
  pose proof (only_update_state_refreshes_and_notifies shown_class_attr
                observed_store observed_store_wf observed_store_faults_only)
    as (_ & Hzero & Hdec & _).
  split; [exact observed_store_wf|].
  split; [exact observed_store_faults_only|].
  split; [exact (proj1 (Hzero 7%Z))|].
  split; [exact (proj1 (proj2 (Hzero 7%Z)))|].
  exact (proj2 (Hdec (sample_decision 1))).
Defined.

(** C10 as stated fails.  A call of [update_state] does not always
    refresh the time stamp: with the keyword [model_copy], a name the
    class carries, the assignment raises [ValueError] and the call ends
    there, with the time stamp as it was and no observer called.  Nor
    does a call always reach every subscriber: an observer that raises
    [SystemExit] ends the call after the time stamp was set, and the
    observer subscribed after it is not called. *)
Lemma update_state_may_skip_refresh_or_observers :
  let r := update_state shown_class_attr 5 [("model_copy", VNone)] observed_store in
  let r' := update_state shown_class_attr 5 [] store_with_exit in
  (exists msg, r.1 = Raise (ValueError msg)) /\
  _state (self observed_store) !! "timestamp" = Some (VDatetime 0) /\
  _state (self r.2) !! "timestamp" = Some (VDatetime 0) /\
  out r.2 = [] /\
  length (_subscribers (self store_with_exit)) = 3 /\
  r'.1 = Raise SystemExit /\
  _state (self r'.2) !! "timestamp" = Some (VDatetime 5) /\
  deliveries 1 (out r'.2) = [model_copy (_state (self r'.2))] /\
  deliveries 2 (out r'.2) = [].
Proof.
  cbv zeta.
  split; [eexists; vm_compute; reflexivity|].
  split; [vm_compute; reflexivity|].
  split; [vm_compute; reflexivity|].
  split; [reflexivity|].
  split; [reflexivity|].
  split; [reflexivity|].
  split; [vm_compute; reflexivity|].
  split; [reflexivity | reflexivity].
Qed.

(** *** The states a store can reach *)

Lemma setattr_keeps_wf (key : string) (v : pyval) :
  key ∈ field_names ->
  keeps (fun w => wf_state (_state (self w))) (setattr key v).
Proof.
  intros Hfield w Hwf. rewrite setattr_field by exact Hfield.
  cbn [snd]. autorewrite with world.
  apply wf_state_insert; assumption.
Qed.

Lemma notify_from_keeps_state (cbs : list callback) :
  forall (i : nat) (w : world), self (notify_from i cbs w).2 = self w.
Proof.
  induction cbs as [|cb cbs IH]; intros i w; [reflexivity|].
  cbn [notify_from]. destruct (cb _ (mem w)) as [[|e] h].
  - rewrite IH. reflexivity.
  - destruct (is_Exception e); [|reflexivity].
    unfold bind, print. rewrite IH. reflexivity.
Qed.

Lemma update_state_keeps_wf (class_attr : string -> bool) (now : Z)
    (kwargs : list (string * pyval)) :
  Forall (fun kv => assignable class_attr kv.1) kwargs ->
  keeps (fun w => wf_state (_state (self w))) (update_state class_attr now kwargs).
Proof.
  intros Hkw. unfold update_state.
  apply keeps_bind; [|intros _].
  { unfold keeps.
    apply (for_each_keeps_on (fun w : world => wf_state (_state (self w)))
             (fun kv : string * pyval => assignable class_attr kv.1));
      [|exact Hkw].
    intros [k v] w Hk Hwf. cbn [fst snd] in *.
    apply merge_entry_keeps_wf; assumption. }
  apply keeps_bind; [apply setattr_keeps_wf; exact field_timestamp | intros _].
  intros w Hwf. unfold _notify_subscribers. rewrite notify_from_keeps_state. exact Hwf.
Qed.

Lemma getattr_keeps_wf (key : string) :
  keeps (fun w => wf_state (_state (self w))) (getattr key).
Proof. intros w H. unfold getattr. destruct (_state (self w) !! key); exact H. Qed.

Lemma append_keeps_wf (v x : pyval) :
  keeps (fun w => wf_state (_state (self w))) (append v x).
Proof.
  intros w H. unfold append. destruct v; try exact H. destruct (mem w !! l); exact H.
Qed.

Lemma elements_of_keeps_wf (v : pyval) :
  keeps (fun w => wf_state (_state (self w))) (elements_of v).
Proof.
  intros w H. unfold elements_of. destruct v; try exact H.
  destruct (mem w !! l); exact H.
Qed.

Lemma add_decision_keeps_wf (d : Decision.t) :
  keeps (fun w => wf_state (_state (self w))) (add_decision d).
Proof.
  unfold add_decision.
  apply keeps_bind; [apply setattr_keeps_wf; exact field_current_decision | intros _].
  apply keeps_bind; [apply getattr_keeps_wf | intros v].
  apply keeps_bind; [apply append_keeps_wf | intros _].
  apply keeps_bind; [apply getattr_keeps_wf | intros v'].
  apply keeps_bind; [apply elements_of_keeps_wf | intros xs].
  case_bool_decide; [|apply keeps_ret].
  apply keeps_bind; [intros w Hw; exact Hw | intros kept].
  apply setattr_keeps_wf. exact field_decision_history.
Qed.

Lemma add_alert_keeps_wf (a : Alert.t) :
  keeps (fun w => wf_state (_state (self w))) (add_alert a).
Proof.
  unfold add_alert.
  apply keeps_bind; [apply getattr_keeps_wf | intros v].
  apply keeps_bind; [apply append_keeps_wf | intros _].
  apply keeps_bind; [apply getattr_keeps_wf | intros v'].
  apply keeps_bind; [apply append_keeps_wf | intros _].
  apply keeps_bind; [apply getattr_keeps_wf | intros v''].
  apply keeps_bind; [apply elements_of_keeps_wf | intros xs].
  case_bool_decide; [|apply keeps_ret].
  apply keeps_bind; [intros w Hw; exact Hw | intros kept].
  apply setattr_keeps_wf. exact field_alert_history.
Qed.

(** In every state a store reaches by calls whose updates name
    assignable keywords, the state object has exactly the declared
    fields, however the calls ended: such an update adds no name,
    and nothing removes a field. *)
Lemma reachable_store_wf (class_attr : string -> bool) (now : Z)
    (cs : list StateManager.call) :
  Forall (assignable_call class_attr) cs ->
  wf_state (_state (self (StateManager.after class_attr now cs))).
Proof.
  unfold StateManager.after.
  assert (H0 : wf_state (_state (self (StateManager.new now []))))
    by exact (SystemState_new_wf now []).
  revert H0. generalize (StateManager.new now []).
  induction cs as [|c cs IH]; intros w Hw Hcs; [exact Hw|].
  apply Forall_cons in Hcs as [Hc Hcs].
  cbn [foldl]. apply IH; [|exact Hcs].
  destruct c; cbn [StateManager.perform assignable_call] in *.
  - exact Hw.
  - apply update_state_keeps_wf; assumption.
  - apply add_decision_keeps_wf. exact Hw.
  - apply add_alert_keeps_wf. exact Hw.
  - exact Hw.
  - exact Hw.
Qed.

(** ** Properties of the scheduler *)

Section DictFacts.

Context {V : Type}.
Implicit Types (d : list (string * V)) (k : string) (v : V).

Lemma dict_get_set_eq k v d : dict_get k (dict_set k v d) = Some v.
Proof.
  induction d as [|[k' v'] d IH]; simpl.
  - rewrite String.eqb_refl. reflexivity.
  - destruct (String.eqb_spec k k') as [->|Hne]; simpl.
    + rewrite String.eqb_refl. reflexivity.
    + destruct (String.eqb_spec k k'); [contradiction | exact IH].
Qed.

Lemma dict_get_set_ne k k' v d :
  k <> k' -> dict_get k' (dict_set k v d) = dict_get k' d.
Proof.
  intros Hne. induction d as [|[k0 v0] d IH]; simpl.
  - destruct (String.eqb_spec k' k); [congruence | reflexivity].
  - destruct (String.eqb_spec k k0) as [->|Hk]; simpl.
    + destruct (String.eqb_spec k' k0); [congruence | reflexivity].
    + destruct (String.eqb_spec k' k0); [reflexivity | exact IH].
Qed.

Lemma dict_get_del_ne k k' d :
  k <> k' -> dict_get k' (dict_del k d) = dict_get k' d.
Proof.
  intros Hne. induction d as [|[k0 v0] d IH]; simpl; [reflexivity|].
  destruct (String.eqb_spec k k0) as [->|Hk]; simpl.
  - destruct (String.eqb_spec k' k0); [congruence | reflexivity].
  - destruct (String.eqb_spec k' k0); [reflexivity | exact IH].
Qed.

Lemma dict_get_None k d : dict_get k d = None <-> k ∉ dict_keys d.
Proof.
  unfold dict_keys. induction d as [|[k0 v0] d IH]; simpl.
  - split; [intros _; apply not_elem_of_nil | reflexivity].
  - rewrite not_elem_of_cons.
    destruct (String.eqb_spec k k0) as [->|Hk].
    + split; [discriminate | intros [H _]; contradiction].
    + rewrite IH. tauto.
Qed.

Lemma dict_get_Some_keys k v d : dict_get k d = Some v -> k ∈ dict_keys d.
Proof.
  intros H. destruct (decide (k ∈ dict_keys d)) as [|Hn]; [assumption|].
  apply dict_get_None in Hn. congruence.
Qed.

Lemma dict_get_del_eq k d :
  NoDup (dict_keys d) -> dict_get k (dict_del k d) = None.
Proof.
  unfold dict_keys. induction d as [|[k0 v0] d IH]; simpl; [reflexivity|].
  intros Hnd. apply NoDup_cons in Hnd as [Hnotin Hnd].
  destruct (String.eqb_spec k k0) as [->|Hk]; simpl.
  - apply dict_get_None. exact Hnotin.
  - destruct (String.eqb_spec k k0); [contradiction | apply IH, Hnd].
Qed.

Lemma dict_keys_del k k' d : k' ∈ dict_keys (dict_del k d) -> k' ∈ dict_keys d.
Proof.
  unfold dict_keys. induction d as [|[k0 v0] d IH]; simpl; [trivial|].
  destruct (String.eqb_spec k k0) as [->|Hk]; simpl.
  - intros H. apply elem_of_cons. right. exact H.
  - rewrite !elem_of_cons. intros [->|H]; [left; reflexivity | right; apply IH, H].
Qed.

Lemma dict_del_NoDup k d : NoDup (dict_keys d) -> NoDup (dict_keys (dict_del k d)).
Proof.
  unfold dict_keys. induction d as [|[k0 v0] d IH]; simpl; [trivial|].
  intros Hnd. apply NoDup_cons in Hnd as [Hnotin Hnd].
  destruct (String.eqb_spec k k0) as [->|Hk]; simpl; [exact Hnd|].
  apply NoDup_cons. split; [|apply IH, Hnd].
  intros Hin. apply Hnotin. eapply dict_keys_del. exact Hin.
Qed.

Lemma dict_keys_set k k' v d :
  k' ∈ dict_keys (dict_set k v d) <-> k' = k \/ k' ∈ dict_keys d.
Proof.
  unfold dict_keys. induction d as [|[k0 v0] d IH]; simpl.
  - rewrite list_elem_of_singleton. split; [left; assumption|].
    intros [H|H]; [exact H | apply elem_of_nil in H; contradiction].
  - destruct (String.eqb_spec k k0) as [->|Hk]; simpl.
    + rewrite !elem_of_cons. tauto.
    + rewrite !elem_of_cons, IH. tauto.
Qed.

Lemma dict_set_NoDup k v d : NoDup (dict_keys d) -> NoDup (dict_keys (dict_set k v d)).
Proof.
  unfold dict_keys. induction d as [|[k0 v0] d IH]; simpl.
  - intros _. apply NoDup_singleton.
  - intros Hnd. apply NoDup_cons in Hnd as [Hnotin Hnd].
    destruct (String.eqb_spec k k0) as [->|Hk]; simpl.
    + apply NoDup_cons. split; assumption.
    + apply NoDup_cons. split; [|apply IH, Hnd].
      intros Hin. apply (dict_keys_set k k0 v d) in Hin as [Heq|Hin].
      * apply Hk. symmetry. exact Heq.
      * apply Hnotin, Hin.
Qed.

(** A key that is bound keeps its place. *)
Lemma dict_set_keeps_keys k v v' d :
  dict_get k d = Some v' -> dict_keys (dict_set k v d) = dict_keys d.
Proof.
  unfold dict_keys. induction d as [|[k0 v0] d IH]; simpl; [discriminate|].
  destruct (String.eqb_spec k k0) as [->|Hk]; simpl; [reflexivity|].
  intros H. f_equal. apply IH. exact H.
Qed.

(** Under distinct keys, the items are the bindings. *)
Lemma dict_get_item k v d :
  NoDup (dict_keys d) -> (k, v) ∈ d -> dict_get k d = Some v.
Proof.
  unfold dict_keys. induction d as [|[k0 v0] d IH]; simpl.
  - intros _ H. apply elem_of_nil in H. contradiction.
  - intros Hnd Hin. apply NoDup_cons in Hnd as [Hnotin Hnd].
    apply elem_of_cons in Hin as [Heq|Hin].
    + injection Heq as -> ->. rewrite String.eqb_refl. reflexivity.
    + destruct (String.eqb_spec k k0) as [->|Hk]; [|apply IH; assumption].
      exfalso. apply Hnotin. apply list_elem_of_fmap. exists (k0, v). split; [reflexivity | exact Hin].
Qed.

End DictFacts.

Section TableFacts.

Implicit Types (a : list (string * Agent)) (ts : list (string * nat))
  (l : list Task).

Lemma table_ok_set a ts l (name : string) (task : nat) (t : Task) :
  table_ok a ts l ->
  is_Some (dict_get name a) ->
  l !! task = Some t ->
  spawned_for t = name ->
  table_ok a (dict_set name task ts) l.
Proof.
  intros (Hnd & Hvalid & Hreg) Ha Ht Hname. split; [|split].
  - apply dict_set_NoDup, Hnd.
  - intros n k Hget. destruct (decide (name = n)) as [->|Hne].
    + rewrite dict_get_set_eq in Hget. injection Hget as <-. eauto.
    + rewrite dict_get_set_ne in Hget by exact Hne. eauto.
  - intros n k Hget. destruct (decide (name = n)) as [->|Hne]; [exact Ha|].
    rewrite dict_get_set_ne in Hget by exact Hne. eauto.
Qed.

Lemma table_ok_del a ts l (name : string) :
  table_ok a ts l -> table_ok a (dict_del name ts) l.
Proof.
  intros (Hnd & Hvalid & Hreg).
  assert (Hsub : forall n k, dict_get n (dict_del name ts) = Some k ->
                             dict_get n ts = Some k).
  { intros n k Hget. destruct (decide (name = n)) as [->|Hne].
    - rewrite dict_get_del_eq in Hget by exact Hnd. discriminate.
    - rewrite dict_get_del_ne in Hget by exact Hne. exact Hget. }
  split; [|split].
  - apply dict_del_NoDup, Hnd.
  - intros n k Hget. eauto.
  - intros n k Hget. eauto.
Qed.

Lemma table_ok_app a ts l (ext : list Task) :
  table_ok a ts l -> table_ok a ts (l ++ ext).
Proof.
  intros (Hnd & Hvalid & Hreg). split; [exact Hnd|]. split; [|exact Hreg].
  intros n k Hget. destruct (Hvalid n k Hget) as (t & Ht & Hname).
  exists t. split; [|exact Hname]. apply lookup_app_l_Some. exact Ht.
Qed.

Lemma table_ok_state a ts l (task : nat) (t : Task) (s : task_state) :
  table_ok a ts l ->
  l !! task = Some t ->
  table_ok a ts
    (<[task := {| spawned_for := spawned_for t; coro := coro t; state := s |}]> l).
Proof.
  intros (Hnd & Hvalid & Hreg) Ht. split; [exact Hnd|]. split; [|exact Hreg].
  intros n k Hget. destruct (Hvalid n k Hget) as (t' & Ht' & Hname).
  destruct (decide (task = k)) as [->|Hne].
  - rewrite list_lookup_insert_eq by (eapply lookup_lt_Some; exact Ht).
    eexists. split; [reflexivity|]. cbn. congruence.
  - rewrite list_lookup_insert_ne by exact Hne. eauto.
Qed.

Lemma table_ok_register a ts l (name : string) (agent : Agent) :
  table_ok a ts l -> table_ok (dict_set name agent a) ts l.
Proof.
  intros (Hnd & Hvalid & Hreg). split; [exact Hnd|]. split; [exact Hvalid|].
  intros n k Hget. destruct (decide (name = n)) as [->|Hne].
  - rewrite dict_get_set_eq. eauto.
  - rewrite dict_get_set_ne by exact Hne. eauto.
Qed.

End TableFacts.

Section SchedulerProperties.

Import AgentScheduler.

Lemma keeps_try_except {A} (P : world -> Prop) (body : Op A)
    (catches : exn -> bool) (handler : exn -> Op A) :
  keeps P body -> (forall e, keeps P (handler e)) ->
  keeps P (try_except body catches handler).
Proof.
  intros Hb Hh w Hw. unfold try_except. specialize (Hb w Hw).
  destruct (body w) as [[a|e|] w1]; cbn [snd] in *; try exact Hb.
  destruct (catches e); [apply Hh; exact Hb | exact Hb].
Qed.

Lemma keeps_run_all (P : world -> Prop) (calls : list (Op unit)) :
  Forall (keeps P) calls -> keeps P (run_all calls).
Proof.
  induction 1 as [|c calls Hc _ IH]; intros w Hw; [exact Hw|].
  cbn [run_all]. specialize (Hc w Hw).
  destruct (c w) as [[[]|e|] w1]; cbn [snd] in *; apply IH; exact Hc.
Qed.

Lemma keeps_gather (P : world -> Prop) (calls : list (Op unit)) :
  keeps P suspend -> Forall (keeps P) calls -> keeps P (gather calls).
Proof.
  intros Hs Hcalls w Hw. destruct calls as [|c calls]; [exact Hw|].
  unfold gather. cbn [snd]. apply Hs, (keeps_run_all P _ Hcalls), Hs, Hw.
Qed.

Lemma keeps_for_each {A} (P : world -> Prop) (xs : list A) (body : A -> Op unit) :
  (forall x, keeps P (body x)) -> keeps P (for_each xs body).
Proof. unfold keeps. intros H. apply for_each_keeps. exact H. Qed.

(** What does not touch agents, tasks or loop keeps the invariant. *)
Lemma keeps_record (e : trace) : keeps sched_inv (record e).
Proof. intros w H. exact H. Qed.

Lemma keeps_suspend : keeps sched_inv suspend.
Proof. intros w H. exact H. Qed.

Lemma keeps_sleep (seconds : nat) : keeps sched_inv (sleep seconds).
Proof. intros w H. exact H. Qed.

Lemma keeps_get {A} (f : world -> A) : keeps sched_inv (get f).
Proof. intros w H. exact H. Qed.

Lemma keeps_set_flags (r s : bool) : keeps sched_inv (set_flags r s).
Proof. intros w H. exact H. Qed.

Lemma keeps_raise {A} (e : exn) : keeps sched_inv (@raise world A e).
Proof. intros w H. exact H. Qed.

Lemma keeps_task_state_of (task : nat) : keeps sched_inv (task_state_of task).
Proof. intros w H. unfold task_state_of. destruct (loop w !! task); exact H. Qed.

Lemma keeps_task_done (task : nat) : keeps sched_inv (task_done task).
Proof.
  apply keeps_bind; [apply keeps_task_state_of | intros s; apply keeps_ret].
Qed.

Lemma keeps_task_cancelled (task : nat) : keeps sched_inv (task_cancelled task).
Proof.
  apply keeps_bind; [apply keeps_task_state_of | intros s; apply keeps_ret].
Qed.

Lemma keeps_task_exception (task : nat) : keeps sched_inv (task_exception task).
Proof.
  apply keeps_bind; [apply keeps_task_state_of | intros s].
  destruct s; first [apply keeps_ret | apply keeps_raise].
Qed.

Lemma keeps_set_task_state (task : nat) (s : task_state) :
  keeps sched_inv (set_task_state task s).
Proof.
  intros w H. unfold set_task_state.
  destruct (loop w !! task) as [t|] eqn:Ht; [|exact H].
  apply table_ok_state; assumption.
Qed.

Lemma keeps_cancel_and_await (task : nat) : keeps sched_inv (cancel_and_await task).
Proof.
  intros w H. unfold cancel_and_await.
  destruct (loop w !! task) as [t|] eqn:Ht; [|exact H].
  cbv zeta.
  destruct (if (task <? begun w)%nat then on_cancel (coro t) else Propagates);
    refine (keeps_bind sched_inv suspend _ _ _ w H);
    try apply keeps_suspend; intros _.
  - apply keeps_bind; [apply keeps_set_task_state | intros _; apply keeps_raise].
  - apply keeps_set_task_state.
  - apply keeps_bind; [apply keeps_set_task_state | intros _; apply keeps_raise].
  - intros w' H'. exact H'.
Qed.

Lemma keeps_register_agent (name : string) (agent : Agent) :
  keeps sched_inv (register_agent name agent).
Proof. intros w H. apply table_ok_register. exact H. Qed.

Lemma keeps_start_agent (name : string) : keeps sched_inv (start_agent name).
Proof.
  intros w H. unfold start_agent, bind, get.
  destruct (dict_get name (agents (self w))) as [agent|] eqn:Ha; [|exact H].
  destruct (has_start agent); [|exact H].
  unfold sched_inv. cbn.
  apply table_ok_set with (t := {| spawned_for := name; coro := agent; state := Pending |}).
  - apply table_ok_app. exact H.
  - rewrite Ha. eauto.
  - rewrite lookup_app_r by lia. rewrite Nat.sub_diag. reflexivity.
  - reflexivity.
Qed.

(** Dropping the entry of [name] and what follows it in [stop_agent]. *)
Lemma keeps_drop_entry (name : string) :
  keeps sched_inv
    (bind (get (fun w => tasks (self w))) (fun ts =>
     bind (set_tasks (dict_del name ts)) (fun _ =>
     bind (log_event "agent_stopped" [("agent", name)] "scheduler") (fun _ =>
     print ("Stopped agent: " +:+ name))))).
Proof. intros w H. apply table_ok_del. exact H. Qed.

Lemma keeps_stop_agent (name : string) : keeps sched_inv (stop_agent name).
Proof.
  unfold stop_agent.
  intros w H. unfold bind at 1. unfold get at 1.
  destruct (dict_get name (tasks (self w))) as [task|]; [|exact H].
  refine (keeps_bind sched_inv (task_done task) _ _ _ w H);
    [apply keeps_task_done | intros done].
  apply keeps_bind; [|intros _; apply keeps_drop_entry].
  destruct done; cbn [negb]; [apply keeps_ret|].
  apply keeps_try_except; [apply keeps_cancel_and_await | intros _; apply keeps_ret].
Qed.

Lemma keeps_restart_agent (name : string) : keeps sched_inv (restart_agent name).
Proof.
  unfold restart_agent.
  apply keeps_bind; [apply keeps_stop_agent | intros _].
  apply keeps_bind; [apply keeps_sleep | intros _].
  apply keeps_bind; [apply keeps_start_agent | intros _].
  apply keeps_record.
Qed.

Lemma keeps_monitor_check (name : string) (task : nat) :
  keeps sched_inv (monitor_check name task).
Proof.
  unfold monitor_check.
  apply keeps_bind; [apply keeps_task_done | intros done].
  apply keeps_bind; [apply keeps_task_cancelled | intros cancelled].
  destruct (done && negb cancelled); [|apply keeps_ret].
  apply keeps_bind; [apply keeps_task_exception | intros [e|]]; [|apply keeps_ret].
  apply keeps_bind; [apply keeps_record | intros _].
  apply keeps_bind; [apply keeps_record | intros _].
  apply keeps_restart_agent.
Qed.

Lemma keeps_monitor_scan : keeps sched_inv monitor_scan.
Proof.
  unfold monitor_scan.
  apply keeps_bind; [apply keeps_get | intros ts].
  apply keeps_for_each. intros [name task]. apply keeps_monitor_check.
Qed.

Lemma keeps_monitor_wake : keeps sched_inv monitor_wake.
Proof.
  unfold monitor_wake. apply keeps_try_except.
  - apply keeps_bind; [apply keeps_monitor_scan | intros _; apply keeps_sleep].
  - intros e. apply keeps_bind; [apply keeps_record | intros _; apply keeps_sleep].
Qed.

Lemma keeps_start_all_agents : keeps sched_inv start_all_agents.
Proof.
  unfold start_all_agents.
  apply keeps_bind; [apply keeps_get | intros s].
  apply keeps_bind; [apply keeps_set_flags | intros _].
  apply keeps_bind; [apply keeps_get | intros a].
  apply keeps_bind; [apply keeps_record | intros _].
  apply keeps_bind; [|intros _; apply keeps_record].
  apply keeps_gather; [apply keeps_suspend|]. apply Forall_fmap, Forall_forall.
  intros name _. apply keeps_start_agent.
Qed.

Lemma keeps_stop_all_agents : keeps sched_inv stop_all_agents.
Proof.
  unfold stop_all_agents.
  apply keeps_bind; [apply keeps_set_flags | intros _].
  apply keeps_bind; [apply keeps_get | intros ts].
  apply keeps_bind; [|intros _].
  { apply keeps_gather; [apply keeps_suspend|]. apply Forall_fmap, Forall_forall.
    intros name _. apply keeps_stop_agent. }
  apply keeps_bind; [apply keeps_record | intros _; apply keeps_record].
Qed.

Lemma keeps_get_agent_status : keeps sched_inv get_agent_status.
Proof.
  unfold get_agent_status.
  apply keeps_bind; [apply keeps_get | intros ts].
  generalize (@nil (string * Status.t)).
  induction ts as [|[name task] ts IH]; intros status; [apply keeps_ret|].
  cbn [status_items].
  apply keeps_bind; [apply keeps_task_done | intros done].
  apply keeps_bind; [apply keeps_task_cancelled | intros cancelled].
  apply keeps_bind; [apply keeps_task_exception | intros exception].
  apply IH.
Qed.

Lemma keeps_shutdown : keeps sched_inv shutdown.
Proof.
  unfold shutdown.
  apply keeps_bind; [apply keeps_record | intros _].
  apply keeps_bind; [apply keeps_stop_all_agents | intros _].
  apply keeps_bind; [apply keeps_record | intros _; apply keeps_record].
Qed.

Lemma keeps_task_ends (task : nat) (s : task_state) :
  keeps sched_inv (task_ends task s).
Proof.
  unfold task_ends.
  apply keeps_bind; [apply keeps_suspend | intros _].
  apply keeps_bind; [apply keeps_task_state_of | intros s0].
  destruct s0, s; first [apply keeps_ret | apply keeps_set_task_state].
Qed.

Lemma perform_keeps_inv (c : call) (w : world) :
  sched_inv w -> sched_inv (perform c w).
Proof.
  destruct c; cbn [perform].
  - apply keeps_register_agent.
  - apply keeps_start_agent.
  - apply keeps_stop_agent.
  - apply keeps_restart_agent.
  - apply keeps_start_all_agents.
  - apply keeps_stop_all_agents.
  - apply keeps_get_agent_status.
  - apply keeps_monitor_wake.
  - apply keeps_shutdown.
  - apply keeps_task_ends.
Qed.

(** Every state the scheduler can reach has a well-kept task table. *)
Lemma after_inv (cs : list call) : sched_inv (after cs).
Proof.
  unfold after.
  assert (H0 : sched_inv new).
  { split; [apply NoDup_nil_2|]. split; intros n k H; discriminate H. }
  revert H0. generalize new. induction cs as [|c cs IH]; intros w Hw; [exact Hw|].
  cbn [foldl]. apply IH, perform_keeps_inv, Hw.
Qed.

End SchedulerProperties.

Section SchedulerClaims.

Import AgentScheduler.

(** *** Registration *)

(** C5, as the code has it: registering under a name that is already
    registered returns normally, without any error, and puts the new
    instance in place of the old one; the registrations under other
    names, the order of the names, the task table and the tasks of
    the event loop are as before. *)
Theorem register_agent_replaces (w : world) (name : string) (old agent : Agent) :
  dict_get name (agents (self w)) = Some old ->
  let r := register_agent name agent w in
  r.1 = Ok tt /\
  dict_get name (agents (self r.2)) = Some agent /\
  (forall other, other <> name ->
     dict_get other (agents (self r.2)) = dict_get other (agents (self w))) /\
  dict_keys (agents (self r.2)) = dict_keys (agents (self w)) /\
  tasks (self r.2) = tasks (self w) /\
  loop r.2 = loop w.
Proof.
  intros Hold r. subst r. cbn.
  split; [reflexivity|].
  split; [apply dict_get_set_eq|].
  split; [intros other Hne; apply dict_get_set_ne; congruence|].
  split; [eapply dict_set_keeps_keys; exact Hold|].
  split; reflexivity.
Qed.

(** The amended C5 on a scheduler where [w] is registered. *)
Lemma register_agent_replaces_witness :
  let w := after [Register "w" (worker 1)] in
  dict_get "w" (agents (self w)) = Some (worker 1) /\
  (register_agent "w" (worker 2) w).1 = Ok tt /\
  dict_get "w" (agents (self (register_agent "w" (worker 2) w).2)) = Some (worker 2).
Proof.
  cbv zeta.
  assert (H : dict_get "w" (agents (self (after [Register "w" (worker 1)])))
              = Some (worker 1)) by reflexivity.
  pose proof (register_agent_replaces (after [Register "w" (worker 1)]) "w"
                (worker 1) (worker 2) H) as (H1 & H2 & _).
  split; [exact H|]. split; [exact H1 | exact H2].
Defined.

(** C5 as stated fails: with [w] registered as instance 1,
    registering instance 2 under [w] raises nothing, and afterwards
    [w] names instance 2, not the instance registered first. *)
Lemma duplicate_registration_not_rejected :
  let w := after [Register "w" (worker 1)] in
  let r := register_agent "w" (worker 2) w in
  dict_get "w" (agents (self w)) = Some (worker 1) /\
  r.1 = Ok tt /\
  dict_get "w" (agents (self r.2)) = Some (worker 2) /\
  dict_get "w" (agents (self r.2)) <> dict_get "w" (agents (self w)).
Proof.
  cbv zeta. split; [reflexivity|]. split; [reflexivity|].
  split; [reflexivity|]. discriminate.
Qed.

(** *** Starting a worker that runs *)

Lemma live_tasks_In (name : string) (w : world) (task : nat) (t : Task) :
  loop w !! task = Some t ->
  spawned_for t = name ->
  state t = Pending ->
  In task (live_tasks name w).
Proof.
  intros Ht Hname Hstate. unfold live_tasks. apply filter_In. split.
  - apply in_seq. apply lookup_lt_Some in Ht. lia.
  - rewrite Ht, Hname, Hstate, String.eqb_refl. reflexivity.
Qed.

(** [start_agent] for a registered agent that has [start]. *)
Lemma start_agent_spec (name : string) (agent : Agent) (w : world) :
  dict_get name (agents (self w)) = Some agent ->
  has_start agent = true ->
  exists w',
    start_agent name w = (Ok tt, w') /\
    agents (self w') = agents (self w) /\
    tasks (self w') = dict_set name (length (loop w)) (tasks (self w)) /\
    loop w' = loop w ++ [ {| spawned_for := name; coro := agent; state := Pending |} ] /\
    log w' = log w ++ [ Logged "agent_started" [("agent", name)] "scheduler";
                        Print ("Started agent: " +:+ name) ] /\
    running (self w') = running (self w) /\
    _shutdown_event (self w') = _shutdown_event (self w).
Proof.
  intros Ha Hs. unfold start_agent, bind, get. rewrite Ha, Hs. cbn.
  eexists. split; [reflexivity|]. cbn. rewrite <- app_assoc.
  repeat split; reflexivity.
Qed.

(** C3, as the code has it.  In every state the scheduler can reach,
    the task table holds at most one task handle per name.  Calling
    [start_agent] for a worker whose recorded task is still running
    always returns normally, spawns a new task and records it in
    place of the old handle; the old task is neither cancelled nor
    awaited, so both tasks are live afterwards. *)
Theorem start_on_running_replaces_handle :
  (forall cs : list call, NoDup (dict_keys (tasks (self (after cs))))) /\
  (forall (cs : list call) (name : string) (agent : Agent) (task : nat) (t : Task),
     let w := after cs in
     dict_get name (agents (self w)) = Some agent ->
     has_start agent = true ->
     dict_get name (tasks (self w)) = Some task ->
     loop w !! task = Some t ->
     state t = Pending ->
     let r := start_agent name w in
     r.1 = Ok tt /\
     NoDup (dict_keys (tasks (self r.2))) /\
     dict_get name (tasks (self r.2)) = Some (length (loop w)) /\
     loop r.2 = loop w ++ [ {| spawned_for := name; coro := agent; state := Pending |} ] /\
     task <> length (loop w) /\
     In task (live_tasks name r.2) /\
     In (length (loop w)) (live_tasks name r.2)).
Proof.
  split.
  { intros cs. apply (after_inv cs). }
  intros cs name agent task t w Ha Hs Htask Ht Hstate r.
  pose proof (after_inv cs) as Hinv. fold w in Hinv.
  destruct (start_agent_spec name agent w Ha Hs)
    as (w' & Hrun & Hag & Hts & Hloop & _).
  subst r. rewrite Hrun. cbn [fst snd].
  split; [reflexivity|].
  split; [rewrite Hts; apply dict_set_NoDup, Hinv|].
  split; [rewrite Hts; apply dict_get_set_eq|].
  split; [exact Hloop|].
  assert (Hlt : task < length (loop w)) by (eapply lookup_lt_Some; exact Ht).
  split; [lia|].
  destruct Hinv as (_ & Hvalid & _).
  destruct (Hvalid name task Htask) as (t0 & Ht0 & Hname).
  assert (t0 = t) by congruence. subst t0.
  split.
  - apply (live_tasks_In name w' task t); [|exact Hname | exact Hstate].
    rewrite Hloop. apply lookup_app_l_Some. exact Ht.
  - apply (live_tasks_In name w' (length (loop w))
             {| spawned_for := name; coro := agent; state := Pending |});
      [|reflexivity..].
    rewrite Hloop, lookup_app_r by lia. rewrite Nat.sub_diag. reflexivity.
Qed.

(** The amended C3 for a worker started once. *)
Lemma start_on_running_replaces_handle_witness :
  let w := after [Register "w" (worker 1); Start "w"] in
  dict_get "w" (agents (self w)) = Some (worker 1) /\
  has_start (worker 1) = true /\
  dict_get "w" (tasks (self w)) = Some 0 /\
  loop w !! 0 = Some {| spawned_for := "w"; coro := worker 1; state := Pending |} /\
  (start_agent "w" w).1 = Ok tt /\
  dict_get "w" (tasks (self (start_agent "w" w).2)) = Some 1.
Proof.
  cbv zeta.
  pose proof (proj2 start_on_running_replaces_handle
                [Register "w" (worker 1); Start "w"] "w" (worker 1) 0
                {| spawned_for := "w"; coro := worker 1; state := Pending |}
                eq_refl eq_refl eq_refl eq_refl eq_refl) as (H1 & _ & H2 & _).
  split; [reflexivity|]. split; [reflexivity|]. split; [reflexivity|].
  split; [reflexivity|]. split; [exact H1 | exact H2].
Defined.

(** C3 as stated fails: after [register], [start], a second [start]
    of the same worker is neither an error nor without effect; the
    state reached has two live tasks for the one name. *)
Lemma second_start_spawns_second_live_task :
  let w := after [Register "w" (worker 1); Start "w"] in
  let r := start_agent "w" w in
  live_tasks "w" w = [0] /\
  r.1 = Ok tt /\
  r.2 = after [Register "w" (worker 1); Start "w"; Start "w"] /\
  live_tasks "w" r.2 = [0; 1].
Proof. cbv zeta. repeat split; reflexivity. Qed.

(** *** Status *)

(** As long as one recorded task is running, [get_agent_status] does
    not return a mapping. *)
Lemma status_items_of_running (its : list (string * nat)) (w : world)
    (name : string) (task : nat) (t : Task) :
  (name, task) ∈ its ->
  loop w !! task = Some t ->
  state t = Pending ->
  forall status st, (status_items its status w).1 <> Ok st.
Proof.
  intros Hin Ht Hstate.
  induction its as [|[n k] its IH]; intros status st.
  - apply elem_of_nil in Hin. contradiction.
  - cbn [status_items]. unfold bind at 1.
    unfold task_done, bind, task_state_of, ret.
    destruct (loop w !! k) as [t0|] eqn:Hk; [|discriminate].
    unfold task_cancelled, bind, task_state_of, ret. rewrite Hk.
    unfold task_exception, bind, task_state_of, ret, raise. rewrite Hk.
    destruct (state t0) eqn:Hs0; try discriminate.
    + apply IH. apply elem_of_cons in Hin as [Heq|Hin]; [|exact Hin].
      injection Heq as -> ->. congruence.
    + apply IH. apply elem_of_cons in Hin as [Heq|Hin]; [|exact Hin].
      injection Heq as -> ->. congruence.
Qed.

Lemma status_of_running_fails (w : world) (name : string) (task : nat) (t : Task) :
  (name, task) ∈ tasks (self w) ->
  loop w !! task = Some t ->
  state t = Pending ->
  forall st, (get_agent_status w).1 <> Ok st.
Proof.
  intros Hin Ht Hstate st. unfold get_agent_status, bind at 1, get at 1.
  eapply status_items_of_running; eassumption.
Qed.

(** C4 fails on the code.  After [register] and [start] of a worker,
    [get_agent_status] does not return: asking the still running task
    for its exception raises [InvalidStateError].  After [stop], the
    call returns a mapping without any entry for the worker. *)
Theorem status_of_running_worker_raises (i : nat) :
  let w := after [Register "w" (worker i); Start "w"] in
  live_tasks "w" w = [0] /\
  (get_agent_status w).1 = Raise InvalidStateError /\
  (stop_agent "w" w).1 = Ok tt /\
  (get_agent_status (stop_agent "w" w).2).1 = Ok [].
Proof. cbv zeta. repeat split; reflexivity. Qed.

End SchedulerClaims.

Section Monitor.

Import AgentScheduler.

(** *** Restart by the monitor *)

(** [stop_agent] for a worker whose recorded task has ended: the
    handle is dropped, nothing is cancelled. *)
Lemma stop_agent_done (name : string) (task : nat) (t : Task) (w : world) :
  dict_get name (tasks (self w)) = Some task ->
  loop w !! task = Some t ->
  state t <> Pending ->
  exists w',
    stop_agent name w = (Ok tt, w') /\
    agents (self w') = agents (self w) /\
    tasks (self w') = dict_del name (tasks (self w)) /\
    loop w' = loop w /\
    log w' = log w ++ [ Logged "agent_stopped" [("agent", name)] "scheduler";
                        Print ("Stopped agent: " +:+ name) ].
Proof.
  intros Htask Ht Hdone.
  unfold stop_agent, bind, get, task_done, task_state_of, bind, ret.
  rewrite Htask, Ht.
  destruct (state t); [contradiction| | |]; cbn;
    (eexists; split; [reflexivity|]; cbn; rewrite <- app_assoc;
     repeat split; reflexivity).
Qed.

Lemma sleep_eq (seconds : nat) (w : world) :
  sleep seconds w
  = (Ok tt, {| self := self w; loop := loop w; log := log w ++ [Slept seconds];
               begun := length (loop w) |}).
Proof. reflexivity. Qed.

(** [start_agent] for a registered object without [start]. *)
Lemma start_agent_without_start (name : string) (agent : Agent) (w : world) :
  dict_get name (agents (self w)) = Some agent ->
  has_start agent = false ->
  exists w',
    start_agent name w = (Ok tt, w') /\
    self w' = self w /\
    loop w' = loop w /\
    log w' = log w ++ [ Print ("Agent " +:+ name +:+ " has no start method") ].
Proof.
  intros Ha Hs. unfold start_agent, bind, get. rewrite Ha, Hs.
  eexists. split; [reflexivity|]. repeat split; reflexivity.
Qed.

(** [restart_agent] for a registered worker whose recorded task has
    ended. *)
Lemma restart_agent_done (name : string) (task : nat) (t : Task)
    (agent : Agent) (w : world) :
  dict_get name (tasks (self w)) = Some task ->
  loop w !! task = Some t ->
  state t <> Pending ->
  dict_get name (agents (self w)) = Some agent ->
  exists w' l,
    restart_agent name w = (Ok tt, w') /\
    agents (self w') = agents (self w) /\
    tasks (self w')
      = (if has_start agent
         then dict_set name (length (loop w)) (dict_del name (tasks (self w)))
         else dict_del name (tasks (self w))) /\
    loop w'
      = (if has_start agent
         then loop w ++ [ {| spawned_for := name; coro := agent; state := Pending |} ]
         else loop w) /\
    log w' = log w ++ l /\
    In (Logged "agent_restarted" [("agent", name)] "scheduler") l.
Proof.
  intros Htask Ht Hdone Ha.
  destruct (stop_agent_done name task t w Htask Ht Hdone)
    as (w1 & Hrun1 & Hag1 & Hts1 & Hloop1 & Hlog1).
  unfold restart_agent.
  rewrite (bind_Ok _ _ _ _ _ Hrun1).
  rewrite (bind_Ok _ _ _ _ _ (sleep_eq 1 w1)).
  set (w2 := {| self := self w1; loop := loop w1; log := log w1 ++ [Slept 1];
                begun := length (loop w1) |}).
  destruct (has_start agent) eqn:Hs.
  - destruct (start_agent_spec name agent w2) as (w3 & Hrun3 & Hag3 & Hts3 & Hloop3 & Hlog3 & _);
      [cbn; rewrite Hag1; exact Ha | exact Hs |].
    rewrite (bind_Ok _ _ _ _ _ Hrun3).
    eexists. eexists. split; [reflexivity|]. cbn.
    split; [rewrite Hag3; exact Hag1|].
    split; [rewrite Hts3; cbn; rewrite Hts1, Hloop1; reflexivity|].
    split; [rewrite Hloop3; cbn; rewrite Hloop1; reflexivity|].
    split.
    + rewrite Hlog3. cbn. rewrite Hlog1, <- !app_assoc. reflexivity.
    + cbn. tauto.
  - destruct (start_agent_without_start name agent w2) as (w3 & Hrun3 & Hself3 & Hloop3 & Hlog3);
      [cbn; rewrite Hag1; exact Ha | exact Hs |].
    rewrite (bind_Ok _ _ _ _ _ Hrun3).
    eexists. eexists. split; [reflexivity|]. cbn.
    rewrite Hself3, Hloop3, Hlog3. cbn.
    split; [exact Hag1|]. split; [exact Hts1|]. split; [exact Hloop1|].
    split.
    + rewrite Hlog1, <- !app_assoc. reflexivity.
    + cbn. tauto.
Qed.

Lemma task_done_eq (task : nat) (t : Task) (w : world) :
  loop w !! task = Some t ->
  task_done task w = (Ok (match state t with Pending => false | _ => true end), w).
Proof. intros H. unfold task_done, bind, task_state_of, ret. rewrite H. reflexivity. Qed.

Lemma task_cancelled_eq (task : nat) (t : Task) (w : world) :
  loop w !! task = Some t ->
  task_cancelled task w
  = (Ok (match state t with Cancelled => true | _ => false end), w).
Proof.
  intros H. unfold task_cancelled, bind, task_state_of, ret. rewrite H. reflexivity.
Qed.

Lemma task_exception_finished (task : nat) (t : Task) (w : world) :
  loop w !! task = Some t ->
  state t = Finished ->
  task_exception task w = (Ok None, w).
Proof.
  intros H Hs. unfold task_exception, bind, task_state_of, ret. rewrite H, Hs.
  reflexivity.
Qed.

Lemma task_exception_failed (task : nat) (t : Task) (e : exn) (w : world) :
  loop w !! task = Some t ->
  state t = Failed e ->
  task_exception task w = (Ok (Some e), w).
Proof.
  intros H Hs. unfold task_exception, bind, task_state_of, ret. rewrite H, Hs.
  reflexivity.
Qed.

(** The check of one item by the monitor, in a well-kept table. *)
Lemma monitor_check_spec (name : string) (task : nat) (t : Task) (w : world) :
  sched_inv w ->
  dict_get name (tasks (self w)) = Some task ->
  loop w !! task = Some t ->
  exists w' ext l,
    monitor_check name task w = (Ok tt, w') /\
    sched_inv w' /\
    agents (self w') = agents (self w) /\
    loop w' = loop w ++ ext /\
    log w' = log w ++ l /\
    (forall other, other <> name ->
       dict_get other (tasks (self w')) = dict_get other (tasks (self w))) /\
    (forall e, state t = Failed e ->
       In (Logged "agent_restarted" [("agent", name)] "scheduler") l /\
       forall agent,
         dict_get name (agents (self w)) = Some agent ->
         has_start agent = true ->
         dict_get name (tasks (self w')) = Some (length (loop w)) /\
         loop w' !! length (loop w)
         = Some {| spawned_for := name; coro := agent; state := Pending |}).
Proof.
  intros Hinv Htask Ht.
  pose proof (keeps_monitor_check name task w Hinv) as Hinv'.
  assert (Hsame : forall w0 : world,
    w0 = w -> (forall e, state t <> Failed e) ->
    monitor_check name task w = (Ok tt, w0) ->
    exists w' ext l,
      monitor_check name task w = (Ok tt, w') /\
      sched_inv w' /\
      agents (self w') = agents (self w) /\
      loop w' = loop w ++ ext /\
      log w' = log w ++ l /\
      (forall other, other <> name ->
         dict_get other (tasks (self w')) = dict_get other (tasks (self w))) /\
      (forall e, state t = Failed e ->
         In (Logged "agent_restarted" [("agent", name)] "scheduler") l /\
         forall agent,
           dict_get name (agents (self w)) = Some agent ->
           has_start agent = true ->
           dict_get name (tasks (self w')) = Some (length (loop w)) /\
           loop w' !! length (loop w)
           = Some {| spawned_for := name; coro := agent; state := Pending |})).
  { intros w0 -> Hnf Hrun. exists w, [], [].
    split; [exact Hrun|]. split; [exact Hinv|]. split; [reflexivity|].
    split; [rewrite app_nil_r; reflexivity|].
    split; [rewrite app_nil_r; reflexivity|].
    split; [reflexivity|]. intros e He. destruct (Hnf e He). }
  assert (Hhead : forall k : bool -> bool -> Op unit,
    bind (task_done task) (fun done => bind (task_cancelled task) (k done)) w
    = k (match state t with Pending => false | _ => true end)
        (match state t with Cancelled => true | _ => false end) w).
  { intros k. rewrite (bind_Ok _ _ _ _ _ (task_done_eq task t w Ht)).
    rewrite (bind_Ok _ _ _ _ _ (task_cancelled_eq task t w Ht)). reflexivity. }
  unfold monitor_check in *. rewrite Hhead in *. clear Hhead.
  destruct (state t) as [| | |e] eqn:Hstate; cbn [andb negb] in *.
  - apply (Hsame w eq_refl); [discriminate | reflexivity].
  - apply (Hsame w eq_refl); [discriminate |].
    rewrite (bind_Ok _ _ _ _ _ (task_exception_finished task t w Ht Hstate)).
    reflexivity.
  - apply (Hsame w eq_refl); [discriminate | reflexivity].
  - destruct Hinv as (Hnd & Hvalid & Hreg).
    destruct (Hreg name task Htask) as [agent Ha].
    set (w1 := {| self := self w; loop := loop w;
                  log := (log w ++ [Logged "error"
                            [("error", "Agent " +:+ name +:+ " failed: " +:+ exn_str e);
                             ("exception", exn_str e)] "scheduler"])
                         ++ [Print ("Agent " +:+ name +:+ " failed, restarting...")];
                  begun := begun w |}).
    destruct (restart_agent_done name task t agent w1)
      as (w' & l & Hrun & Hag & Hts & Hloop & Hlog & Hin);
      [exact Htask | exact Ht | rewrite Hstate; discriminate | exact Ha |].
    rewrite (bind_Ok _ _ _ _ _ (task_exception_failed task t e w Ht Hstate)) in *.
    match goal with
    | |- context [?m w = (Ok tt, _)] => assert (Hcheck : m w = (Ok tt, w'))
    end.
    { unfold bind at 1. unfold log_error, log_event, record at 1.
      unfold bind at 1. unfold print, record at 1. fold w1. exact Hrun. }
    exists w',
      (if has_start agent
       then [ {| spawned_for := name; coro := agent; state := Pending |} ] else []),
      ([Logged "error"
          [("error", "Agent " +:+ name +:+ " failed: " +:+ exn_str e);
           ("exception", exn_str e)] "scheduler";
        Print ("Agent " +:+ name +:+ " failed, restarting...")] ++ l).
    split; [exact Hcheck|].
    split; [rewrite Hcheck in Hinv'; exact Hinv'|].
    split; [exact Hag|].
    split; [rewrite Hloop; destruct (has_start agent); cbn [loop w1];
            [reflexivity | rewrite app_nil_r; reflexivity]|].
    split; [rewrite Hlog; cbn [log w1]; rewrite <- !app_assoc; reflexivity|].
    split.
    { intros other Hne. rewrite Hts. cbn [self tasks w1].
      destruct (has_start agent).
      - rewrite dict_get_set_ne by congruence. apply dict_get_del_ne. congruence.
      - apply dict_get_del_ne. congruence. }
    intros e' _. split; [apply in_app_iff; right; exact Hin|].
    intros agent' Ha' Hs'. assert (agent' = agent) by congruence. subst agent'.
    rewrite Hts, Hloop, Hs'. cbn [self loop w1].
    split; [apply dict_get_set_eq|].
    rewrite lookup_app_r by lia. rewrite Nat.sub_diag. reflexivity.
Qed.

End Monitor.

Section MonitorWake.

Import AgentScheduler.

(** The scan of the monitor over items that are entries of a
    well-kept table: it returns, and every item whose task ended with
    an exception has been restarted. *)
Lemma scan_spec (its : list (string * nat)) :
  NoDup its.*1 ->
  forall w : world,
    sched_inv w ->
    (forall name task, (name, task) ∈ its ->
       dict_get name (tasks (self w)) = Some task) ->
    exists w' ext l,
      for_each its (fun item => monitor_check item.1 item.2) w = (Ok tt, w') /\
      sched_inv w' /\
      agents (self w') = agents (self w) /\
      loop w' = loop w ++ ext /\
      log w' = log w ++ l /\
      (forall other, other ∉ its.*1 ->
         dict_get other (tasks (self w')) = dict_get other (tasks (self w))) /\
      (forall name task t e,
         (name, task) ∈ its ->
         loop w !! task = Some t ->
         state t = Failed e ->
         In (Logged "agent_restarted" [("agent", name)] "scheduler") l /\
         forall agent,
           dict_get name (agents (self w)) = Some agent ->
           has_start agent = true ->
           exists task',
             dict_get name (tasks (self w')) = Some task' /\
             length (loop w) <= task' /\
             loop w' !! task'
             = Some {| spawned_for := name; coro := agent; state := Pending |}).
Proof.
  induction its as [|[name task] its IH]; intros Hnd w Hinv Hits.
  - exists w, [], []. split; [reflexivity|]. split; [exact Hinv|].
    split; [reflexivity|]. split; [rewrite app_nil_r; reflexivity|].
    split; [rewrite app_nil_r; reflexivity|]. split; [reflexivity|].
    intros n k t e Hin. apply elem_of_nil in Hin. contradiction.
  - cbn [fmap list_fmap fst] in Hnd. apply NoDup_cons in Hnd as [Hfresh Hnd].
    assert (Htask : dict_get name (tasks (self w)) = Some task)
      by (apply Hits; left).
    destruct (proj1 (proj2 Hinv) name task Htask) as (t & Ht & _).
    destruct (monitor_check_spec name task t w Hinv Htask Ht)
      as (w1 & ext1 & l1 & Hrun1 & Hinv1 & Hag1 & Hloop1 & Hlog1 & Hother1 & Hfail1).
    assert (Hne : forall n k, (n, k) ∈ its -> n <> name).
    { intros n k Hin ->. apply Hfresh. apply list_elem_of_fmap.
      exists (name, k). split; [reflexivity | exact Hin]. }
    destruct (IH Hnd w1 Hinv1) as (w' & ext & l & Hrun & Hinv' & Hag & Hloop & Hlog & Hother & Hfail).
    { intros n k Hin. rewrite Hother1 by (eapply Hne; exact Hin).
      apply Hits. right. exact Hin. }
    exists w', (ext1 ++ ext), (l1 ++ l).
    split.
    { cbn [for_each fst snd]. rewrite (bind_Ok _ _ _ _ _ Hrun1). exact Hrun. }
    split; [exact Hinv'|].
    split; [rewrite Hag; exact Hag1|].
    split; [rewrite Hloop, Hloop1, <- app_assoc; reflexivity|].
    split; [rewrite Hlog, Hlog1, <- app_assoc; reflexivity|].
    split.
    { intros other Hnotin. cbn [fmap list_fmap fst] in Hnotin.
      apply not_elem_of_cons in Hnotin as [Hne' Hnotin].
      rewrite Hother by exact Hnotin. apply Hother1. exact Hne'. }
    intros n k t' e Hin Ht' Hstate.
    apply elem_of_cons in Hin as [Heq|Hin].
    + injection Heq as -> ->. assert (t' = t) by congruence. subst t'.
      destruct (Hfail1 e Hstate) as [Hin1 Hnew].
      split; [apply in_app_iff; left; exact Hin1|].
      intros agent Ha Hs. destruct (Hnew agent Ha Hs) as [Hget Hlook].
      exists (length (loop w)).
      split; [rewrite Hother by exact Hfresh; exact Hget|].
      split; [lia|].
      rewrite Hloop. apply lookup_app_l_Some. exact Hlook.
    + assert (Ht1 : loop w1 !! k = Some t')
        by (rewrite Hloop1; apply lookup_app_l_Some; exact Ht').
      destruct (Hfail n k t' e Hin Ht1 Hstate) as [Hinl Hnew].
      split; [apply in_app_iff; right; exact Hinl|].
      intros agent Ha Hs. rewrite <- Hag1 in Ha.
      destruct (Hnew agent Ha Hs) as (task' & Hget & Hle & Hlook).
      exists task'. split; [exact Hget|]. split; [|exact Hlook].
      rewrite Hloop1, length_app in Hle. lia.
Qed.

(** One turn of the monitor in a state the scheduler can reach. *)
Lemma monitor_wake_spec (w : world) :
  sched_inv w ->
  exists w' ext l,
    monitor_wake w = (Ok tt, w') /\
    sched_inv w' /\
    loop w' = loop w ++ ext /\
    log w' = log w ++ l /\
    (forall name task t e,
       dict_get name (tasks (self w)) = Some task ->
       loop w !! task = Some t ->
       state t = Failed e ->
       In (Logged "agent_restarted" [("agent", name)] "scheduler") l /\
       forall agent,
         dict_get name (agents (self w)) = Some agent ->
         has_start agent = true ->
         exists task',
           dict_get name (tasks (self w')) = Some task' /\
           length (loop w) <= task' /\
           loop w' !! task'
           = Some {| spawned_for := name; coro := agent; state := Pending |}).
Proof.
  intros Hinv.
  destruct (scan_spec (tasks (self w)) (proj1 Hinv) w Hinv)
    as (w1 & ext & l & Hrun & Hinv1 & Hag & Hloop & Hlog & _ & Hfail).
  { intros name task Hin. apply dict_get_item; [exact (proj1 Hinv) | exact Hin]. }
  assert (Hscan : monitor_scan w = (Ok tt, w1)).
  { unfold monitor_scan, bind at 1, get at 1. exact Hrun. }
  exists {| self := self w1; loop := loop w1; log := log w1 ++ [Slept 30];
            begun := length (loop w1) |},
    ext, (l ++ [Slept 30]).
  split.
  { unfold monitor_wake, try_except.
    rewrite (bind_Ok _ _ _ _ _ Hscan). reflexivity. }
  split; [exact Hinv1|].
  split; [exact Hloop|].
  split; [cbn; rewrite Hlog, <- app_assoc; reflexivity|].
  intros name task t e Htask Ht Hstate.
  assert (Hin : (name, task) ∈ tasks (self w)).
  { clear -Htask. induction (tasks (self w)) as [|[k v] d IH]; [discriminate|].
    cbn in Htask. destruct (String.eqb_spec name k) as [->|Hne].
    - injection Htask as ->. left.
    - right. apply IH, Htask. }
  destruct (Hfail name task t e Hin Ht Hstate) as [Hinl Hnew].
  split; [apply in_app_iff; left; exact Hinl|].
  intros agent Ha Hs. exact (Hnew agent Ha Hs).
Qed.

(** C9: in every state the scheduler can reach, a turn of the monitor
    loop returns, and for every worker whose recorded task has ended
    with an exception, [restart_agent] has run for it; if the
    registered worker has [start], its name is then bound to a newly
    created task, which is running.  While the scheduler is active, a
    turn of [monitor_agents] is such a turn. *)
Theorem monitor_restarts_crashed_workers (cs : list call) :
  let w := after cs in
  let r := monitor_wake w in
  r.1 = Ok tt /\
  (forall name task t e,
     dict_get name (tasks (self w)) = Some task ->
     loop w !! task = Some t ->
     state t = Failed e ->
     In (Logged "agent_restarted" [("agent", name)] "scheduler")
        (drop (length (log w)) (log r.2)) /\
     forall agent,
       dict_get name (agents (self w)) = Some agent ->
       has_start agent = true ->
       exists task' t',
         dict_get name (tasks (self r.2)) = Some task' /\
         length (loop w) <= task' /\
         loop r.2 !! task' = Some t' /\
         coro t' = agent /\
         state t' = Pending /\
         In task' (live_tasks name r.2)) /\
  (running (self w) = true -> _shutdown_event (self w) = false ->
   forall n, monitor_agents (S n) w = bind monitor_wake (fun _ => monitor_agents n) w).
Proof.
  intros w r. subst r.
  destruct (monitor_wake_spec w (after_inv cs))
    as (w' & ext & l & Hrun & Hinv' & Hloop & Hlog & Hfail).
  rewrite Hrun. cbn [fst snd]. split; [reflexivity|]. split.
  - intros name task t e Htask Ht Hstate.
    destruct (Hfail name task t e Htask Ht Hstate) as [Hin Hnew].
    split.
    + rewrite Hlog, drop_app_length. exact Hin.
    + intros agent Ha Hs. destruct (Hnew agent Ha Hs) as (task' & Hget & Hle & Hlook).
      exists task', {| spawned_for := name; coro := agent; state := Pending |}.
      split; [exact Hget|]. split; [exact Hle|]. split; [exact Hlook|].
      split; [reflexivity|]. split; [reflexivity|].
      eapply live_tasks_In; [exact Hlook | reflexivity | reflexivity].
  - intros Hr Hs n. cbn [monitor_agents]. rewrite Hr, Hs. reflexivity.
Qed.

(** C9 for a worker whose task raised on its first iteration. *)
Lemma monitor_restarts_crashed_workers_witness :
  let w := after [Register "w" (worker 1); Start "w";
                  TaskEnds 0 (Failed (Fault "boom"))] in
  dict_get "w" (tasks (self w)) = Some 0 /\
  loop w !! 0 = Some {| spawned_for := "w"; coro := worker 1;
                        state := Failed (Fault "boom") |} /\
  dict_get "w" (agents (self w)) = Some (worker 1) /\
  has_start (worker 1) = true /\
  (monitor_wake w).1 = Ok tt /\
  live_tasks "w" w = [] /\
  live_tasks "w" (monitor_wake w).2 = [1] /\
  exists task' t',
    dict_get "w" (tasks (self (monitor_wake w).2)) = Some task' /\
    length (loop w) <= task' /\
    loop (monitor_wake w).2 !! task' = Some t' /\
    coro t' = worker 1 /\
    state t' = Pending /\
    In task' (live_tasks "w" (monitor_wake w).2).
Proof.
  cbv zeta.
  pose proof (monitor_restarts_crashed_workers
                [Register "w" (worker 1); Start "w";
                 TaskEnds 0 (Failed (Fault "boom"))]) as (Hok & Hfail & _).
  split; [reflexivity|]. split; [reflexivity|]. split; [reflexivity|].
  split; [reflexivity|]. split; [exact Hok|].
  split; [reflexivity|]. split; [reflexivity|].
  exact (proj2 (Hfail "w" 0 _ (Fault "boom") eq_refl eq_refl eq_refl)
           (worker 1) eq_refl eq_refl).
Defined.

End MonitorWake.
(** ** Further properties of the store *)

(** *** What an update merges *)

Lemma merge_lookup (kwargs : list (string * pyval)) :
  NoDup kwargs.*1 ->
  forall (st : SystemState) (key : string),
    foldl (fun s kv => if is_field kv.1 then <[kv.1 := kv.2]> s else s) st kwargs
      !! key
    = match list_find (fun kv => kv.1 = key) kwargs with
      | Some (_, kv) => if is_field key then Some kv.2 else st !! key
      | None => st !! key
      end.
Proof.
  induction kwargs as [|[k v] kwargs IH]; intros Hnd st key; [reflexivity|].
  cbn [fmap list_fmap fst] in Hnd. apply NoDup_cons in Hnd as [Hfresh Hnd].
  cbn [foldl fst snd]. rewrite IH by exact Hnd.
  cbn [list_find fst]. destruct (decide (k = key)) as [->|Hne].
  - assert (Hnone : list_find (fun kv : string * pyval => kv.1 = key) kwargs = None).
    { apply list_find_None. apply Forall_forall. intros [k' v'] Hin Heq.
      cbn in Heq. subst k'. apply Hfresh. apply list_elem_of_fmap.
      exists (key, v'). split; [reflexivity | exact Hin]. }
    rewrite Hnone. cbn. destruct (is_field key); [apply lookup_insert_eq | reflexivity].
  - destruct (list_find (fun kv : string * pyval => kv.1 = key) kwargs)
      as [[i [k' v']]|] eqn:Hfind; cbn.
    + destruct (is_field key); [reflexivity|].
      destruct (is_field k); [apply lookup_insert_ne; exact Hne | reflexivity].
    + destruct (is_field k); [apply lookup_insert_ne; exact Hne | reflexivity].
Qed.

Lemma NoDup_keys_unique {A} (l : list (string * A)) (k : string) (v1 v2 : A) :
  NoDup l.*1 -> (k, v1) ∈ l -> (k, v2) ∈ l -> v1 = v2.
Proof.
  induction l as [|[k0 v0] l IH]; intros Hnd H1 H2.
  - apply elem_of_nil in H1. contradiction.
  - cbn [fmap list_fmap fst] in Hnd. apply NoDup_cons in Hnd as [Hfresh Hnd].
    assert (Hin : forall v, (k0, v) ∈ l -> False).
    { intros v Hv. apply Hfresh. apply list_elem_of_fmap.
      exists (k0, v). split; [reflexivity | exact Hv]. }
    apply elem_of_cons in H1 as [E1|H1]; apply elem_of_cons in H2 as [E2|H2].
    + congruence.
    + injection E1 as -> ->. destruct (Hin _ H2).
    + injection E2 as -> ->. destruct (Hin _ H1).
    + apply IH; assumption.
Qed.

(** [update_state] merges exactly the supplied fields: after a call
    that names each argument once, a declared field that was supplied
    holds the supplied value, [timestamp] holds the time of the call
    (also when a value for it was supplied), and every other field
    holds what it held before. *)
Theorem update_state_merges_supplied_fields
    (class_attr : string -> bool) (now : Z) (kwargs : list (string * pyval))
    (w : world) :
  wf_state (_state (self w)) ->
  Forall faults_only (_subscribers (self w)) ->
  Forall (fun kv => assignable class_attr kv.1) kwargs ->
  NoDup kwargs.*1 ->
  let r := update_state class_attr now kwargs w in
  r.1 = Ok tt /\
  _state (self r.2) !! "timestamp" = Some (VDatetime now) /\
  (forall key value,
     (key, value) ∈ kwargs -> key ∈ field_names -> key <> "timestamp" ->
     _state (self r.2) !! key = Some value) /\
  (forall key,
     key ∉ kwargs.*1 -> key <> "timestamp" ->
     _state (self r.2) !! key = _state (self w) !! key).
Proof.
  intros Hwf Hobs Hkw Hnd r. subst r.
  destruct (update_state_spec class_attr now kwargs w Hwf Hkw Hobs)
    as (w' & evs & Hrun & Hst & _).
  rewrite Hrun. cbn [fst snd]. rewrite Hst. unfold commit.
  split; [reflexivity|]. split; [apply lookup_insert_eq|]. split.
  - intros key value Hin Hfield Hne.
    rewrite lookup_insert_ne by congruence.
    rewrite merge_lookup by exact Hnd.
    destruct (list_find (fun kv : string * pyval => kv.1 = key) kwargs)
      as [[i [k' v']]|] eqn:Hfind.
    + apply list_find_Some in Hfind as (Hi & Hk & _). cbn in Hk. subst k'.
      apply is_field_true in Hfield. rewrite Hfield. cbn. f_equal.
      apply list_elem_of_lookup_2 in Hi.
      exact (NoDup_keys_unique kwargs key v' value Hnd Hi Hin).
    + exfalso. apply list_find_None in Hfind.
      rewrite Forall_forall in Hfind. apply (Hfind _ Hin). reflexivity.
  - intros key Hnotin Hne.
    rewrite lookup_insert_ne by congruence.
    rewrite merge_lookup by exact Hnd.
    destruct (list_find (fun kv : string * pyval => kv.1 = key) kwargs)
      as [[i [k' v']]|] eqn:Hfind; [|reflexivity].
    exfalso. apply list_find_Some in Hfind as (Hi & Hk & _). cbn in Hk. subst k'.
    apply Hnotin. apply list_elem_of_fmap. exists (key, v').
    split; [reflexivity|]. eapply list_elem_of_lookup_2. exact Hi.
Qed.

(** The merge on the store with a raising and a returning observer. *)
Lemma update_state_merges_supplied_fields_witness :
  let kwargs := [ ("battery_soc", VFloat (float_of_Z 60));
                  ("timestamp", VDatetime 1);
                  ("bogus", VNone) ] in
  wf_state (_state (self observed_store)) /\
  Forall faults_only (_subscribers (self observed_store)) /\
  Forall (fun kv => assignable shown_class_attr kv.1) kwargs /\
  NoDup kwargs.*1 /\
  _state (self (update_state shown_class_attr 9 kwargs observed_store).2) !! "timestamp"
  = Some (VDatetime 9) /\
  _state (self (update_state shown_class_attr 9 kwargs observed_store).2) !! "battery_soc"
  = Some (VFloat (float_of_Z 60)).
Proof.
  cbv zeta.
  assert (H3 : Forall (fun kv : string * pyval => assignable shown_class_attr kv.1)
                 [ ("battery_soc", VFloat (float_of_Z 60));
                   ("timestamp", VDatetime 1);
                   ("bogus", VNone) ]).
  { repeat first [ apply Forall_nil_2
                 | apply Forall_cons_2
                 | intros H; vm_compute in H; discriminate H ]. }
  assert (H4 : NoDup ([ ("battery_soc", VFloat (float_of_Z 60));
                        ("timestamp", VDatetime 1);
                        ("bogus", VNone) ] : list (string * pyval)).*1).
  { cbn [fmap list_fmap fst].
    repeat (apply NoDup_cons_2;
            [rewrite ?not_elem_of_cons; repeat split;
             first [discriminate | apply not_elem_of_nil]|]).
    apply NoDup_nil_2. }
  pose proof (update_state_merges_supplied_fields shown_class_attr 9 _
                observed_store observed_store_wf observed_store_faults_only H3 H4)
    as (_ & Hts & Hsup & _).
  split; [exact observed_store_wf|].
  split; [exact observed_store_faults_only|].
  split; [exact H3|]. split; [exact H4|]. split; [exact Hts|].
  apply Hsup.
  - apply elem_of_cons. left. reflexivity.
  - apply is_field_true. reflexivity.
  - discriminate.
Defined.

(** *** An observer that raises past [except Exception] *)

Lemma notify_from_app (pre rest : list callback) :
  Forall faults_only pre ->
  forall (i0 : nat) (w : world),
    notify_from i0 (pre ++ rest) w
    = bind (notify_from i0 pre) (fun _ => notify_from (i0 + length pre) rest) w.
Proof.
  induction 1 as [|cb pre Hcb _ IH]; intros i0 w.
  - cbn [app length notify_from]. unfold bind, ret. rewrite Nat.add_0_r. reflexivity.
  - unfold bind. cbn [app length notify_from].
    pose proof (Hcb (model_copy (_state (self w))) (mem w)) as Hfault.
    destruct (cb (model_copy (_state (self w))) (mem w)) as [[|e] h].
    + rewrite IH. unfold bind. rewrite Nat.add_succ_r. reflexivity.
    + rewrite (Hfault e eq_refl). unfold bind, print.
      rewrite IH. unfold bind. rewrite Nat.add_succ_r. reflexivity.
Qed.

(** An observer that raises something [except Exception] does not
    catch ([SystemExit], a cancellation): the exception leaves
    [update_state] towards the caller, after the update has been
    committed; the observers subscribed before it, and the raising one,
    have been called with the committed state, those subscribed after
    it have not been called. *)
Theorem observer_base_exception_escapes
    (class_attr : string -> bool) (now : Z) (kwargs : list (string * pyval))
    (w : world) (pre post : list callback) (cb : callback) (e : exn) :
  wf_state (_state (self w)) ->
  Forall (fun kv => assignable class_attr kv.1) kwargs ->
  _subscribers (self w) = pre ++ cb :: post ->
  Forall faults_only pre ->
  (forall snap h, (cb snap h).1 = Raised e) ->
  is_Exception e = false ->
  let r := update_state class_attr now kwargs w in
  r.1 = Raise e /\
  _state (self r.2) = commit now kwargs (_state (self w)) /\
  exists evs,
    out r.2 = out w ++ evs /\
    forall i, deliveries i evs
              = if bool_decide (i <= length pre)
                then [model_copy (_state (self r.2))] else [].
Proof.
  intros Hwf Hkw Hsubs Hpre Hcb He r. subst r. unfold update_state.
  destruct (merge_spec class_attr kwargs Hkw w Hwf)
    as (w1 & Hrun1 & Hst1 & Hwf1 & Hsub1 & Hmem1 & Hout1).
  step Hrun1.
  step (setattr_field "timestamp" (VDatetime now) w1 field_timestamp).
  set (w2 := set_state _ w1).
  unfold _notify_subscribers.
  assert (Hsub2 : _subscribers (self w2) = pre ++ cb :: post).
  { subst w2. autorewrite with world. rewrite Hsub1. exact Hsubs. }
  rewrite Hsub2, notify_from_app by exact Hpre.
  destruct (notify_from_spec pre Hpre 0 w2) as (w3 & evs & Hrun3 & Hself3 & Hout3 & Hdel3).
  step Hrun3. cbn [notify_from Nat.add].
  specialize (Hcb (model_copy (_state (self w3))) (mem w3)).
  destruct (cb (model_copy (_state (self w3))) (mem w3)) as [o h].
  cbn [fst] in Hcb. subst o. rewrite He. cbn [fst snd].
  autorewrite with world. rewrite Hself3.
  split; [reflexivity|].
  split; [subst w2; autorewrite with world; rewrite Hst1; reflexivity|].
  exists (evs ++ [Notified (length pre) (model_copy (_state (self w2)))]).
  split.
  { rewrite Hout3. subst w2. autorewrite with world.
    rewrite Hout1, <- app_assoc. reflexivity. }
  intros i. rewrite deliveries_app, Hdel3. cbn [deliveries].
  destruct (Nat.eqb_spec i (length pre)) as [->|Hne].
  - rewrite bool_decide_eq_false_2 by lia.
    rewrite bool_decide_eq_true_2 by lia. reflexivity.
  - repeat case_bool_decide; try reflexivity; lia.
Qed.

(** The escape on a store whose second observer ends the process. *)
Lemma observer_base_exception_escapes_witness :
  wf_state (_state (self store_with_exit)) /\
  Forall (fun kv : string * pyval => assignable shown_class_attr kv.1) [] /\
  _subscribers (self store_with_exit) = [well_behaved] ++ exits :: [well_behaved] /\
  Forall faults_only [well_behaved] /\
  (forall snap h, (exits snap h).1 = Raised SystemExit) /\
  is_Exception SystemExit = false /\
  (update_state shown_class_attr 4 [] store_with_exit).1 = Raise SystemExit /\
  _state (self (update_state shown_class_attr 4 [] store_with_exit).2) !! "timestamp"
  = Some (VDatetime 4).
Proof.
  assert (H1 : wf_state (_state (self store_with_exit)))
    by exact (SystemState_new_wf 0 []).
  assert (H2 : Forall (fun kv : string * pyval => assignable shown_class_attr kv.1) [])
    by apply Forall_nil_2.
  assert (H4 : Forall faults_only [well_behaved]).
  { apply Forall_cons_2; [|apply Forall_nil_2].
    intros snap h e H; simpl in H; discriminate H. }
  assert (H5 : forall snap h, (exits snap h).1 = Raised SystemExit)
    by (intros; reflexivity).
  pose proof (observer_base_exception_escapes shown_class_attr 4 [] store_with_exit
                [well_behaved] [well_behaved] exits SystemExit
                H1 H2 eq_refl H4 H5 eq_refl) as (Hr & Hst & _).
  split; [exact H1|]. split; [exact H2|]. split; [reflexivity|].
  split; [exact H4|]. split; [exact H5|]. split; [reflexivity|].
  split; [exact Hr|]. rewrite Hst. apply lookup_insert_eq.
Defined.

(** *** The bounds, from any history *)

Lemma last_last_n {A} (n : nat) (xs : list A) (x : A) :
  0 < n -> last (last_n n (xs ++ [x])) = Some x.
Proof.
  intros Hn. unfold last_n. rewrite length_app. cbn [length].
  rewrite drop_app_le by lia.
  rewrite last_snoc. reflexivity.
Qed.

(** Whatever the decision history holds before, and however long it
    is, a call of [add_decision] returns and leaves a history of at
    most 100 entries that is a tail of the old entries followed by the
    new decision, which is its last entry and the current decision. *)
Theorem add_decision_restores_bound
    (d : Decision.t) (w : world) (l : loc) (xs : list pyval) :
  _state (self w) !! "decision_history" = Some (VList l) ->
  mem w !! l = Some xs ->
  let r := add_decision d w in
  r.1 = Ok tt /\
  _state (self r.2) !! "current_decision" = Some (VDecision d) /\
  exists ys,
    list_field "decision_history" (_state (self r.2)) (mem r.2) = Some ys /\
    length ys <= 100 /\
    last ys = Some (VDecision d) /\
    ys `suffix_of` (xs ++ [VDecision d]).
Proof.
  intros Hf Hm r. subst r.
  destruct (add_decision_spec d w l xs Hf Hm) as (w' & Hrun & Hhist & _ & Hcur & _).
  rewrite Hrun. cbn [fst snd]. split; [reflexivity|]. split; [exact Hcur|].
  exists (last_n 100 (xs ++ [VDecision d])).
  split; [exact Hhist|].
  split; [rewrite length_last_n; lia|].
  split; [apply last_last_n; lia|].
  apply suffix_drop.
Qed.

(** The bound restored on a history of 150 entries. *)
Lemma add_decision_restores_bound_witness :
  let w := set_mem ((VDecision <$> decisions_upto 150) :: drop 1 (mem (StateManager.new 0 [])))
             (StateManager.new 0 []) in
  _state (self w) !! "decision_history" = Some (VList 0) /\
  mem w !! 0 = Some (VDecision <$> decisions_upto 150) /\
  (add_decision (sample_decision 151) w).1 = Ok tt /\
  exists ys,
    list_field "decision_history"
      (_state (self (add_decision (sample_decision 151) w).2))
      (mem (add_decision (sample_decision 151) w).2) = Some ys /\
    length ys <= 100 /\
    last ys = Some (VDecision (sample_decision 151)) /\
    ys `suffix_of` ((VDecision <$> decisions_upto 150) ++ [VDecision (sample_decision 151)]).
Proof.
  cbv zeta.
  set (w := set_mem _ _).
  assert (H1 : _state (self w) !! "decision_history" = Some (VList 0))
    by (vm_compute; reflexivity).
  assert (H2 : mem w !! 0 = Some (VDecision <$> decisions_upto 150)) by reflexivity.
  pose proof (add_decision_restores_bound (sample_decision 151) w 0 _ H1 H2)
    as (Hr & _ & Hys).
  split; [exact H1|]. split; [exact H2|]. split; [exact Hr | exact Hys].
Defined.

(** Whatever the alert lists hold before, when they are two list
    objects, a call of [add_alert] returns, leaves a history of at most
    50 entries ending with the new alert, and adds the alert to the
    active list without removing anything from it. *)
Theorem add_alert_restores_bound
    (a : Alert.t) (w : world) (la lh : loc) (xa xh : list pyval) :
  _state (self w) !! "active_alerts" = Some (VList la) ->
  _state (self w) !! "alert_history" = Some (VList lh) ->
  la <> lh ->
  mem w !! la = Some xa ->
  mem w !! lh = Some xh ->
  let r := add_alert a w in
  r.1 = Ok tt /\
  list_field "active_alerts" (_state (self r.2)) (mem r.2) = Some (xa ++ [VAlert a]) /\
  exists ys,
    list_field "alert_history" (_state (self r.2)) (mem r.2) = Some ys /\
    length ys <= 50 /\
    last ys = Some (VAlert a) /\
    ys `suffix_of` (xh ++ [VAlert a]).
Proof.
  intros Hfa Hfh Hne Hma Hmh r. subst r.
  destruct (add_alert_spec a w la lh xa xh Hfa Hfh Hne Hma Hmh)
    as (w' & lh' & Hrun & Hfa' & Hma' & Hfh' & _ & Hmh' & _).
  rewrite Hrun. cbn [fst snd]. split; [reflexivity|].
  unfold list_field. rewrite Hfa', Hfh'. split; [exact Hma'|].
  exists (last_n 50 (xh ++ [VAlert a])).
  split; [exact Hmh'|].
  split; [rewrite length_last_n; lia|].
  split; [apply last_last_n; lia|].
  apply suffix_drop.
Qed.

(** The alert bound on a fresh store. *)
Lemma add_alert_restores_bound_witness :
  let w := StateManager.new 0 [] in
  _state (self w) !! "active_alerts" = Some (VList 1) /\
  _state (self w) !! "alert_history" = Some (VList 2) /\
  1 <> 2 /\
  mem w !! 1 = Some [] /\
  mem w !! 2 = Some [] /\
  (add_alert (sample_alert 1) w).1 = Ok tt /\
  list_field "active_alerts" (_state (self (add_alert (sample_alert 1) w).2))
    (mem (add_alert (sample_alert 1) w).2) = Some ([] ++ [VAlert (sample_alert 1)]).
Proof.
  cbv zeta.
  assert (H1 : _state (self (StateManager.new 0 [])) !! "active_alerts"
               = Some (VList 1)) by (vm_compute; reflexivity).
  assert (H2 : _state (self (StateManager.new 0 [])) !! "alert_history"
               = Some (VList 2)) by (vm_compute; reflexivity).
  assert (H3 : 1 <> 2) by lia.
  pose proof (add_alert_restores_bound (sample_alert 1) (StateManager.new 0 [])
                1 2 [] [] H1 H2 H3 eq_refl eq_refl) as (Hr & Hact & _).
  split; [exact H1|]. split; [exact H2|]. split; [exact H3|].
  split; [reflexivity|]. split; [reflexivity|]. split; [exact Hr | exact Hact].
Defined.

(** *** A history that is not a list *)

(** Fields are assigned without validation, so [update_state] can put
    any value where a list is expected.  When [decision_history] holds
    something that is not a list, [add_decision] raises; by then it has
    already made the decision the current one, and it leaves that in
    place. *)
Theorem add_decision_on_non_list_raises
    (d : Decision.t) (w : world) (v : pyval) :
  _state (self w) !! "decision_history" = Some v ->
  (forall l, v <> VList l) ->
  let r := add_decision d w in
  r.1 = Raise (AttributeError "append") /\
  _state (self r.2) !! "current_decision" = Some (VDecision d) /\
  _state (self r.2) !! "decision_history" = Some v /\
  mem r.2 = mem w /\
  out r.2 = out w.
Proof.
  intros Hf Hv r. subst r. unfold add_decision.
  step (setattr_field "current_decision" (VDecision d) w field_current_decision).
  set (w1 := set_state _ w).
  assert (Hf1 : _state (self w1) !! "decision_history" = Some v).
  { subst w1. autorewrite with world. rewrite lookup_insert_ne by discriminate. exact Hf. }
  step (getattr_bound _ _ w1 Hf1).
  unfold bind, append.
  destruct v; try (cbn [fst snd]; subst w1; autorewrite with world;
    split; [reflexivity|]; split; [apply lookup_insert_eq|];
    split; [rewrite lookup_insert_ne by discriminate; exact Hf|];
    split; reflexivity).
  destruct (Hv l eq_refl).
Qed.

(** A store whose decision history was replaced by [None]. *)
Lemma add_decision_on_non_list_raises_witness :
  let w := (update_state shown_class_attr 3 [("decision_history", VNone)]
              (StateManager.new 0 [])).2 in
  _state (self w) !! "decision_history" = Some VNone /\
  (forall l, VNone <> VList l) /\
  (add_decision (sample_decision 1) w).1 = Raise (AttributeError "append") /\
  _state (self (add_decision (sample_decision 1) w).2) !! "current_decision"
  = Some (VDecision (sample_decision 1)).
Proof.
  cbv zeta.
  set (w := (update_state _ _ _ _).2).
  assert (H1 : _state (self w) !! "decision_history" = Some VNone)
    by (vm_compute; reflexivity).
  assert (H2 : forall l, VNone <> VList l) by (intros l; discriminate).
  pose proof (add_decision_on_non_list_raises (sample_decision 1) w VNone H1 H2)
    as (Hr & Hcur & _).
  split; [exact H1|]. split; [exact H2|]. split; [exact Hr | exact Hcur].
Defined.

(** The snapshot of a new store and the first decision. *)
Lemma snapshot_sees_later_decision_witness :
  let w := StateManager.new 0 [] in
  let d := sample_decision 1 in
  _state (self w) !! "decision_history" = Some (VList 0) /\
  mem w !! 0 = Some [] /\
  (get_state w).1 = Ok (_state (self w)) /\
  list_field "decision_history" (_state (self w)) (mem (add_decision d w).2)
  = Some [VDecision d].
Proof.
  cbv zeta.
  assert (H1 : _state (self (StateManager.new 0 [])) !! "decision_history"
               = Some (VList 0)) by (vm_compute; reflexivity).
  assert (H2 : mem (StateManager.new 0 []) !! 0 = Some []) by reflexivity.
  assert (H3 : (get_state (StateManager.new 0 [])).1
               = Ok (_state (self (StateManager.new 0 [])))) by reflexivity.
  split; [exact H1|]. split; [exact H2|]. split; [exact H3|].
  exact (proj2 (snapshot_sees_later_decision (sample_decision 1)
                  (StateManager.new 0 []) 0 [] H1 H2 _ H3)).
Defined.

(** A history of calls with an update on a field and on an unknown
    name. *)
Lemma reachable_store_wf_witness :
  let cs := [ Subscribe always_raises;
              UpdateState 3 [("battery_soc", VFloat (float_of_Z 60)); ("bogus", VNone)];
              AddDecision (sample_decision 1);
              GetState ] in
  Forall (assignable_call shown_class_attr) cs /\
  wf_state (_state (self (StateManager.after shown_class_attr 0 cs))).
Proof.
  cbv zeta.
  assert (H : Forall (assignable_call shown_class_attr)
                [ Subscribe always_raises;
                  UpdateState 3 [("battery_soc", VFloat (float_of_Z 60)); ("bogus", VNone)];
                  AddDecision (sample_decision 1);
                  GetState ]).
  { repeat first [ apply Forall_nil_2
                 | apply Forall_cons_2
                 | exact I
                 | intros H; vm_compute in H; discriminate H ]. }
  split; [exact H|].
  exact (reachable_store_wf shown_class_attr 0 _ H).
Defined.
(** ** Further properties of the scheduler *)

Section StopAndRestart.

Import AgentScheduler.

Lemma live_tasks_spec (name : string) (w : world) (task : nat) :
In task (live_tasks name w) <->
exists t, loop w !! task = Some t /\ spawned_for t = name /\ state t = Pending.
Proof.
split.
- unfold live_tasks. intros Hin. apply filter_In in Hin as [_ Hf].
  destruct (loop w !! task) as [t|]; [|discriminate].
  exists t. split; [reflexivity|].
  apply andb_prop in Hf as [Hn Hs].
  apply String.eqb_eq in Hn. split; [exact Hn|].
  destruct (state t); try discriminate. reflexivity.
- intros (t & Ht & Hn & Hs). eapply live_tasks_In; eassumption.
Qed.

(** [stop_agent] for a name without recorded task. *)
Lemma stop_agent_untracked (name : string) (w : world) :
dict_get name (tasks (self w)) = None -> stop_agent name w = (Ok tt, w).
Proof. intros H. unfold stop_agent, bind, get. rewrite H. reflexivity. Qed.

(** [stop_agent] for a running worker, by what its task does when
  cancelled.  The caller is suspended while it awaits the task. *)
Lemma stop_agent_running (name : string) (task : nat) (t : Task) (w : world) :
dict_get name (tasks (self w)) = Some task ->
loop w !! task = Some t ->
state t = Pending ->
let ended s :=
  <[task := {| spawned_for := spawned_for t; coro := coro t; state := s |}]> (loop w) in
let stopped s :=
  {| self := {| agents := agents (self w);
                tasks := dict_del name (tasks (self w));
                running := running (self w);
                _shutdown_event := _shutdown_event (self w) |};
     loop := ended s;
     log := (log w ++ [Logged "agent_stopped" [("agent", name)] "scheduler"])
              ++ [Print ("Stopped agent: " +:+ name)];
     begun := length (loop w) |} in
stop_agent name w
= match reaction w task t with
  | Propagates => (Ok tt, stopped Cancelled)
  | Swallows => (Ok tt, stopped Finished)
  | Crashes msg =>
      (Raise (Fault msg),
       {| self := self w; loop := ended (Failed (Fault msg)); log := log w;
          begun := length (loop w) |})
  | Ignores =>
      (Blocked,
       {| self := self w; loop := loop w; log := log w;
          begun := length (loop w) |})
  end.
Proof.
intros Htask Ht Hstate ended stopped.
unfold stop_agent, bind at 1, get at 1. rewrite Htask.
rewrite (bind_Ok _ _ _ _ _ (task_done_eq task t w Ht)). rewrite Hstate. cbn [negb].
unfold bind at 1, try_except, cancel_and_await. rewrite Ht. cbv zeta.
fold (reaction w task t).
destruct (reaction w task t);
  unfold bind, suspend, set_task_state, set_loop, raise, ret, get;
  cbn [loop]; rewrite ?Ht; reflexivity.
Qed.

(** The reaction of a task under either condition that makes it end. *)
Lemma reaction_ends (w : world) (task : nat) (t : Task) :
((task < begun w) -> ends_on_cancel (coro t)) ->
reaction w task t = Swallows \/ reaction w task t = Propagates.
Proof.
intros H. unfold reaction. destruct (Nat.ltb_spec task (begun w)) as [Hlt|Hge].
- exact (H Hlt).
- right. reflexivity.
Qed.

(** In a well-kept table, a [stop_agent] that returns leaves no handle
  under the name. *)
Lemma stop_agent_Ok_untracks (name : string) (w : world) :
sched_inv w ->
(stop_agent name w).1 = Ok tt ->
dict_get name (tasks (self (stop_agent name w).2)) = None.
Proof.
intros Hinv Hok.
destruct (dict_get name (tasks (self w))) as [task|] eqn:Htask;
  [|rewrite stop_agent_untracked by exact Htask; exact Htask].
destruct (proj1 (proj2 Hinv) name task Htask) as (t & Ht & _).
destruct (state t) eqn:Hstate.
- rewrite (stop_agent_running name task t w Htask Ht Hstate) in *.
  destruct (reaction w task t); cbn in Hok |- *; try discriminate;
    apply dict_get_del_eq, Hinv.
- destruct (stop_agent_done name task t w Htask Ht) as (w' & Hrun & _ & Hts & _);
    [rewrite Hstate; discriminate|].
  rewrite Hrun. cbn [snd]. rewrite Hts. apply dict_get_del_eq, Hinv.
- destruct (stop_agent_done name task t w Htask Ht) as (w' & Hrun & _ & Hts & _);
    [rewrite Hstate; discriminate|].
  rewrite Hrun. cbn [snd]. rewrite Hts. apply dict_get_del_eq, Hinv.
- destruct (stop_agent_done name task t w Htask Ht) as (w' & Hrun & _ & Hts & _);
    [rewrite Hstate; discriminate|].
  rewrite Hrun. cbn [snd]. rewrite Hts. apply dict_get_del_eq, Hinv.
Qed.

(** Stopping twice: in every state the scheduler can reach, after a
  [stop_agent] that returned, a second [stop_agent] for the same name
  returns and changes nothing, not even the log. *)
Theorem stop_agent_twice_is_once (cs : list call) (name : string) :
let w := after cs in
(stop_agent name w).1 = Ok tt ->
stop_agent name (stop_agent name w).2 = (Ok tt, (stop_agent name w).2).
Proof.
intros w Hok. apply stop_agent_untracked.
apply stop_agent_Ok_untracks; [apply after_inv | exact Hok].
Qed.

(** Stopping twice a worker that was started. *)
Lemma stop_agent_twice_is_once_witness :
let w := after [Register "w" (worker 1); Start "w"] in
(stop_agent "w" w).1 = Ok tt /\
stop_agent "w" (stop_agent "w" w).2 = (Ok tt, (stop_agent "w" w).2).
Proof.
cbv zeta. split; [reflexivity|].
exact (stop_agent_twice_is_once [Register "w" (worker 1); Start "w"] "w" eq_refl).
Defined.

(** Stopping a running worker, in every state the scheduler can
  reach.  If the task has not begun, or its coroutine ends when
  cancelled, [stop_agent] returns and the task has ended: finished if
  it had begun and its coroutine caught the cancellation, cancelled
  otherwise (a task that has not begun is cancelled before its
  coroutine runs).  The handle is gone, the entries of the other
  workers and the number of tasks are as before. *)
Theorem stop_agent_ends_running_worker
  (cs : list call) (name : string) (task : nat) (t : Task) :
let w := after cs in
dict_get name (tasks (self w)) = Some task ->
loop w !! task = Some t ->
state t = Pending ->
(task < begun w -> ends_on_cancel (coro t)) ->
let r := stop_agent name w in
r.1 = Ok tt /\
dict_get name (tasks (self r.2)) = None /\
(forall other, other <> name ->
   dict_get other (tasks (self r.2)) = dict_get other (tasks (self w))) /\
(exists t', loop r.2 !! task = Some t' /\
            state t' = if (task <? begun w)%nat
                       then match on_cancel (coro t) with
                            | Swallows => Finished
                            | _ => Cancelled
                            end
                       else Cancelled) /\
~ In task (live_tasks name r.2) /\
length (loop r.2) = length (loop w) /\
agents (self r.2) = agents (self w).
Proof.
intros w Htask Ht Hstate Hends r. subst r.
pose proof (after_inv cs) as Hinv. fold w in Hinv.
assert (Hlt : task < length (loop w)) by (eapply lookup_lt_Some; exact Ht).
rewrite (stop_agent_running name task t w Htask Ht Hstate).
assert (Hstate' :
  (if (task <? begun w)%nat
   then match on_cancel (coro t) with Swallows => Finished | _ => Cancelled end
   else Cancelled)
  = match reaction w task t with Swallows => Finished | _ => Cancelled end).
{ unfold reaction. destruct (task <? begun w)%nat; reflexivity. }
rewrite Hstate'. clear Hstate'.
destruct (reaction_ends w task t Hends) as [Hc|Hc]; rewrite Hc;
  cbn [fst snd self tasks loop agents].
- split; [reflexivity|]. split; [apply dict_get_del_eq, Hinv|].
  split; [intros other Hne; apply dict_get_del_ne; congruence|].
  split; [eexists; split; [apply list_lookup_insert_eq; exact Hlt | reflexivity]|].
  split.
  { intros Hin. apply live_tasks_spec in Hin as (t' & Ht' & _ & Hs').
    cbn [loop] in Ht'. rewrite list_lookup_insert_eq in Ht' by exact Hlt.
    injection Ht' as <-. discriminate Hs'. }
  split; [apply length_insert | reflexivity].
- split; [reflexivity|]. split; [apply dict_get_del_eq, Hinv|].
  split; [intros other Hne; apply dict_get_del_ne; congruence|].
  split; [eexists; split; [apply list_lookup_insert_eq; exact Hlt | reflexivity]|].
  split.
  { intros Hin. apply live_tasks_spec in Hin as (t' & Ht' & _ & Hs').
    cbn [loop] in Ht'. rewrite list_lookup_insert_eq in Ht' by exact Hlt.
    injection Ht' as <-. discriminate Hs'. }
  split; [apply length_insert | reflexivity].
Qed.

(** The stop of a worker of the repository: started with the others by
  [start_all_agents], it has begun and ends finished; started alone
  and stopped at once, it has not begun and ends cancelled. *)
Lemma stop_agent_ends_running_worker_witness :
let w := after [Register "w" (worker 1); StartAll] in
let w' := after [Register "w" (worker 1); Start "w"] in
dict_get "w" (tasks (self w)) = Some 0 /\
loop w !! 0 = Some {| spawned_for := "w"; coro := worker 1; state := Pending |} /\
(0 < begun w -> ends_on_cancel (worker 1)) /\
(stop_agent "w" w).1 = Ok tt /\
dict_get "w" (tasks (self (stop_agent "w" w).2)) = None /\
loop (stop_agent "w" w).2 !! 0
= Some {| spawned_for := "w"; coro := worker 1; state := Finished |} /\
begun w' = 0 /\
(stop_agent "w" w').1 = Ok tt /\
loop (stop_agent "w" w').2 !! 0
= Some {| spawned_for := "w"; coro := worker 1; state := Cancelled |}.
Proof.
cbv zeta.
assert (He : ends_on_cancel (worker 1)) by (left; reflexivity).
pose proof (stop_agent_ends_running_worker [Register "w" (worker 1); StartAll]
              "w" 0 _ eq_refl eq_refl eq_refl (fun _ => He)) as (H1 & H2 & _).
pose proof (stop_agent_ends_running_worker [Register "w" (worker 1); Start "w"]
              "w" 0 _ eq_refl eq_refl eq_refl (fun _ => He)) as (H3 & _).
split; [reflexivity|]. split; [reflexivity|]. split; [exact (fun _ => He)|].
split; [exact H1|]. split; [exact H2|]. split; [reflexivity|].
split; [reflexivity|]. split; [exact H3 | reflexivity].
Defined.

End StopAndRestart.

Section CrashAndRestart.

Import AgentScheduler.

(** A worker that has begun and whose coroutine raises when cancelled
  cannot be stopped for good: in every state the scheduler can
  reach, [stop_agent] raises that exception, logs nothing and keeps
  the handle of the task, which has now ended with the exception; so
  the next turn of the monitor returns with the worker started
  again. *)
Theorem stop_of_crashing_worker_is_undone
  (cs : list call) (name : string) (task : nat) (t : Task) (msg : string)
  (agent : Agent) :
let w := after cs in
dict_get name (tasks (self w)) = Some task ->
loop w !! task = Some t ->
state t = Pending ->
task < begun w ->
on_cancel (coro t) = Crashes msg ->
dict_get name (agents (self w)) = Some agent ->
has_start agent = true ->
let r := stop_agent name w in
r.1 = Raise (Fault msg) /\
tasks (self r.2) = tasks (self w) /\
log r.2 = log w /\
(exists t', loop r.2 !! task = Some t' /\ state t' = Failed (Fault msg)) /\
let m := monitor_wake r.2 in
m.1 = Ok tt /\
exists task' t',
  dict_get name (tasks (self m.2)) = Some task' /\
  loop m.2 !! task' = Some t' /\
  coro t' = agent /\
  state t' = Pending.
Proof.
intros w Htask Ht Hstate Hbegun Hc Ha Hs r.
pose proof (keeps_stop_agent name w (after_inv cs)) as Hinv. fold r in Hinv.
assert (Hlt : task < length (loop w)) by (eapply lookup_lt_Some; exact Ht).
assert (Hreact : reaction w task t = Crashes msg).
{ unfold reaction. apply Nat.ltb_lt in Hbegun. rewrite Hbegun. exact Hc. }
assert (Hr : r = (Raise (Fault msg),
                  {| self := self w;
                     loop := <[task := {| spawned_for := spawned_for t; coro := coro t;
                                          state := Failed (Fault msg) |}]> (loop w);
                     log := log w;
                     begun := length (loop w) |})).
{ subst r. rewrite (stop_agent_running name task t w Htask Ht Hstate), Hreact.
  reflexivity. }
rewrite Hr in *. cbn [fst snd self loop log] in *.
split; [reflexivity|]. split; [reflexivity|]. split; [reflexivity|].
assert (Ht' : <[task := {| spawned_for := spawned_for t; coro := coro t;
                           state := Failed (Fault msg) |}]> (loop w) !! task
              = Some {| spawned_for := spawned_for t; coro := coro t;
                        state := Failed (Fault msg) |})
  by (apply list_lookup_insert_eq; exact Hlt).
split; [eexists; split; [exact Ht' | reflexivity]|].
cbv zeta.
destruct (monitor_wake_spec _ Hinv) as (w' & ext & l & Hrun & _ & _ & _ & Hfail).
rewrite Hrun. cbn [fst snd]. split; [reflexivity|].
destruct (Hfail name task _ (Fault msg) Htask Ht' eq_refl) as [_ Hnew].
destruct (Hnew agent Ha Hs) as (task' & Hget & _ & Hlook).
exists task', {| spawned_for := name; coro := agent; state := Pending |}.
split; [exact Hget|]. split; [exact Hlook|]. split; reflexivity.
Qed.

(** A worker that crashes when cancelled, started by
  [start_all_agents] and then stopped. *)
Lemma stop_of_crashing_worker_is_undone_witness :
let stubborn := {| ident := 7; has_start := true; on_cancel := Crashes "no" |} in
let w := after [Register "w" stubborn; StartAll] in
dict_get "w" (tasks (self w)) = Some 0 /\
loop w !! 0 = Some {| spawned_for := "w"; coro := stubborn; state := Pending |} /\
0 < begun w /\
dict_get "w" (agents (self w)) = Some stubborn /\
(stop_agent "w" w).1 = Raise (Fault "no") /\
tasks (self (stop_agent "w" w).2) = tasks (self w).
Proof.
cbv zeta.
assert (Hb : 0 < begun (after [Register "w" {| ident := 7; has_start := true;
                                               on_cancel := Crashes "no" |};
                               StartAll])) by (cbn; lia).
pose proof (stop_of_crashing_worker_is_undone
              [Register "w" {| ident := 7; has_start := true; on_cancel := Crashes "no" |};
               StartAll] "w" 0 _ "no" _
              eq_refl eq_refl eq_refl Hb eq_refl eq_refl eq_refl) as (H1 & H2 & _).
split; [reflexivity|]. split; [reflexivity|]. split; [exact Hb|].
split; [reflexivity|]. split; [exact H1 | exact H2].
Defined.

(** Restarting a running worker whose coroutine ends when cancelled,
  in every state the scheduler can reach: [restart_agent] returns,
  the old task has ended, and the name is bound to one new running
  task of the registered agent; of the live tasks started under the
  name, exactly the old one is gone and the new one is added. *)
Theorem restart_agent_replaces_running_task
  (cs : list call) (name : string) (task : nat) (t : Task) (agent : Agent) :
let w := after cs in
dict_get name (tasks (self w)) = Some task ->
loop w !! task = Some t ->
state t = Pending ->
ends_on_cancel (coro t) ->
dict_get name (agents (self w)) = Some agent ->
has_start agent = true ->
let r := restart_agent name w in
r.1 = Ok tt /\
dict_get name (tasks (self r.2)) = Some (length (loop w)) /\
loop r.2 !! length (loop w)
= Some {| spawned_for := name; coro := agent; state := Pending |} /\
(forall i, In i (live_tasks name r.2) <->
           (In i (live_tasks name w) /\ i <> task) \/ i = length (loop w)).
Proof.
intros w Htask Ht Hstate Hends Ha Hs r.
assert (Hlt : task < length (loop w)) by (eapply lookup_lt_Some; exact Ht).
set (s := match reaction w task t with Swallows => Finished | _ => Cancelled end).
assert (Hsdone : s <> Pending) by (subst s; destruct (reaction w task t); discriminate).
set (w1 := {| self := {| agents := agents (self w);
                        tasks := dict_del name (tasks (self w));
                        running := running (self w);
                        _shutdown_event := _shutdown_event (self w) |};
             loop := <[task := {| spawned_for := spawned_for t; coro := coro t;
                                  state := s |}]> (loop w);
             log := (log w ++ [Logged "agent_stopped" [("agent", name)] "scheduler"])
                      ++ [Print ("Stopped agent: " +:+ name)];
             begun := length (loop w) |}).
assert (Hstop : stop_agent name w = (Ok tt, w1)).
{ rewrite (stop_agent_running name task t w Htask Ht Hstate).
  subst w1 s.
  destruct (reaction_ends w task t (fun _ => Hends)) as [Hc|Hc]; rewrite Hc;
    reflexivity. }
set (w2 := {| self := self w1; loop := loop w1; log := log w1 ++ [Slept 1];
              begun := length (loop w1) |}).
destruct (start_agent_spec name agent w2 Ha Hs)
  as (w3 & Hstart & _ & Hts3 & Hloop3 & _).
assert (Hr : r = (Ok tt, {| self := self w3; loop := loop w3;
                           log := log w3 ++ [Logged "agent_restarted"
                                               [("agent", name)] "scheduler"];
                           begun := begun w3 |})).
{ subst r. unfold restart_agent. rewrite (bind_Ok _ _ _ _ _ Hstop).
  rewrite (bind_Ok _ _ _ _ _ (sleep_eq 1 w1)). fold w2.
  rewrite (bind_Ok _ _ _ _ _ Hstart). reflexivity. }
rewrite Hr. cbn [fst snd self loop].
assert (Hlen : length (loop w2) = length (loop w))
  by (cbn; apply length_insert).
rewrite Hts3, Hloop3, Hlen.
split; [reflexivity|]. split; [apply dict_get_set_eq|].
split; [rewrite lookup_app_r by lia; rewrite Hlen, Nat.sub_diag; reflexivity|].
intros i. rewrite !live_tasks_spec. cbn [loop].
destruct (proj1 (proj2 (after_inv cs)) name task Htask) as (t0 & Ht0 & Hname).
fold w in Ht0. assert (t0 = t) by congruence. subst t0.
destruct (decide (i = length (loop w))) as [->|Hi].
{ split; [intros _; right; reflexivity|]. intros _.
  exists {| spawned_for := name; coro := agent; state := Pending |}.
  split; [|split; reflexivity].
  rewrite lookup_app_r by lia. rewrite Hlen, Nat.sub_diag. reflexivity. }
destruct (decide (i = task)) as [->|Hit].
{ split.
  - intros (t' & Ht' & _ & Hs').
    rewrite lookup_app_l in Ht' by lia. cbn [loop w2 w1] in Ht'.
    rewrite list_lookup_insert_eq in Ht' by exact Hlt.
    injection Ht' as <-. cbn in Hs'. contradiction.
  - intros [[_ Hne]|Heq]; [contradiction | lia]. }
split.
- intros (t' & Ht' & Hn' & Hs'). left. split; [|exact Hit].
  exists t'. split; [|split; assumption].
  destruct (decide (i < length (loop w))) as [Hlti|Hge].
  + rewrite lookup_app_l in Ht' by lia. cbn [loop w2 w1] in Ht'.
    rewrite list_lookup_insert_ne in Ht' by congruence. exact Ht'.
  + apply lookup_lt_Some in Ht'. rewrite length_app, Hlen in Ht'. cbn in Ht'. lia.
- intros [[(t' & Ht' & Hn' & Hs') _]|Heq]; [|contradiction].
  exists t'. split; [|split; assumption].
  rewrite lookup_app_l by (apply lookup_lt_Some in Ht'; lia). cbn [loop w2 w1].
  rewrite list_lookup_insert_ne by congruence. exact Ht'.
Qed.

(** The restart of a running worker of the repository. *)
Lemma restart_agent_replaces_running_task_witness :
let w := after [Register "w" (worker 1); Start "w"] in
dict_get "w" (tasks (self w)) = Some 0 /\
loop w !! 0 = Some {| spawned_for := "w"; coro := worker 1; state := Pending |} /\
ends_on_cancel (worker 1) /\
dict_get "w" (agents (self w)) = Some (worker 1) /\
(restart_agent "w" w).1 = Ok tt /\
live_tasks "w" w = [0] /\
live_tasks "w" (restart_agent "w" w).2 = [1].
Proof.
cbv zeta.
assert (He : ends_on_cancel (worker 1)) by (left; reflexivity).
pose proof (restart_agent_replaces_running_task [Register "w" (worker 1); Start "w"]
              "w" 0 _ (worker 1) eq_refl eq_refl eq_refl He eq_refl eq_refl)
  as (H1 & _).
split; [reflexivity|]. split; [reflexivity|]. split; [exact He|].
split; [reflexivity|]. split; [exact H1|]. split; reflexivity.
Defined.

End CrashAndRestart.

Section MonitorGuard.

Import AgentScheduler.

(** *** The flags that guard the monitor *)

Lemma keeps_flags_bind {A B} (f : bool * bool) (m : Op A) (k : A -> Op B) :
keeps (fun w => flags w = f) m ->
(forall a, keeps (fun w => flags w = f) (k a)) ->
keeps (fun w => flags w = f) (bind m k).
Proof. apply keeps_bind. Qed.

Lemma keeps_flags_record f (e : trace) : keeps (fun w => flags w = f) (record e).
Proof. intros w H. exact H. Qed.

Lemma keeps_flags_get {A} f (g : world -> A) : keeps (fun w => flags w = f) (get g).
Proof. intros w H. exact H. Qed.

Lemma keeps_flags_raise {A} f (e : exn) : keeps (fun w => flags w = f) (@raise world A e).
Proof. intros w H. exact H. Qed.

Lemma keeps_flags_set_agents f a : keeps (fun w => flags w = f) (set_agents a).
Proof. intros w H. exact H. Qed.

Lemma keeps_flags_set_tasks f ts : keeps (fun w => flags w = f) (set_tasks ts).
Proof. intros w H. exact H. Qed.

Lemma keeps_flags_create_task f name agent :
keeps (fun w => flags w = f) (create_task name agent).
Proof. intros w H. exact H. Qed.

Lemma keeps_flags_task_state_of f task : keeps (fun w => flags w = f) (task_state_of task).
Proof. intros w H. unfold task_state_of. destruct (loop w !! task); exact H. Qed.

Lemma keeps_flags_set_task_state f task s :
keeps (fun w => flags w = f) (set_task_state task s).
Proof. intros w H. unfold set_task_state. destruct (loop w !! task); exact H. Qed.

Lemma keeps_flags_task_done f task : keeps (fun w => flags w = f) (task_done task).
Proof.
apply keeps_bind; [apply keeps_flags_task_state_of | intros s; apply keeps_ret].
Qed.

Lemma keeps_flags_task_cancelled f task :
keeps (fun w => flags w = f) (task_cancelled task).
Proof.
apply keeps_bind; [apply keeps_flags_task_state_of | intros s; apply keeps_ret].
Qed.

Lemma keeps_flags_task_exception f task :
keeps (fun w => flags w = f) (task_exception task).
Proof.
apply keeps_bind; [apply keeps_flags_task_state_of | intros s].
destruct s; first [apply keeps_ret | apply keeps_flags_raise].
Qed.

Lemma keeps_flags_suspend f : keeps (fun w => flags w = f) suspend.
Proof. intros w H. exact H. Qed.

Lemma keeps_flags_sleep f (seconds : nat) : keeps (fun w => flags w = f) (sleep seconds).
Proof. intros w H. exact H. Qed.

Lemma keeps_flags_cancel_and_await f task :
keeps (fun w => flags w = f) (cancel_and_await task).
Proof.
intros w H. unfold cancel_and_await.
destruct (loop w !! task) as [t|] eqn:Ht; [|exact H].
cbv zeta.
destruct (if (task <? begun w)%nat then on_cancel (coro t) else Propagates);
  refine (keeps_bind (fun w => flags w = f) suspend _ _ _ w H);
  try apply keeps_flags_suspend; intros _.
- apply keeps_bind; [apply keeps_flags_set_task_state | intros _; apply keeps_flags_raise].
- apply keeps_flags_set_task_state.
- apply keeps_bind; [apply keeps_flags_set_task_state | intros _; apply keeps_flags_raise].
- intros w' H'. exact H'.
Qed.

Lemma keeps_flags_register_agent f name agent :
keeps (fun w => flags w = f) (register_agent name agent).
Proof. intros w H. exact H. Qed.

Lemma keeps_flags_start_agent f name : keeps (fun w => flags w = f) (start_agent name).
Proof.
unfold start_agent.
apply keeps_bind; [apply keeps_flags_get | intros a].
destruct (dict_get name a) as [agent|]; [|apply keeps_flags_raise].
destruct (has_start agent); [|apply keeps_flags_record].
apply keeps_bind; [apply keeps_flags_create_task | intros task].
apply keeps_bind; [apply keeps_flags_get | intros ts].
apply keeps_bind; [apply keeps_flags_set_tasks | intros _].
apply keeps_bind; [apply keeps_flags_record | intros _; apply keeps_flags_record].
Qed.

Lemma keeps_flags_stop_agent f name : keeps (fun w => flags w = f) (stop_agent name).
Proof.
unfold stop_agent.
apply keeps_bind; [apply keeps_flags_get | intros ts].
destruct (dict_get name ts) as [task|]; [|apply keeps_ret].
apply keeps_bind; [apply keeps_flags_task_done | intros done].
apply keeps_bind; [|intros _].
{ destruct done; cbn [negb]; [apply keeps_ret|].
  apply keeps_try_except; [apply keeps_flags_cancel_and_await | intros _; apply keeps_ret]. }
apply keeps_bind; [apply keeps_flags_get | intros ts'].
apply keeps_bind; [apply keeps_flags_set_tasks | intros _].
apply keeps_bind; [apply keeps_flags_record | intros _; apply keeps_flags_record].
Qed.

Lemma keeps_flags_restart_agent f name : keeps (fun w => flags w = f) (restart_agent name).
Proof.
unfold restart_agent.
apply keeps_bind; [apply keeps_flags_stop_agent | intros _].
apply keeps_bind; [apply keeps_flags_sleep | intros _].
apply keeps_bind; [apply keeps_flags_start_agent | intros _].
apply keeps_flags_record.
Qed.

Lemma keeps_flags_monitor_wake f : keeps (fun w => flags w = f) monitor_wake.
Proof.
unfold monitor_wake. apply keeps_try_except.
- apply keeps_bind; [|intros _; apply keeps_flags_sleep].
  unfold monitor_scan.
  apply keeps_bind; [apply keeps_flags_get | intros ts].
  apply keeps_for_each. intros [name task]. cbn [fst snd]. unfold monitor_check.
  apply keeps_bind; [apply keeps_flags_task_done | intros done].
  apply keeps_bind; [apply keeps_flags_task_cancelled | intros cancelled].
  destruct (done && negb cancelled); [|apply keeps_ret].
  apply keeps_bind; [apply keeps_flags_task_exception | intros [e|]]; [|apply keeps_ret].
  apply keeps_bind; [apply keeps_flags_record | intros _].
  apply keeps_bind; [apply keeps_flags_record | intros _].
  apply keeps_flags_restart_agent.
- intros e. apply keeps_bind; [apply keeps_flags_record | intros _; apply keeps_flags_sleep].
Qed.

Lemma keeps_flags_get_agent_status f : keeps (fun w => flags w = f) get_agent_status.
Proof.
unfold get_agent_status.
apply keeps_bind; [apply keeps_flags_get | intros ts].
generalize (@nil (string * Status.t)).
induction ts as [|[name task] ts IH]; intros status; [apply keeps_ret|].
cbn [status_items].
apply keeps_bind; [apply keeps_flags_task_done | intros done].
apply keeps_bind; [apply keeps_flags_task_cancelled | intros cancelled].
apply keeps_bind; [apply keeps_flags_task_exception | intros exception].
apply IH.
Qed.

Lemma keeps_flags_task_ends f task s : keeps (fun w => flags w = f) (task_ends task s).
Proof.
unfold task_ends.
apply keeps_bind; [apply keeps_flags_suspend | intros _].
apply keeps_bind; [apply keeps_flags_task_state_of | intros s0].
destruct s0, s; first [apply keeps_ret | apply keeps_flags_set_task_state].
Qed.

Lemma flags_gather f (calls : list (Op unit)) :
Forall (keeps (fun w => flags w = f)) calls ->
keeps (fun w => flags w = f) (gather calls).
Proof. apply keeps_gather, keeps_flags_suspend. Qed.

(** [start_all_agents] sets [running] and leaves the shutdown event. *)
Lemma flags_start_all_agents (w : world) :
flags (start_all_agents w).2 = (true, _shutdown_event (self w)).
Proof.
unfold start_all_agents. unfold bind at 1, get at 1. unfold bind at 1, set_flags at 1.
lazymatch goal with
| |- flags (?m ?w0).2 = ?f =>
    cut (keeps (fun w' => flags w' = f) m);
      [intros K; apply (K w0); reflexivity|]
end.
apply keeps_bind; [apply keeps_flags_get | intros a].
apply keeps_bind; [apply keeps_flags_record | intros _].
apply keeps_bind; [|intros _; apply keeps_flags_record].
apply flags_gather, Forall_fmap, Forall_forall. intros name _.
apply keeps_flags_start_agent.
Qed.

(** [stop_all_agents] clears [running] and sets the shutdown event. *)
Lemma flags_stop_all_agents (w : world) : flags (stop_all_agents w).2 = (false, true).
Proof.
unfold stop_all_agents. unfold bind at 1, set_flags at 1.
lazymatch goal with
| |- flags (?m ?w0).2 = ?f =>
    cut (keeps (fun w' => flags w' = f) m);
      [intros K; apply (K w0); reflexivity|]
end.
apply keeps_bind; [apply keeps_flags_get | intros ts].
apply keeps_bind; [|intros _].
{ apply flags_gather, Forall_fmap, Forall_forall. intros name _.
  apply keeps_flags_stop_agent. }
apply keeps_bind; [apply keeps_flags_record | intros _; apply keeps_flags_record].
Qed.

Lemma flags_shutdown (w : world) : flags (shutdown w).2 = (false, true).
Proof.
unfold shutdown. unfold bind at 1, print at 1, record at 1.
unfold bind at 1.
pose proof (flags_stop_all_agents
              {| self := self w; loop := loop w;
                 log := log w ++ [Print "Shutting down scheduler..."];
                 begun := begun w |}) as H.
destruct (stop_all_agents _) as [[[]|e|] w1]; cbn [snd] in *; exact H.
Qed.

(** How a call changes the flags. *)
Lemma flags_perform (c : call) (w : world) :
flags (perform c w)
= match c with
  | StartAll => (true, (flags w).2)
  | StopAll | Shutdown => (false, true)
  | _ => flags w
  end.
Proof.
destruct c; cbn [perform].
- apply (keeps_flags_register_agent (flags w) name agent w eq_refl).
- apply (keeps_flags_start_agent (flags w) name w eq_refl).
- apply (keeps_flags_stop_agent (flags w) name w eq_refl).
- apply (keeps_flags_restart_agent (flags w) name w eq_refl).
- apply flags_start_all_agents.
- apply flags_stop_all_agents.
- apply (keeps_flags_get_agent_status (flags w) w eq_refl).
- apply (keeps_flags_monitor_wake (flags w) w eq_refl).
- apply flags_shutdown.
- apply (keeps_flags_task_ends (flags w) task s w eq_refl).
Qed.

(** The loop of [monitor_agents] is not entered when the guard fails. *)
Lemma monitor_agents_guard (n : nat) (w : world) :
(flags w).1 && negb (flags w).2 = false -> monitor_agents n w = (Ok tt, w).
Proof.
intros H. unfold flags in H. cbn [fst snd] in H.
destruct n; cbn [monitor_agents]; rewrite H; reflexivity.
Qed.

(** The shutdown event is never cleared: once it is set, whatever is
  called afterwards, [start_all_agents] included, it stays set, and
  [monitor_agents] returns at once without looking at any task. *)
Theorem shutdown_event_is_never_cleared (w : world) (cs : list call) :
_shutdown_event (self w) = true ->
_shutdown_event (self (continue w cs)) = true /\
forall n, monitor_agents n (continue w cs) = (Ok tt, continue w cs).
Proof.
intros Hs.
assert (H : (flags (continue w cs)).2 = true).
{ unfold continue. revert w Hs. induction cs as [|c cs IH]; intros w Hs; [exact Hs|].
  cbn [foldl]. apply IH.
  change ((flags (perform c w)).2 = true). rewrite flags_perform.
  destruct c; try reflexivity; exact Hs. }
split; [exact H|]. intros n. apply monitor_agents_guard.
rewrite H. apply andb_false_r.
Qed.

(** A scheduler stopped with [stop_all_agents] and started again. *)
Lemma shutdown_event_is_never_cleared_witness :
let w := after [Register "w" (worker 1); StartAll; StopAll] in
_shutdown_event (self w) = true /\
running (self (continue w [StartAll])) = true /\
live_tasks "w" (continue w [StartAll]) = [1] /\
monitor_agents 5 (continue w [StartAll]) = (Ok tt, continue w [StartAll]).
Proof.
cbv zeta.
pose proof (shutdown_event_is_never_cleared
              (after [Register "w" (worker 1); StartAll; StopAll]) [StartAll] eq_refl)
  as [_ H].
split; [reflexivity|]. split; [reflexivity|]. split; [reflexivity|]. exact (H 5).
Defined.

(** Only [start_all_agents] sets [running]: after any history of calls
  without it, workers started one by one with [start_agent] included,
  [monitor_agents] returns at once, so no crashed worker is
  restarted. *)
Theorem monitor_needs_start_all (cs : list call) :
~ In StartAll cs ->
running (self (after cs)) = false /\
forall n, monitor_agents n (after cs) = (Ok tt, after cs).
Proof.
intros Hno.
assert (H : forall w, (flags w).1 = false -> (flags (continue w cs)).1 = false).
{ unfold continue. induction cs as [|c cs IH]; intros w Hw; [exact Hw|].
  cbn [foldl]. apply IH.
  - intros Hin. apply Hno. right. exact Hin.
  - rewrite flags_perform. destruct c; try reflexivity; try exact Hw.
    exfalso. apply Hno. left. reflexivity. }
specialize (H new eq_refl). change (continue new cs) with (after cs) in H.
split; [exact H|]. intros n. apply monitor_agents_guard. rewrite H. reflexivity.
Qed.

(** A worker started by [start_agent] whose task has crashed. *)
Lemma monitor_needs_start_all_witness :
let cs := [Register "w" (worker 1); Start "w"; TaskEnds 0 (Failed (Fault "boom"))] in
~ In StartAll cs /\
live_tasks "w" (after cs) = [] /\
monitor_agents 3 (after cs) = (Ok tt, after cs).
Proof.
cbv zeta.
assert (Hno : ~ In StartAll [Register "w" (worker 1); Start "w";
                             TaskEnds 0 (Failed (Fault "boom"))]).
{ intros H. repeat (destruct H as [H|H]; [discriminate H|]). exact H. }
split; [exact Hno|]. split; [reflexivity|].
exact (proj2 (monitor_needs_start_all _ Hno) 3).
Defined.

End MonitorGuard.

Section HealthyAndStatus.

Import AgentScheduler.

(** *** What the monitor leaves alone *)

Lemma monitor_check_leaves (name : string) (task : nat) (t : Task) (w : world) :
loop w !! task = Some t ->
(forall e, state t <> Failed e) ->
monitor_check name task w = (Ok tt, w).
Proof.
intros Ht Hnf. unfold monitor_check.
rewrite (bind_Ok _ _ _ _ _ (task_done_eq task t w Ht)).
rewrite (bind_Ok _ _ _ _ _ (task_cancelled_eq task t w Ht)).
destruct (state t) eqn:Hs; cbn [andb negb]; try reflexivity.
- rewrite (bind_Ok _ _ _ _ _ (task_exception_finished task t w Ht Hs)). reflexivity.
- destruct (Hnf e eq_refl).
Qed.

(** A turn of the monitor restarts nothing but crashed workers: in
  every state the scheduler can reach in which no recorded task has
  ended with an exception (tasks that run, that returned, or that
  were cancelled), the turn returns and changes nothing except for
  the pause of 30 seconds, during which the tasks created so far
  begin. *)
Theorem monitor_leaves_healthy_workers (cs : list call) :
let w := after cs in
(forall name task t e,
   dict_get name (tasks (self w)) = Some task ->
   loop w !! task = Some t ->
   state t <> Failed e) ->
monitor_wake w
= (Ok tt, {| self := self w; loop := loop w; log := log w ++ [Slept 30];
             begun := length (loop w) |}).
Proof.
intros w Hhealthy.
pose proof (after_inv cs) as Hinv. fold w in Hinv.
assert (Hscan : forall its : list (string * nat),
  (forall name task, (name, task) ∈ its -> dict_get name (tasks (self w)) = Some task) ->
  for_each its (fun item => monitor_check item.1 item.2) w = (Ok tt, w)).
{ induction its as [|[name task] its IH]; intros Hits; [reflexivity|].
  cbn [for_each fst snd].
  assert (Htask : dict_get name (tasks (self w)) = Some task) by (apply Hits; left).
  destruct (proj1 (proj2 Hinv) name task Htask) as (t & Ht & _).
  rewrite (bind_Ok _ _ _ _ _ (monitor_check_leaves name task t w Ht
             (fun e => Hhealthy name task t e Htask Ht))).
  apply IH. intros n k Hin. apply Hits. right. exact Hin. }
unfold monitor_wake, try_except, monitor_scan.
unfold bind at 1. unfold bind at 1, get at 1.
rewrite Hscan; [reflexivity|].
intros name task Hin. apply dict_get_item; [exact (proj1 Hinv) | exact Hin].
Qed.

(** A turn of the monitor over a running, a finished and a cancelled
  worker. *)
Lemma monitor_leaves_healthy_workers_witness :
let cs := [Register "a" (worker 1); Register "b" (worker 2); Register "c" (worker 3);
           StartAll; TaskEnds 1 Finished; TaskEnds 2 Cancelled] in
(forall name task t e,
   dict_get name (tasks (self (after cs))) = Some task ->
   loop (after cs) !! task = Some t ->
   state t <> Failed e) /\
tasks (self (monitor_wake (after cs)).2) = [("a", 0); ("b", 1); ("c", 2)].
Proof.
cbv zeta.
set (cs := [Register "a" (worker 1); Register "b" (worker 2); Register "c" (worker 3);
            StartAll; TaskEnds 1 Finished; TaskEnds 2 Cancelled]).
assert (H : forall name task t e,
   dict_get name (tasks (self (after cs))) = Some task ->
   loop (after cs) !! task = Some t ->
   state t <> Failed e).
{ intros name task t e Hget Ht.
  assert (Hall : Forall (fun t => forall e, state t <> Failed e) (loop (after cs))).
  { repeat (apply Forall_cons_2; [intros e'; discriminate|]). apply Forall_nil_2. }
  rewrite Forall_forall in Hall. apply Hall. eapply list_elem_of_lookup_2. exact Ht. }
split; [exact H|].
rewrite (monitor_leaves_healthy_workers cs H). reflexivity.
Defined.

(** *** When the status is reported *)

Lemma status_items_Ok (its : list (string * nat)) (w : world) :
forall (status st : list (string * Status.t)),
  (status_items its status w).1 = Ok st ->
  (forall name task, (name, task) ∈ its ->
     exists t, loop w !! task = Some t /\
               (state t = Finished \/ exists e, state t = Failed e)) /\
  (forall name entry, dict_get name st = Some entry ->
     dict_get name status = Some entry \/
     (Status.running entry = false /\ Status.cancelled entry = false)).
Proof.
induction its as [|[n k] its IH]; intros status st Hok.
- cbn in Hok. injection Hok as <-. split.
  + intros name task Hin. apply elem_of_nil in Hin. contradiction.
  + intros name entry H. left. exact H.
- cbn [status_items] in Hok. unfold bind at 1 in Hok.
  unfold task_done, bind, task_state_of, ret in Hok.
  destruct (loop w !! k) as [t0|] eqn:Hk; [|discriminate].
  unfold task_cancelled, bind, task_state_of, ret in Hok. rewrite Hk in Hok.
  unfold task_exception, bind, task_state_of, ret, raise in Hok. rewrite Hk in Hok.
  destruct (state t0) eqn:Hs0; try discriminate.
  + destruct (IH _ st Hok) as [Hall Hent]. split.
    * intros name task Hin. apply elem_of_cons in Hin as [Heq|Hin]; [|eauto].
      injection Heq as -> ->. exists t0. split; [exact Hk | left; exact Hs0].
    * intros name entry Hget. destruct (Hent name entry Hget) as [Hold|Hnew]; [|right; exact Hnew].
      destruct (decide (n = name)) as [->|Hne].
      -- rewrite dict_get_set_eq in Hold. injection Hold as <-. right. split; reflexivity.
      -- rewrite dict_get_set_ne in Hold by exact Hne. left. exact Hold.
  + destruct (IH _ st Hok) as [Hall Hent]. split.
    * intros name task Hin. apply elem_of_cons in Hin as [Heq|Hin]; [|eauto].
      injection Heq as -> ->. exists t0. split; [exact Hk | right; eauto].
    * intros name entry Hget. destruct (Hent name entry Hget) as [Hold|Hnew]; [|right; exact Hnew].
      destruct (decide (n = name)) as [->|Hne].
      -- rewrite dict_get_set_eq in Hold. injection Hold as <-. right. split; reflexivity.
      -- rewrite dict_get_set_ne in Hold by exact Hne. left. exact Hold.
Qed.

(** [get_agent_status] never reports a worker as running: whenever it
  returns a mapping, every recorded task has ended by returning or by
  raising, and every entry of the mapping has [running] and
  [cancelled] false. *)
Theorem status_never_reports_running (w : world) (st : list (string * Status.t)) :
(get_agent_status w).1 = Ok st ->
(forall name task, (name, task) ∈ tasks (self w) ->
   exists t, loop w !! task = Some t /\
             (state t = Finished \/ exists e, state t = Failed e)) /\
(forall name entry, dict_get name st = Some entry ->
   Status.running entry = false /\ Status.cancelled entry = false).
Proof.
intros Hok. unfold get_agent_status, bind at 1, get at 1 in Hok.
destruct (status_items_Ok _ w [] st Hok) as [Hall Hent].
split; [exact Hall|].
intros name entry Hget. destruct (Hent name entry Hget) as [Hold|Hnew];
  [discriminate Hold | exact Hnew].
Qed.

(** The status of a worker whose task has crashed. *)
Lemma status_never_reports_running_witness :
let w := after [Register "w" (worker 1); Start "w"; TaskEnds 0 (Failed (Fault "boom"))] in
(get_agent_status w).1
= Ok [("w", {| Status.running := false; Status.cancelled := false;
               Status.exception := Some "boom" |})] /\
(forall name entry,
   dict_get name [("w", {| Status.running := false; Status.cancelled := false;
                           Status.exception := Some "boom" |})] = Some entry ->
   Status.running entry = false /\ Status.cancelled entry = false).
Proof.
cbv zeta. split; [reflexivity|].
exact (proj2 (status_never_reports_running
                (after [Register "w" (worker 1); Start "w";
                        TaskEnds 0 (Failed (Fault "boom"))]) _ eq_refl)).
Defined.

End HealthyAndStatus.

Section StartAndStopAll.

Import AgentScheduler.

(** *** Starting and stopping all workers *)

Lemma start_agent_unregistered (name : string) (w : world) :
dict_get name (agents (self w)) = None ->
start_agent name w
= (Raise (ValueError ("Agent " +:+ name +:+ " not registered")), w).
Proof. intros H. unfold start_agent, bind, get. rewrite H. reflexivity. Qed.

Lemma run_start_names_spec (names : list string) :
forall w : world,
exists w' ext,
  run_all (map start_agent names) w = (Ok tt, w') /\
  agents (self w') = agents (self w) /\
  loop w' = loop w ++ ext /\
  (forall n, n ∉ names ->
     dict_get n (tasks (self w')) = dict_get n (tasks (self w))) /\
  (forall n agent,
     dict_get n (agents (self w)) = Some agent -> has_start agent = false ->
     dict_get n (tasks (self w')) = dict_get n (tasks (self w))) /\
  (forall n agent,
     n ∈ names -> dict_get n (agents (self w)) = Some agent ->
     has_start agent = true ->
     exists task,
       dict_get n (tasks (self w')) = Some task /\
       length (loop w) <= task /\
       loop w' !! task = Some {| spawned_for := n; coro := agent; state := Pending |}).
Proof.
induction names as [|h names IH]; intros w.
- exists w, []. split; [reflexivity|]. split; [reflexivity|].
  split; [rewrite app_nil_r; reflexivity|]. split; [reflexivity|].
  split; [reflexivity|]. intros n agent Hin. apply elem_of_nil in Hin. contradiction.
- assert (Hstep : exists w1 ext1,
    run_all (map start_agent (h :: names)) w = run_all (map start_agent names) w1 /\
    agents (self w1) = agents (self w) /\
    loop w1 = loop w ++ ext1 /\
    (forall n, n <> h -> dict_get n (tasks (self w1)) = dict_get n (tasks (self w))) /\
    (forall agent, dict_get h (agents (self w)) = Some agent ->
       if has_start agent
       then dict_get h (tasks (self w1)) = Some (length (loop w)) /\
            loop w1 !! length (loop w)
            = Some {| spawned_for := h; coro := agent; state := Pending |}
       else tasks (self w1) = tasks (self w))).
  { cbn [map run_all].
    destruct (dict_get h (agents (self w))) as [a|] eqn:Ha.
    - destruct (has_start a) eqn:Hs.
      + destruct (start_agent_spec h a w Ha Hs) as (w1 & Hrun & Hag & Hts & Hloop & _).
        exists w1, [ {| spawned_for := h; coro := a; state := Pending |} ].
        rewrite Hrun. split; [reflexivity|]. split; [exact Hag|]. split; [exact Hloop|].
        split; [intros n Hne; rewrite Hts; apply dict_get_set_ne; congruence|].
        intros agent Heq. injection Heq as <-. rewrite Hs.
        split; [rewrite Hts; apply dict_get_set_eq|].
        rewrite Hloop, lookup_app_r by lia. rewrite Nat.sub_diag. reflexivity.
      + destruct (start_agent_without_start h a w Ha Hs) as (w1 & Hrun & Hself & Hloop & _).
        exists w1, []. rewrite Hrun. split; [reflexivity|].
        split; [rewrite Hself; reflexivity|].
        split; [rewrite Hloop, app_nil_r; reflexivity|].
        split; [intros n _; rewrite Hself; reflexivity|].
        intros agent Heq. injection Heq as <-. rewrite Hs, Hself. reflexivity.
    - rewrite (start_agent_unregistered h w Ha).
      exists w, []. split; [reflexivity|]. split; [reflexivity|].
      split; [rewrite app_nil_r; reflexivity|]. split; [reflexivity|].
      intros agent Heq. discriminate Heq. }
  destruct Hstep as (w1 & ext1 & Hg & Hag1 & Hloop1 & Hother1 & Hh1).
  destruct (IH w1) as (w' & ext & Hrun & Hag & Hloop & Hout & Hno & Hyes).
  exists w', (ext1 ++ ext). rewrite Hg.
  split; [exact Hrun|]. split; [rewrite Hag; exact Hag1|].
  split; [rewrite Hloop, Hloop1, <- app_assoc; reflexivity|].
  split.
  { intros n Hn. apply not_elem_of_cons in Hn as [Hne Hn].
    rewrite Hout by exact Hn. apply Hother1. exact Hne. }
  split.
  { intros n agent Ha Hs. rewrite (Hno n agent) by (rewrite ?Hag1; assumption).
    destruct (decide (n = h)) as [->|Hne]; [|apply Hother1; exact Hne].
    specialize (Hh1 agent Ha). rewrite Hs in Hh1. rewrite Hh1. reflexivity. }
  intros n agent Hin Ha Hs.
  destruct (decide (n ∈ names)) as [Hrest|Hrest].
  + destruct (Hyes n agent Hrest) as (task & Hget & Hle & Hlook);
      [rewrite Hag1; exact Ha | exact Hs |].
    exists task. split; [exact Hget|]. split; [|exact Hlook].
    rewrite Hloop1, length_app in Hle. lia.
  + apply elem_of_cons in Hin as [->|Hin]; [|contradiction].
    specialize (Hh1 agent Ha). rewrite Hs in Hh1. destruct Hh1 as [Hget Hlook].
    exists (length (loop w)). split; [rewrite Hout by exact Hrest; exact Hget|].
    split; [lia|]. rewrite Hloop. apply lookup_app_l_Some. exact Hlook.
Qed.

Lemma start_names_spec (names : list string) :
forall w : world,
exists w' ext,
  gather (map start_agent names) w = (Ok tt, w') /\
  agents (self w') = agents (self w) /\
  loop w' = loop w ++ ext /\
  begun w' = match names with [] => begun w | _ => length (loop w') end /\
  (forall n, n ∉ names ->
     dict_get n (tasks (self w')) = dict_get n (tasks (self w))) /\
  (forall n agent,
     dict_get n (agents (self w)) = Some agent -> has_start agent = false ->
     dict_get n (tasks (self w')) = dict_get n (tasks (self w))) /\
  (forall n agent,
     n ∈ names -> dict_get n (agents (self w)) = Some agent ->
     has_start agent = true ->
     exists task,
       dict_get n (tasks (self w')) = Some task /\
       length (loop w) <= task /\
       loop w' !! task = Some {| spawned_for := n; coro := agent; state := Pending |}).
Proof.
intros w. destruct names as [|h names].
- exists w, []. split; [reflexivity|]. split; [reflexivity|].
  split; [rewrite app_nil_r; reflexivity|]. split; [reflexivity|].
  split; [reflexivity|]. split; [reflexivity|].
  intros n agent Hin. apply elem_of_nil in Hin. contradiction.
- destruct (run_start_names_spec (h :: names) (suspend w).2)
    as (w' & ext & Hrun & Hag & Hloop & Hout & Hno & Hyes).
  exists (suspend w').2, ext. cbn [map gather]. cbn [map] in Hrun. rewrite Hrun.
  split; [reflexivity|]. split; [exact Hag|]. split; [exact Hloop|].
  split; [reflexivity|].
  split; [exact Hout|]. split; [exact Hno | exact Hyes].
Qed.

(** [start_all_agents] always returns: what a single start raises is
  collected, not raised.  It sets [running], and afterwards every
  registered agent that has [start] is bound to a task created by
  this call and running; a registered object without [start] gets no
  task. *)
Theorem start_all_agents_starts_every_worker (w : world) :
let r := start_all_agents w in
r.1 = Ok tt /\
running (self r.2) = true /\
agents (self r.2) = agents (self w) /\
(forall name agent,
   dict_get name (agents (self w)) = Some agent -> has_start agent = true ->
   exists task t,
     dict_get name (tasks (self r.2)) = Some task /\
     length (loop w) <= task /\
     loop r.2 !! task = Some t /\
     coro t = agent /\
     state t = Pending) /\
(forall name agent,
   dict_get name (agents (self w)) = Some agent -> has_start agent = false ->
   dict_get name (tasks (self r.2)) = dict_get name (tasks (self w))).
Proof.
intros r.
pose proof (flags_start_all_agents w) as Hflags. fold r in Hflags.
set (w0 := {| self := {| agents := agents (self w); tasks := tasks (self w);
                        running := true;
                        _shutdown_event := _shutdown_event (self w) |};
             loop := loop w;
             log := log w ++ [Logged "scheduler_started"
                                [("agents", String.concat ", " (dict_keys (agents (self w))))]
                                "scheduler"];
             begun := begun w |}).
destruct (start_names_spec (dict_keys (agents (self w))) w0)
  as (w' & ext & Hrun & Hag & Hloop & _ & _ & Hno & Hyes).
assert (Hr : r = (Ok tt, {| self := self w'; loop := loop w';
                           log := log w' ++ [Print "All agents started"];
                           begun := begun w' |})).
{ subst r. unfold start_all_agents.
  unfold bind at 1, get at 1. unfold bind at 1, set_flags at 1.
  unfold bind at 1, get at 1. unfold bind at 1, log_event at 1, record at 1.
  cbn [self agents]. fold w0. rewrite (bind_Ok _ _ _ _ _ Hrun). reflexivity. }
rewrite Hr in *. cbn [fst snd self loop] in *.
split; [reflexivity|].
split; [unfold flags in Hflags; cbn in Hflags; congruence|].
split; [exact Hag|]. split.
- intros name agent Ha Hs.
  destruct (Hyes name agent) as (task & Hget & Hle & Hlook);
    [eapply dict_get_Some_keys; exact Ha | exact Ha | exact Hs |].
  exists task, {| spawned_for := name; coro := agent; state := Pending |}.
  split; [exact Hget|]. split; [exact Hle|]. split; [exact Hlook|]. split; reflexivity.
- intros name agent Ha Hs. exact (Hno name agent Ha Hs).
Qed.

(** [start_all_agents] over a worker and an object without [start]. *)
Lemma start_all_agents_starts_every_worker_witness :
let w := after [Register "w" (worker 1);
                Register "x" {| ident := 2; has_start := false; on_cancel := Swallows |}] in
dict_get "w" (agents (self w)) = Some (worker 1) /\
has_start (worker 1) = true /\
(start_all_agents w).1 = Ok tt /\
tasks (self (start_all_agents w).2) = [("w", 0)] /\
exists task t,
  dict_get "w" (tasks (self (start_all_agents w).2)) = Some task /\
  length (loop w) <= task /\
  loop (start_all_agents w).2 !! task = Some t /\
  coro t = worker 1 /\
  state t = Pending.
Proof.
cbv zeta.
pose proof (start_all_agents_starts_every_worker
              (after [Register "w" (worker 1);
                      Register "x" {| ident := 2; has_start := false;
                                      on_cancel := Swallows |}]))
  as (H1 & _ & _ & Hyes & _).
split; [reflexivity|]. split; [reflexivity|]. split; [exact H1|].
split; [reflexivity|]. exact (Hyes "w" (worker 1) eq_refl eq_refl).
Defined.

End StartAndStopAll.

Section StopAll.

Import AgentScheduler.

(** What [stop_agent] leaves as it was. *)
Lemma stop_agent_frame (name : string) (w : world) :
sched_inv w ->
agents (self (stop_agent name w).2) = agents (self w) /\
(forall other, other <> name ->
   dict_get other (tasks (self (stop_agent name w).2))
   = dict_get other (tasks (self w))) /\
(dict_get name (tasks (self w)) = None ->
   dict_get name (tasks (self (stop_agent name w).2)) = None) /\
(forall i t0, loop w !! i = Some t0 ->
   exists t1,
     loop (stop_agent name w).2 !! i = Some t1 /\
     spawned_for t1 = spawned_for t0 /\
     coro t1 = coro t0 /\
     ((state t0 <> Pending \/ spawned_for t0 <> name) -> state t1 = state t0)).
Proof.
intros Hinv.
destruct (dict_get name (tasks (self w))) as [task|] eqn:Htask.
2:{ rewrite stop_agent_untracked by exact Htask. cbn [snd].
    split; [reflexivity|]. split; [reflexivity|]. split; [intros _; exact Htask|].
    intros i t0 Hi; exists t0;
    (split; [exact Hi|]; split; [reflexivity|]; split; [reflexivity|]; reflexivity). }
destruct (proj1 (proj2 Hinv) name task Htask) as (t & Ht & Hname).
assert (Hlt : task < length (loop w)) by (eapply lookup_lt_Some; exact Ht).
assert (Hins : forall s i t0, loop w !! i = Some t0 ->
  state t = Pending ->
  exists t1,
    <[task := {| spawned_for := spawned_for t; coro := coro t; state := s |}]> (loop w) !! i
    = Some t1 /\
    spawned_for t1 = spawned_for t0 /\ coro t1 = coro t0 /\
    ((state t0 <> Pending \/ spawned_for t0 <> name) -> state t1 = state t0)).
{ intros s i t0 Hi Hp. destruct (decide (i = task)) as [->|Hne].
  - assert (t0 = t) by congruence. subst t0.
    rewrite list_lookup_insert_eq by exact Hlt. eexists. split; [reflexivity|].
    split; [reflexivity|]. split; [reflexivity|].
    intros [H|H]; [destruct (H Hp) | destruct (H Hname)].
  - rewrite list_lookup_insert_ne by congruence. exists t0.
    split; [exact Hi|]. split; [reflexivity|]. split; reflexivity. }
destruct (state t) eqn:Hstate.
- rewrite (stop_agent_running name task t w Htask Ht Hstate).
  destruct (reaction w task t); cbn [snd self agents tasks loop].
  + split; [reflexivity|].
    split; [intros other Hne; apply dict_get_del_ne; congruence|].
    split; [intros H; discriminate H|]. intros i t0 Hi. apply Hins; [exact Hi | reflexivity].
  + split; [reflexivity|].
    split; [intros other Hne; apply dict_get_del_ne; congruence|].
    split; [intros H; discriminate H|]. intros i t0 Hi. apply Hins; [exact Hi | reflexivity].
  + split; [reflexivity|]. split; [reflexivity|].
    split; [intros H; discriminate H|]. intros i t0 Hi. apply Hins; [exact Hi | reflexivity].
  + split; [reflexivity|]. split; [reflexivity|].
    split; [intros H; discriminate H|].
    intros i t0 Hi; exists t0;
    (split; [exact Hi|]; split; [reflexivity|]; split; [reflexivity|]; reflexivity).
- destruct (stop_agent_done name task t w Htask Ht) as (w' & Hrun & Hag & Hts & Hloop & _);
    [rewrite Hstate; discriminate|].
  rewrite Hrun. cbn [snd]. rewrite Hag, Hts, Hloop.
  split; [reflexivity|].
  split; [intros other Hne; apply dict_get_del_ne; congruence|].
  split; [intros H; discriminate H|].
  intros i t0 Hi; exists t0;
    (split; [exact Hi|]; split; [reflexivity|]; split; [reflexivity|]; reflexivity).
- destruct (stop_agent_done name task t w Htask Ht) as (w' & Hrun & Hag & Hts & Hloop & _);
    [rewrite Hstate; discriminate|].
  rewrite Hrun. cbn [snd]. rewrite Hag, Hts, Hloop.
  split; [reflexivity|].
  split; [intros other Hne; apply dict_get_del_ne; congruence|].
  split; [intros H; discriminate H|].
  intros i t0 Hi; exists t0;
    (split; [exact Hi|]; split; [reflexivity|]; split; [reflexivity|]; reflexivity).
- destruct (stop_agent_done name task t w Htask Ht) as (w' & Hrun & Hag & Hts & Hloop & _);
    [rewrite Hstate; discriminate|].
  rewrite Hrun. cbn [snd]. rewrite Hag, Hts, Hloop.
  split; [reflexivity|].
  split; [intros other Hne; apply dict_get_del_ne; congruence|].
  split; [intros H; discriminate H|].
  intros i t0 Hi; exists t0;
    (split; [exact Hi|]; split; [reflexivity|]; split; [reflexivity|]; reflexivity).
Qed.

(** What [stop_agent] does to a worker whose task has ended or ends
  when cancelled. *)
Lemma stop_agent_effect (name : string) (task : nat) (t : Task) (w : world) :
sched_inv w ->
dict_get name (tasks (self w)) = Some task ->
loop w !! task = Some t ->
state t <> Pending \/ ends_on_cancel (coro t) ->
(stop_agent name w).1 = Ok tt /\
dict_get name (tasks (self (stop_agent name w).2)) = None /\
exists t1, loop (stop_agent name w).2 !! task = Some t1 /\ state t1 <> Pending.
Proof.
intros Hinv Htask Ht Hok.
assert (Hlt : task < length (loop w)) by (eapply lookup_lt_Some; exact Ht).
assert (Hcase : state t = Pending \/ state t <> Pending)
  by (destruct (state t); [left; reflexivity | right; discriminate ..]).
destruct Hcase as [Hstate|Hdone].
- destruct Hok as [Hn|Hends]; [destruct (Hn Hstate)|].
  rewrite (stop_agent_running name task t w Htask Ht Hstate).
  destruct (reaction_ends w task t (fun _ => Hends)) as [Hc|Hc]; rewrite Hc;
    cbn [fst snd self tasks loop];
    (split; [reflexivity|]; split; [apply dict_get_del_eq, Hinv|];
     eexists; split; [apply list_lookup_insert_eq; exact Hlt | discriminate]).
- destruct (stop_agent_done name task t w Htask Ht Hdone)
    as (w' & Hrun & _ & Hts & Hloop & _).
  rewrite Hrun. cbn [fst snd]. split; [reflexivity|].
  split; [rewrite Hts; apply dict_get_del_eq, Hinv|].
  exists t. split; [rewrite Hloop; exact Ht | exact Hdone].
Qed.

Lemma run_stop_names_spec (names : list string) :
forall w : world,
  sched_inv w ->
  let r := run_all (map stop_agent names) w in
  (forall e, r.1 <> Raise e) /\
  sched_inv r.2 /\
  agents (self r.2) = agents (self w) /\
  (forall n, dict_get n (tasks (self w)) = None ->
     dict_get n (tasks (self r.2)) = None) /\
  (forall i t0, loop w !! i = Some t0 ->
     exists t1, loop r.2 !! i = Some t1 /\
                spawned_for t1 = spawned_for t0 /\
                coro t1 = coro t0 /\
                (state t0 <> Pending -> state t1 = state t0)) /\
  (forall n task t,
     n ∈ names -> dict_get n (tasks (self w)) = Some task ->
     loop w !! task = Some t ->
     state t <> Pending \/ ends_on_cancel (coro t) ->
     dict_get n (tasks (self r.2)) = None /\
     exists t1, loop r.2 !! task = Some t1 /\ state t1 <> Pending) /\
  ((forall n task t,
      n ∈ names -> dict_get n (tasks (self w)) = Some task ->
      loop w !! task = Some t ->
      state t <> Pending \/ ends_on_cancel (coro t)) ->
   r.1 = Ok tt).
Proof.
induction names as [|h names IH]; intros w Hinv r.
- subst r. cbn. split; [discriminate|]. split; [exact Hinv|]. split; [reflexivity|].
  split; [trivial|].
  split; [intros i t0 Hi; exists t0;
          (split; [exact Hi|]; split; [reflexivity|]; split; reflexivity)|].
  split; [intros n task t Hin; apply elem_of_nil in Hin; contradiction|].
  reflexivity.
- pose proof (keeps_stop_agent h w Hinv) as Hinv1.
  destruct (stop_agent_frame h w Hinv) as (Hag1 & Hother1 & Hnone1 & Hloop1).
  set (w1 := (stop_agent h w).2) in *.
  specialize (IH w1 Hinv1). cbv zeta in IH.
  destruct IH as (Hnr & Hinv' & Hag & Hnone & Hloop & Heff & Hall).
  assert (Hr2 : r.2 = (run_all (map stop_agent names) w1).2).
  { subst r w1. cbn [map run_all]. destruct (stop_agent h w) as [[[]|e|] w1']; reflexivity. }
  assert (Hback : forall n task t,
    n <> h -> dict_get n (tasks (self w)) = Some task -> loop w !! task = Some t ->
    dict_get n (tasks (self w1)) = Some task /\
    exists t1, loop w1 !! task = Some t1 /\ coro t1 = coro t /\ state t1 = state t).
  { intros n task t Hne Hget Ht.
    split; [rewrite Hother1 by exact Hne; exact Hget|].
    destruct (proj1 (proj2 Hinv) n task Hget) as (t0 & Ht0 & Hsp).
    assert (t0 = t) by congruence. subst t0.
    destruct (Hloop1 task t Ht) as (t1 & Ht1 & _ & Hco & Hst).
    exists t1. split; [exact Ht1|]. split; [exact Hco|].
    apply Hst. right. congruence. }
  rewrite Hr2.
  split.
  { subst r w1. cbn [map run_all]. intros e.
    destruct (stop_agent h w) as [[[]|e'|] w1']; cbn [fst snd] in *;
      first [apply Hnr | discriminate]. }
  split; [exact Hinv'|]. split; [rewrite Hag; exact Hag1|].
  split.
  { intros n Hn. apply Hnone. destruct (decide (n = h)) as [->|Hne].
    - apply Hnone1. exact Hn.
    - rewrite Hother1 by exact Hne. exact Hn. }
  split.
  { intros i t0 Hi. destruct (Hloop1 i t0 Hi) as (t1 & Ht1 & Hsp1 & Hco1 & Hst1).
    destruct (Hloop i t1 Ht1) as (t2 & Ht2 & Hsp2 & Hco2 & Hst2).
    exists t2. split; [exact Ht2|]. split; [congruence|]. split; [congruence|].
    intros Hd. rewrite Hst2; [apply Hst1; left; exact Hd|].
    rewrite Hst1 by (left; exact Hd). exact Hd. }
  split.
  { intros n task t Hin Hget Ht Hok.
    destruct (decide (n = h)) as [->|Hne].
    - destruct (stop_agent_effect h task t w Hinv Hget Ht Hok) as (_ & Hgone & t1 & Ht1 & Hd1).
      split; [apply Hnone; exact Hgone|].
      destruct (Hloop task t1 Ht1) as (t2 & Ht2 & _ & _ & Hst2).
      exists t2. split; [exact Ht2|]. rewrite Hst2 by exact Hd1. exact Hd1.
    - apply elem_of_cons in Hin as [Heq|Hin]; [contradiction|].
      destruct (Hback n task t Hne Hget Ht) as (Hget1 & t1 & Ht1 & Hco & Hst).
      apply (Heff n task t1 Hin Hget1 Ht1).
      rewrite Hco, Hst. exact Hok. }
  intros Hallok.
  assert (Hhead : (stop_agent h w).1 = Ok tt).
  { destruct (dict_get h (tasks (self w))) as [task|] eqn:Hget;
      [|rewrite stop_agent_untracked by exact Hget; reflexivity].
    destruct (proj1 (proj2 Hinv) h task Hget) as (t & Ht & _).
    apply (stop_agent_effect h task t w Hinv Hget Ht).
    apply (Hallok h task t); [left | exact Hget | exact Ht]. }
  assert (Hrest : (run_all (map stop_agent names) w1).1 = Ok tt).
  { apply Hall. intros n task t1 Hin Hget1 Ht1.
    destruct (decide (n = h)) as [->|Hne].
    - exfalso. destruct (dict_get h (tasks (self w))) as [task0|] eqn:Hget.
      + destruct (proj1 (proj2 Hinv) h task0 Hget) as (t & Ht & _).
        destruct (stop_agent_effect h task0 t w Hinv Hget Ht) as (_ & Hgone & _).
        { apply (Hallok h task0 t); [left | exact Hget | exact Ht]. }
        fold w1 in Hgone. congruence.
      + specialize (Hnone1 eq_refl). congruence.
    - rewrite Hother1 in Hget1 by exact Hne.
      destruct (proj1 (proj2 Hinv) n task Hget1) as (t & Ht & _).
      destruct (Hback n task t Hne Hget1 Ht) as (_ & t1' & Ht1' & Hco & Hst).
      assert (t1' = t1) by congruence. subst t1'.
      rewrite Hco, Hst. apply (Hallok n task t); [right; exact Hin | exact Hget1 | exact Ht]. }
  subst r w1. cbn [map run_all].
  destruct (stop_agent h w) as [[[]|e|] w1']; cbn [fst snd] in *;
    first [exact Hrest | discriminate].
Qed.

Lemma stop_names_spec (names : list string) :
forall w : world,
  sched_inv w ->
  let r := gather (map stop_agent names) w in
  (forall e, r.1 <> Raise e) /\
  sched_inv r.2 /\
  agents (self r.2) = agents (self w) /\
  (forall n, dict_get n (tasks (self w)) = None ->
     dict_get n (tasks (self r.2)) = None) /\
  (forall i t0, loop w !! i = Some t0 ->
     exists t1, loop r.2 !! i = Some t1 /\
                spawned_for t1 = spawned_for t0 /\
                coro t1 = coro t0 /\
                (state t0 <> Pending -> state t1 = state t0)) /\
  (forall n task t,
     n ∈ names -> dict_get n (tasks (self w)) = Some task ->
     loop w !! task = Some t ->
     state t <> Pending \/ ends_on_cancel (coro t) ->
     dict_get n (tasks (self r.2)) = None /\
     exists t1, loop r.2 !! task = Some t1 /\ state t1 <> Pending) /\
  ((forall n task t,
      n ∈ names -> dict_get n (tasks (self w)) = Some task ->
      loop w !! task = Some t ->
      state t <> Pending \/ ends_on_cancel (coro t)) ->
   r.1 = Ok tt).
Proof.
intros w Hinv. destruct names as [|h names].
- exact (run_stop_names_spec [] w Hinv).
- exact (run_stop_names_spec (h :: names) (suspend w).2 Hinv).
Qed.

Lemma dict_all_unbound {V} (d : list (string * V)) :
(forall k, dict_get k d = None) -> d = [].
Proof.
destruct d as [|[k v] d]; [reflexivity|]. intros H. specialize (H k).
cbn in H. rewrite String.eqb_refl in H. discriminate.
Qed.

(** [stop_all_agents] in every state the scheduler can reach: it never
  raises; it clears [running] and sets the shutdown event; every
  worker whose recorded task has ended or ends when cancelled is
  without handle and without running task afterwards, whatever the
  other workers do when they are stopped; and if all recorded workers
  are such, the call returns and the task table is empty. *)
Theorem stop_all_agents_stops_every_ending_worker (cs : list call) :
let w := after cs in
let r := stop_all_agents w in
(forall e, r.1 <> Raise e) /\
running (self r.2) = false /\
_shutdown_event (self r.2) = true /\
(forall name task t,
   dict_get name (tasks (self w)) = Some task ->
   loop w !! task = Some t ->
   state t <> Pending \/ ends_on_cancel (coro t) ->
   dict_get name (tasks (self r.2)) = None /\
   exists t1, loop r.2 !! task = Some t1 /\ state t1 <> Pending) /\
((forall name task t,
    dict_get name (tasks (self w)) = Some task ->
    loop w !! task = Some t ->
    state t <> Pending \/ ends_on_cancel (coro t)) ->
 r.1 = Ok tt /\ tasks (self r.2) = []).
Proof.
intros w r.
pose proof (flags_stop_all_agents w) as Hflags. fold r in Hflags.
set (w0 := {| self := {| agents := agents (self w); tasks := tasks (self w);
                        running := false; _shutdown_event := true |};
             loop := loop w; log := log w; begun := begun w |}).
assert (Hinv0 : sched_inv w0) by exact (after_inv cs).
pose proof (stop_names_spec (dict_keys (tasks (self w))) w0 Hinv0) as Hspec.
cbv zeta in Hspec.
set (g := gather (map stop_agent (dict_keys (tasks (self w)))) w0) in *.
destruct Hspec as (Hnr & _ & _ & Hnone & _ & Heff & Hall).
assert (Hr : r = match g.1 with
                 | Ok _ => (Ok tt, {| self := self g.2; loop := loop g.2;
                                      log := (log g.2 ++ [Logged "scheduler_stopped" [] "scheduler"])
                                               ++ [Print "All agents stopped"];
                                      begun := begun g.2 |})
                 | Raise e => (Raise e, g.2)
                 | Blocked => (Blocked, g.2)
                 end).
{ subst r g. unfold stop_all_agents.
  unfold bind at 1, set_flags at 1. unfold bind at 1, get at 1. cbn [self tasks].
  fold w0. unfold bind at 1.
  destruct (gather (map stop_agent (dict_keys (tasks (self w)))) w0) as [[[]|e|] w'];
    reflexivity. }
assert (Hr2 : tasks (self r.2) = tasks (self g.2) /\ loop r.2 = loop g.2).
{ rewrite Hr. destruct g.1; split; reflexivity. }
destruct Hr2 as [Hts Hlp].
split.
{ intros e He. rewrite Hr in He. destruct g.1 eqn:Hg; cbn in He; try discriminate.
  injection He as ->. apply (Hnr e). reflexivity. }
split; [exact (f_equal fst Hflags)|].
split; [exact (f_equal snd Hflags)|].
split.
{ intros name task t Hget Ht Hok. rewrite Hts, Hlp.
  apply (Heff name task t); [|exact Hget | exact Ht | exact Hok].
  eapply dict_get_Some_keys. exact Hget. }
intros Hallok.
assert (Hg : g.1 = Ok tt).
{ apply Hall. intros n task t _ Hget Ht. exact (Hallok n task t Hget Ht). }
split; [rewrite Hr, Hg; reflexivity|].
rewrite Hts. apply dict_all_unbound. intros k.
destruct (dict_get k (tasks (self w))) as [task|] eqn:Hget.
- destruct (proj1 (proj2 (after_inv cs)) k task Hget) as (t & Ht & _).
  apply (Heff k task t); [eapply dict_get_Some_keys; exact Hget | exact Hget | exact Ht |].
  exact (Hallok k task t Hget Ht).
- apply Hnone. exact Hget.
Qed.

(** Three running workers, the second of which raises when cancelled:
  the other two still stop. *)
Lemma stop_all_agents_stops_every_ending_worker_witness :
let cs := [Register "a" (worker 1);
           Register "b" {| ident := 2; has_start := true; on_cancel := Crashes "no" |};
           Register "c" (worker 3); StartAll] in
dict_get "c" (tasks (self (after cs))) = Some 2 /\
loop (after cs) !! 2 = Some {| spawned_for := "c"; coro := worker 3; state := Pending |} /\
(state {| spawned_for := "c"; coro := worker 3; state := Pending |} <> Pending
 \/ ends_on_cancel (worker 3)) /\
tasks (self (stop_all_agents (after cs)).2) = [("b", 1)] /\
dict_get "c" (tasks (self (stop_all_agents (after cs)).2)) = None.
Proof.
cbv zeta.
assert (He : state {| spawned_for := "c"; coro := worker 3; state := Pending |} <> Pending
             \/ ends_on_cancel (worker 3)) by (right; left; reflexivity).
pose proof (stop_all_agents_stops_every_ending_worker
              [Register "a" (worker 1);
               Register "b" {| ident := 2; has_start := true; on_cancel := Crashes "no" |};
               Register "c" (worker 3); StartAll]) as (_ & _ & _ & Heff & _).
split; [reflexivity|]. split; [reflexivity|]. split; [exact He|].
split; [reflexivity|].
exact (proj1 (Heff "c" 2 _ eq_refl eq_refl He)).
Defined.

End StopAll.
(** ** Properties of the logger, the chat memory and the rolling window *)

Lemma string_length_append (s1 s2 : string) :
  String.length (s1 +:+ s2) = String.length s1 + String.length s2.
Proof. induction s1 as [|c s1 IH]; simpl; [reflexivity | f_equal; exact IH]. Qed.

Lemma string_length_substring (n : nat) (s : string) :
  String.length (String.substring 0 n s) = Nat.min n (String.length s).
Proof.
  revert s. induction n as [|n IH]; intros [|c s]; simpl; try reflexivity.
  f_equal. apply IH.
Qed.

(** The head of a string is a prefix of it. *)
Lemma string_substring_prefix (n : nat) (s : string) :
  String.prefix (String.substring 0 n s) s = true.
Proof.
  revert s. induction n as [|n IH]; intros [|c s]; simpl; try reflexivity.
  destruct (Ascii.ascii_dec c c); [apply IH | contradiction].
Qed.

(** [log_llm_call] logs one record; in it a prompt of at most 500
    characters is kept as it is, and a longer one is cut to its first
    500 characters followed by three dots, so that the logged prompt
    has at most 503 characters.  The same holds for the response. *)
Theorem log_llm_call_truncates (prompt response agent : string) (l : list trace) :
  exists p r,
    DecarbonLogger.log_llm_call prompt response agent l
    = (Ok tt, l ++ [Logged "llm_call" [("prompt", p); ("response", r)] agent]) /\
    String.length p <= 503 /\
    String.length r <= 503 /\
    (String.length prompt <= 500 -> p = prompt) /\
    (String.length response <= 500 -> r = response) /\
    (500 < String.length prompt ->
       p = String.substring 0 500 prompt +:+ "..." /\
       String.length p = 503 /\
       String.prefix (String.substring 0 500 prompt) prompt = true) /\
    (500 < String.length response ->
       r = String.substring 0 500 response +:+ "..." /\
       String.length r = 503 /\
       String.prefix (String.substring 0 500 response) response = true).
Proof.
  assert (Hcut : forall s,
    let c := if bool_decide (500 < String.length s)
             then String.substring 0 500 s +:+ "..." else s in
    String.length c <= 503 /\
    (String.length s <= 500 -> c = s) /\
    (500 < String.length s ->
       c = String.substring 0 500 s +:+ "..." /\ String.length c = 503 /\
       String.prefix (String.substring 0 500 s) s = true)).
  { intros s c. subst c. case_bool_decide as Hlen.
    - rewrite string_length_append, string_length_substring.
      change (String.length "...") with 3.
      split; [lia|]. split; [lia|]. intros _.
      split; [reflexivity|]. split; [lia|]. apply string_substring_prefix.
    - split; [lia|]. split; [reflexivity|]. lia. }
  destruct (Hcut prompt) as (Hp1 & Hp2 & Hp3).
  destruct (Hcut response) as (Hr1 & Hr2 & Hr3).
  do 2 eexists. split; [reflexivity|].
  split; [exact Hp1|]. split; [exact Hr1|]. split; [exact Hp2|]. split; [exact Hr2|].
  split; [exact Hp3 | exact Hr3].
Qed.

Lemma slice_from_zero {A} (xs : list A) : slice_from 0 xs = xs.
Proof. reflexivity. Qed.

(** [xs[-n:]] for a positive [n] is the last [n] elements. *)
Lemma slice_from_last {A} (n : Z) (xs : list A) :
  (1 <= n)%Z -> slice_from (- n) xs = last_n (Z.to_nat n) xs.
Proof.
  intros Hn. unfold slice_from, last_n.
  destruct (Z.ltb_spec (- n) 0); [|lia]. f_equal. lia.
Qed.

(** [xs[-n:]] for a negative [n] drops the first [-n] elements. *)
Lemma slice_from_negative {A} (n : Z) (xs : list A) :
  (n < 0)%Z -> slice_from (- n) xs = drop (Z.to_nat (- n)) xs.
Proof.
  intros Hn. unfold slice_from. destruct (Z.ltb_spec (- n) 0); [lia | reflexivity].
Qed.

(** [get_recent_logs]: a missing log file gives no line; a positive
    number of lines gives that many of the last lines, in order, or all
    of them if the file is shorter; the number 0 gives every line of
    the file, not none. *)
Theorem get_recent_logs_edges (content : list string) (lines : Z) :
  DecarbonLogger.get_recent_logs None lines = [] /\
  DecarbonLogger.get_recent_logs (Some content) 0 = content /\
  ((1 <= lines)%Z ->
     DecarbonLogger.get_recent_logs (Some content) lines `suffix_of` content /\
     length (DecarbonLogger.get_recent_logs (Some content) lines)
     = Nat.min (Z.to_nat lines) (length content)).
Proof.
  split; [reflexivity|]. split; [reflexivity|]. intros Hl.
  unfold DecarbonLogger.get_recent_logs. rewrite slice_from_last by exact Hl.
  split; [apply suffix_drop | apply length_last_n].
Qed.

(** The last two of three lines. *)
Lemma get_recent_logs_edges_witness :
  (1 <= 2)%Z /\
  DecarbonLogger.get_recent_logs (Some ["a"; "b"; "c"]) 2 = ["b"; "c"] /\
  length (DecarbonLogger.get_recent_logs (Some ["a"; "b"; "c"]) 2)
  = Nat.min (Z.to_nat 2) (length ["a"; "b"; "c"]).
Proof.
  assert (H : (1 <= 2)%Z) by lia.
  split; [exact H|]. split; [reflexivity|].
  exact (proj2 (proj2 (proj2 (get_recent_logs_edges ["a"; "b"; "c"] 2)) H)).
Defined.

Lemma add_message_messages (now : Z) (sender message : string)
    (context : option (list (string * string))) (self : ChatMemory.t) :
  let c := {| ChatMessage.timestamp := now; ChatMessage.sender := sender;
              ChatMessage.message := message; ChatMessage.context := context |} in
  ChatMemory.max_messages (ChatMemory.add_message now sender message context self)
  = ChatMemory.max_messages self /\
  ChatMemory.messages (ChatMemory.add_message now sender message context self)
  = if (ChatMemory.max_messages self
        <? Z.of_nat (length (ChatMemory.messages self ++ [c])))%Z
    then slice_from (- ChatMemory.max_messages self) (ChatMemory.messages self ++ [c])
    else ChatMemory.messages self ++ [c].
Proof.
  cbv zeta. unfold ChatMemory.add_message.
  destruct (_ <? _)%Z; split; reflexivity.
Qed.

Lemma add_messages_positive (max : Z) (msgs : list ChatMessage.t) :
  (1 <= max)%Z ->
  forall self : ChatMemory.t,
    ChatMemory.max_messages self = max ->
    length (ChatMemory.messages self) <= Z.to_nat max ->
    ChatMemory.messages (ChatMemory.add_messages msgs self)
    = last_n (Z.to_nat max) (ChatMemory.messages self ++ msgs).
Proof.
  intros Hmax. induction msgs as [|c msgs IH]; intros self Hm Hlen.
  - cbn. rewrite app_nil_r, last_n_short by exact Hlen. reflexivity.
  - unfold ChatMemory.add_messages in *. cbn [foldl].
    destruct (add_message_messages (ChatMessage.timestamp c) (ChatMessage.sender c)
                (ChatMessage.message c) (ChatMessage.context c) self) as [Hmax' Hms].
    assert (Hc : {| ChatMessage.timestamp := ChatMessage.timestamp c;
                    ChatMessage.sender := ChatMessage.sender c;
                    ChatMessage.message := ChatMessage.message c;
                    ChatMessage.context := ChatMessage.context c |} = c)
      by (destruct c; reflexivity).
    rewrite Hc in Hms.
    assert (Hone : ChatMemory.messages
                     (ChatMemory.add_message (ChatMessage.timestamp c) (ChatMessage.sender c)
                        (ChatMessage.message c) (ChatMessage.context c) self)
                   = last_n (Z.to_nat max) (ChatMemory.messages self ++ [c])).
    { rewrite Hms, Hm. destruct (Z.ltb_spec max (Z.of_nat (length (ChatMemory.messages self ++ [c])))).
      - apply slice_from_last. exact Hmax.
      - rewrite last_n_short; [reflexivity | lia]. }
    rewrite IH.
    + rewrite Hone, last_n_app_l, <- app_assoc. reflexivity.
    + rewrite Hmax'. exact Hm.
    + rewrite Hone, length_last_n. lia.
Qed.

(** A chat memory with a positive bound keeps the most recent
    messages: after any sequence of [add_message] on a new memory it
    holds the last [max_messages] of the messages added, in the order
    they were added, and never more than [max_messages]. *)
Theorem chat_memory_keeps_most_recent (max : Z) (msgs : list ChatMessage.t) :
  (1 <= max)%Z ->
  let m := ChatMemory.add_messages msgs (ChatMemory.new max) in
  ChatMemory.messages m = last_n (Z.to_nat max) msgs /\
  ChatMemory.messages m `suffix_of` msgs /\
  length (ChatMemory.messages m) = Nat.min (Z.to_nat max) (length msgs).
Proof.
  intros Hmax m. subst m.
  rewrite (add_messages_positive max msgs Hmax (ChatMemory.new max) eq_refl)
    by (cbn; lia).
  cbn [ChatMemory.new ChatMemory.messages app].
  split; [reflexivity|]. split; [apply suffix_drop | apply length_last_n].
Qed.

(** Three messages into a memory of two. *)
Lemma chat_memory_keeps_most_recent_witness :
  let c n := {| ChatMessage.timestamp := n; ChatMessage.sender := "user";
                ChatMessage.message := "hello"; ChatMessage.context := None |} in
  (1 <= 2)%Z /\
  ChatMemory.messages (ChatMemory.add_messages [c 1%Z; c 2%Z; c 3%Z] (ChatMemory.new 2))
  = [c 2%Z; c 3%Z] /\
  length (ChatMemory.messages
            (ChatMemory.add_messages [c 1%Z; c 2%Z; c 3%Z] (ChatMemory.new 2)))
  = Nat.min (Z.to_nat 2) (length [c 1%Z; c 2%Z; c 3%Z]).
Proof.
  cbv zeta. assert (H : (1 <= 2)%Z) by lia.
  split; [exact H|]. split; [reflexivity|].
  exact (proj2 (proj2 (chat_memory_keeps_most_recent 2 _ H))).
Defined.

(** The bound of a chat memory is enforced only when it is positive.
    With [max_messages = 0] the slice [messages[-0:]] is the whole
    list, so nothing is ever dropped and the memory grows with every
    message; with a negative bound every message is dropped at once. *)
Theorem chat_memory_bound_zero_or_negative (max : Z) (msgs : list ChatMessage.t) :
  (max = 0%Z ->
   ChatMemory.messages (ChatMemory.add_messages msgs (ChatMemory.new max)) = msgs) /\
  ((max < 0)%Z ->
   ChatMemory.messages (ChatMemory.add_messages msgs (ChatMemory.new max)) = []).
Proof.
  assert (Hc : forall c : ChatMessage.t,
    {| ChatMessage.timestamp := ChatMessage.timestamp c;
       ChatMessage.sender := ChatMessage.sender c;
       ChatMessage.message := ChatMessage.message c;
       ChatMessage.context := ChatMessage.context c |} = c)
    by (intros []; reflexivity).
  split.
  - intros ->.
    assert (H : forall self, ChatMemory.max_messages self = 0%Z ->
      ChatMemory.messages (ChatMemory.add_messages msgs self)
      = ChatMemory.messages self ++ msgs).
    { induction msgs as [|c msgs IH]; intros self Hm; [cbn; rewrite app_nil_r; reflexivity|].
      unfold ChatMemory.add_messages in *. cbn [foldl].
      destruct (add_message_messages (ChatMessage.timestamp c) (ChatMessage.sender c)
                  (ChatMessage.message c) (ChatMessage.context c) self) as [Hmax' Hms].
      rewrite Hc, Hm in Hms.
      rewrite IH by (rewrite Hmax'; exact Hm).
      rewrite Hms. destruct (Z.ltb_spec 0 (Z.of_nat (length (ChatMemory.messages self ++ [c])))).
      - change (- 0)%Z with 0%Z. rewrite slice_from_zero, <- app_assoc. reflexivity.
      - rewrite <- app_assoc. reflexivity. }
    apply (H (ChatMemory.new 0) eq_refl).
  - intros Hneg.
    assert (H : forall self, ChatMemory.max_messages self = max ->
      ChatMemory.messages self = [] ->
      ChatMemory.messages (ChatMemory.add_messages msgs self) = []).
    { induction msgs as [|c msgs IH]; intros self Hm He; [exact He|].
      unfold ChatMemory.add_messages in *. cbn [foldl].
      destruct (add_message_messages (ChatMessage.timestamp c) (ChatMessage.sender c)
                  (ChatMessage.message c) (ChatMessage.context c) self) as [Hmax' Hms].
      rewrite Hc, Hm, He in Hms. cbn [app length] in Hms.
      apply IH; [rewrite Hmax'; exact Hm|].
      rewrite Hms. destruct (Z.ltb_spec max (Z.of_nat 1)); [|lia].
      rewrite slice_from_negative by exact Hneg.
      apply drop_ge. cbn. lia. }
    apply (H (ChatMemory.new max) eq_refl eq_refl).
Qed.

(** A memory with bound 0 after three messages. *)
Lemma chat_memory_bound_zero_or_negative_witness :
  let c n := {| ChatMessage.timestamp := n; ChatMessage.sender := "user";
                ChatMessage.message := "hello"; ChatMessage.context := None |} in
  0%Z = 0%Z /\
  ChatMemory.messages (ChatMemory.add_messages [c 1%Z; c 2%Z; c 3%Z] (ChatMemory.new 0))
  = [c 1%Z; c 2%Z; c 3%Z] /\
  (-1 < 0)%Z /\
  ChatMemory.messages (ChatMemory.add_messages [c 1%Z; c 2%Z; c 3%Z] (ChatMemory.new (-1)))
  = [].
Proof.
  cbv zeta. assert (H : (-1 < 0)%Z) by lia.
  split; [reflexivity|].
  split; [exact (proj1 (chat_memory_bound_zero_or_negative 0 _) eq_refl)|].
  split; [exact H|].
  exact (proj2 (chat_memory_bound_zero_or_negative (-1) _) H).
Defined.

(** [get_recent_messages]: a positive count gives that many of the
    last messages, in order, or all if there are fewer; the count 0
    gives the whole history, not an empty list. *)
Theorem get_recent_messages_edges (count : Z) (self : ChatMemory.t) :
  ChatMemory.get_recent_messages 0 self = ChatMemory.messages self /\
  ((1 <= count)%Z ->
   ChatMemory.get_recent_messages count self
   = last_n (Z.to_nat count) (ChatMemory.messages self) /\
   ChatMemory.get_recent_messages count self `suffix_of` ChatMemory.messages self /\
   length (ChatMemory.get_recent_messages count self)
   = Nat.min (Z.to_nat count) (length (ChatMemory.messages self))).
Proof.
  unfold ChatMemory.get_recent_messages. split.
  - destruct (ChatMemory.messages self); reflexivity.
  - intros Hc.
    assert (H : match ChatMemory.messages self with
                | [] => []
                | _ :: _ => slice_from (- count) (ChatMemory.messages self)
                end = last_n (Z.to_nat count) (ChatMemory.messages self)).
    { destruct (ChatMemory.messages self) eqn:E; [reflexivity|].
      apply slice_from_last. exact Hc. }
    rewrite H. split; [reflexivity|]. split; [apply suffix_drop | apply length_last_n].
Qed.

(** The last message of a memory of three. *)
Lemma get_recent_messages_edges_witness :
  let c n := {| ChatMessage.timestamp := n; ChatMessage.sender := "user";
                ChatMessage.message := "hello"; ChatMessage.context := None |} in
  let m := ChatMemory.add_messages [c 1%Z; c 2%Z; c 3%Z] (ChatMemory.new 50) in
  (1 <= 1)%Z /\
  ChatMemory.get_recent_messages 1 m = [c 3%Z] /\
  ChatMemory.get_recent_messages 1 m = last_n (Z.to_nat 1) (ChatMemory.messages m).
Proof.
  cbv zeta. assert (H : (1 <= 1)%Z) by lia.
  split; [exact H|]. split; [reflexivity|].
  exact (proj1 (proj2 (get_recent_messages_edges 1 _) H)).
Defined.

(** A rolling window holds the last [window_size] values added, in
    order, for every window size and every sequence of values added to
    a new window (nothing at all for a size of 0 or less), and
    [is_full] tells whether at least [window_size] values were
    added. *)
Theorem rolling_window_keeps_last_values {V : Type} (window : Z) (values : list V) :
  let rw := RollingWindow.add_values values (RollingWindow.new window) in
  RollingWindow.data rw = last_n (Z.to_nat window) values /\
  length (RollingWindow.data rw) = Nat.min (Z.to_nat window) (length values) /\
  RollingWindow.is_full rw = (window <=? Z.of_nat (length values))%Z.
Proof.
  intros rw.
  assert (H : forall self : RollingWindow.t V,
    RollingWindow.window_size self = window ->
    length (RollingWindow.data self) <= Z.to_nat window ->
    RollingWindow.window_size (RollingWindow.add_values values self) = window /\
    RollingWindow.data (RollingWindow.add_values values self)
    = last_n (Z.to_nat window) (RollingWindow.data self ++ values)).
  { induction values as [|v values IH]; intros self Hw Hlen.
    - cbn. split; [exact Hw|]. rewrite app_nil_r, last_n_short by exact Hlen. reflexivity.
    - unfold RollingWindow.add_values in *. cbn [foldl].
      assert (Hone : RollingWindow.window_size (RollingWindow.add_value v self) = window /\
                     RollingWindow.data (RollingWindow.add_value v self)
                     = last_n (Z.to_nat window) (RollingWindow.data self ++ [v])).
      { unfold RollingWindow.add_value. rewrite Hw.
        destruct (Z.ltb_spec window (Z.of_nat (length (RollingWindow.data self ++ [v]))))
          as [Hlt|Hge]; cbn [RollingWindow.window_size RollingWindow.data].
        - split; [reflexivity|]. unfold last_n. f_equal.
          rewrite length_app in *. cbn [length] in *. lia.
        - split; [reflexivity|]. rewrite last_n_short; [reflexivity | lia]. }
      destruct Hone as [Hw1 Hd1].
      destruct (IH (RollingWindow.add_value v self) Hw1) as [Hw' Hd'].
      { rewrite Hd1, length_last_n. lia. }
      split; [exact Hw'|].
      rewrite Hd', Hd1, last_n_app_l, <- app_assoc. reflexivity. }
  destruct (H (RollingWindow.new window) eq_refl) as [Hw Hd]; [cbn; lia|].
  fold rw in Hw, Hd. cbn [RollingWindow.new RollingWindow.data app] in Hd.
  split; [exact Hd|].
  split; [rewrite Hd; apply length_last_n|].
  unfold RollingWindow.is_full. rewrite Hw, Hd, length_last_n.
  destruct (Z.leb_spec window (Z.of_nat (Nat.min (Z.to_nat window) (length values))));
    destruct (Z.leb_spec window (Z.of_nat (length values))); try reflexivity; lia.
Qed.

(** A prompt of 501 characters and a short response. *)
Lemma log_llm_call_truncates_witness :
  let prompt := String.string_of_list_ascii (replicate 501 (Ascii.ascii_of_nat 97)) in
  500 < String.length prompt /\
  String.length "ok" <= 500 /\
  exists p,
    DecarbonLogger.log_llm_call prompt "ok" "llm" []
    = (Ok tt, [Logged "llm_call" [("prompt", p); ("response", "ok")] "llm"]) /\
    String.length p = 503.
Proof.
  cbv zeta.
  assert (H1 : 500 < String.length (String.string_of_list_ascii (replicate 501 (Ascii.ascii_of_nat 97))))
    by (apply Nat.ltb_lt; vm_compute; reflexivity).
  assert (H2 : String.length "ok" <= 500) by (apply Nat.leb_le; vm_compute; reflexivity).
  split; [exact H1|]. split; [exact H2|].
  destruct (log_llm_call_truncates (String.string_of_list_ascii (replicate 501 (Ascii.ascii_of_nat 97)))
              "ok" "llm" [])
    as (p & r & Hrun & _ & _ & _ & Hr & Hp & _).
  exists p. rewrite (Hr H2) in Hrun.
  split; [exact Hrun | exact (proj1 (proj2 (Hp H1)))].
Defined.
(** ** The rules of the controller agent *)

Section ControllerRules.

Import ControllerAgent.

Variable class_attr : string -> bool.

Lemma commit_modes (now : Z) (hvac lighting machine : string) (st : SystemState) :
commit now [ ("hvac_status", VStr hvac);
             ("lighting_status", VStr lighting);
             ("machine_status", VStr machine) ] st
= <["timestamp" := VDatetime now]>
    (<["machine_status" := VStr machine]>
       (<["lighting_status" := VStr lighting]>
          (<["hvac_status" := VStr hvac]> st))).
Proof. reflexivity. Qed.

Lemma control_logic_run (hour weekday now : Z) (w : world) :
wf_state (_state (self w.1)) ->
Forall faults_only (_subscribers (self w.1)) ->
let busy := (8 <=? hour)%Z && (hour <=? 18)%Z && (weekday <? 5)%Z in
let hvac := if busy then "on" else "eco" in
let lighting := if busy then "on" else "off" in
let machine := if busy then "on" else "standby" in
exists s',
  _control_logic class_attr hour weekday now w
  = (Ok tt,
     (s', w.2 ++ [Logged "controller_update"
                    [ ("hvac_status", hvac); ("lighting_status", lighting);
                      ("machine_status", machine) ] "controller_agent"])) /\
  _state (self s')
  = <["timestamp" := VDatetime now]>
      (<["machine_status" := VStr machine]>
         (<["lighting_status" := VStr lighting]>
            (<["hvac_status" := VStr hvac]> (_state (self w.1))))).
Proof.
intros Hwf Hobs busy hvac lighting machine.
assert (Hkw : Forall (fun kv : string * pyval => assignable class_attr kv.1)
                [ ("hvac_status", VStr hvac);
                  ("lighting_status", VStr lighting);
                  ("machine_status", VStr machine) ]).
{ repeat first [ apply Forall_nil_2 | apply Forall_cons_2 ];
    intros _; apply is_field_true; reflexivity. }
destruct (update_state_spec class_attr now _ w.1 Hwf Hkw Hobs)
  as (s' & evs & Hrun & Hst & _).
exists s'. split; [|rewrite Hst; apply commit_modes].
unfold _control_logic, bind, on_store, on_logger, get_state,
  DecarbonLogger.log_event.
cbn [fst snd]. fold busy. fold hvac. fold lighting. fold machine.
rewrite Hrun. reflexivity.
Qed.

(** One pass of the controller's rules returns, on every store whose
  observers return or raise an Exception, and sets the three modes
  together: on a weekday (Monday 0 to Friday 4) between hour 8 and
  hour 18, both included, heating, lighting and machines are [on];
  at any other time they are [eco], [off] and [standby].  The time
  stamp is the time of the update, no other field changes, and the
  one record logged names the modes that were stored. *)
Theorem control_logic_sets_modes_together (hour weekday now : Z) (w : world) :
wf_state (_state (self w.1)) ->
Forall faults_only (_subscribers (self w.1)) ->
let r := _control_logic class_attr hour weekday now w in
let st := _state (self r.2.1) in
r.1 = Ok tt /\
(exists hvac lighting machine,
   st !! "hvac_status" = Some (VStr hvac) /\
   st !! "lighting_status" = Some (VStr lighting) /\
   st !! "machine_status" = Some (VStr machine) /\
   r.2.2 = w.2 ++ [Logged "controller_update"
                     [ ("hvac_status", hvac); ("lighting_status", lighting);
                       ("machine_status", machine) ] "controller_agent"] /\
   (((8 <= hour <= 18)%Z /\ (weekday < 5)%Z) ->
      hvac = "on" /\ lighting = "on" /\ machine = "on") /\
   (~ ((8 <= hour <= 18)%Z /\ (weekday < 5)%Z) ->
      hvac = "eco" /\ lighting = "off" /\ machine = "standby")) /\
st !! "timestamp" = Some (VDatetime now) /\
(forall key,
   key ∉ ["hvac_status"; "lighting_status"; "machine_status"; "timestamp"] ->
   st !! key = _state (self w.1) !! key).
Proof.
intros Hwf Hobs r st. subst st r.
destruct (control_logic_run hour weekday now w Hwf Hobs) as (s' & Hrun & Hst).
rewrite Hrun. cbn [fst snd]. rewrite Hst.
split; [reflexivity|]. split; [|split].
- eexists _, _, _.
  split; [rewrite lookup_insert_ne by discriminate;
          rewrite lookup_insert_ne by discriminate;
          rewrite lookup_insert_ne by discriminate;
          apply lookup_insert_eq|].
  split; [rewrite lookup_insert_ne by discriminate;
          rewrite lookup_insert_ne by discriminate;
          apply lookup_insert_eq|].
  split; [rewrite lookup_insert_ne by discriminate; apply lookup_insert_eq|].
  split; [reflexivity|].
  destruct (Z.leb_spec 8 hour), (Z.leb_spec hour 18), (Z.ltb_spec weekday 5);
    cbn [andb]; split; intros Hbusy;
    first [ repeat split; reflexivity | exfalso; lia ].
- apply lookup_insert_eq.
- intros key Hkey.
  rewrite !not_elem_of_cons in Hkey. destruct Hkey as (H1 & H2 & H3 & H4 & _).
  rewrite !lookup_insert_ne by congruence. reflexivity.
Qed.

End ControllerRules.

(** The rules on a Saturday at noon and on a Monday at noon. *)
Lemma control_logic_sets_modes_together_witness :
  let w : ControllerAgent.world := (observed_store, []) in
  wf_state (_state (self w.1)) /\
  Forall faults_only (_subscribers (self w.1)) /\
  (ControllerAgent._control_logic shown_class_attr 12 5 9 w).1 = Ok tt /\
  _state (self (ControllerAgent._control_logic shown_class_attr 12 5 9 w).2.1)
    !! "timestamp" = Some (VDatetime 9).
Proof.
  cbv zeta.
  pose proof (control_logic_sets_modes_together shown_class_attr 12 5 9
                (observed_store, []) observed_store_wf observed_store_faults_only)
    as (Hok & _ & Hts & _).
  split; [exact observed_store_wf|]. split; [exact observed_store_faults_only|].
  split; [exact Hok | exact Hts].
Defined.
(** ** The conversation context built for the language model *)

Lemma string_append_nil_r (s : string) : s +:+ "" = s.
Proof.
  induction s as [|c s IH]; [reflexivity|].
  change (String c (s +:+ "") = String c s). f_equal. exact IH.
Qed.

Lemma string_append_assoc (s1 s2 s3 : string) :
  (s1 +:+ s2) +:+ s3 = s1 +:+ (s2 +:+ s3).
Proof.
  induction s1 as [|c s1 IH]; [reflexivity|].
  change (String c ((s1 +:+ s2) +:+ s3) = String c (s1 +:+ (s2 +:+ s3))).
  f_equal. exact IH.
Qed.

Lemma foldl_append_concat {A} (g : A -> string) (l : list A) (acc : string) :
  foldl (fun s x => s +:+ g x) acc l = acc +:+ String.concat "" (g <$> l).
Proof.
  revert acc. induction l as [|x l IH]; intros acc.
  - simpl. symmetry. apply string_append_nil_r.
  - cbn [foldl]. rewrite IH, string_append_assoc. f_equal.
    destruct l as [|y l]; [apply string_append_nil_r | reflexivity].
Qed.

(** [get_context_for_llm] lists exactly the messages that
    [get_recent_messages] returns for the same count: the empty string
    when there is none, otherwise the heading followed by one line for
    each of them, oldest first.  A message is labelled [User] when its
    sender is [user] and [Assistant] for every other sender. *)
Theorem context_for_llm_lists_recent_messages (count : Z) (self : ChatMemory.t) :
  let newline := String (Ascii.ascii_of_nat 10) "" in
  let line (msg : ChatMessage.t) :=
    (if String.eqb (ChatMessage.sender msg) "user" then "User" else "Assistant")
      +:+ ": " +:+ ChatMessage.message msg +:+ newline in
  ChatMemory.get_context_for_llm count self
  = match ChatMemory.get_recent_messages count self with
    | [] => ""
    | recent => "Recent conversation:" +:+ newline +:+ String.concat "" (line <$> recent)
    end.
Proof.
  intros newline line.
  unfold ChatMemory.get_context_for_llm, ChatMemory.get_recent_messages.
  set (recent := match ChatMemory.messages self with
                 | [] => []
                 | _ :: _ => slice_from (- count) (ChatMemory.messages self)
                 end).
  destruct recent as [|m ms]; [reflexivity|].
  rewrite (foldl_append_concat line (m :: ms)).
  rewrite string_append_assoc. reflexivity.
Qed.
